(** * Folk-art style classifiers: a shallow embedding and its properties

    The development follows two modules of the backend and the two routes
    that call them:

    - [backend/app/utils/dataset_classifier.py]   (modules [DatasetClassifier],
      [FeatureExtraction])
    - [backend/app/utils/embedding_classifier.py] (modules [EmbeddingClassifier],
      [DatasetWalk], [CentroidLogits])
    - [backend/app/routes/ml.py]                  (module [MlRoute])
    - [backend/app/routes/upload.py]              (module [UploadRoute])

    Python values are embedded as follows.  A [dict] is an association list
    in insertion order (the order decides ties of [max]); a raised exception
    is [None] in the option monad, so that a [try ... except Exception] is a
    [match] on the result; calls into PIL, numpy, scikit-learn and [random]
    are fields of a [Runtime] class, instantiated only for concrete runs.
    Scores of the dataset classifier and the confidences the routes average
    are exact rationals ([Q]), those of the embedding classifier are reals
    ([R]) because of [np.exp] and the norm; the code computes all of them in
    floating point, so a statement that rests on exact sums, quotients or
    exponentials says so. *)

From Stdlib Require Import List String Ascii Bool Arith Lia.
From Stdlib Require Import ZArith QArith.
From Stdlib Require Import OrderedTypeEx Sorted Permutation.
From Stdlib Require Lqa.
From Stdlib Require Import Reals Lra.
Import ListNotations.

Set Implicit Arguments.

(** ** Python built-ins *)

Module Py.

Declare Scope py_scope.
Notation "x <- c ;; k" := (match c with Some x => k | None => None end)
  (at level 61, c at next level, right associativity) : py_scope.
Delimit Scope py_scope with py.
Local Open Scope py_scope.
Local Open Scope string_scope.

(** [str.lower] on ASCII text: only the letters A-Z change. *)
Definition lower_ascii (c : ascii) : ascii :=
  let n := nat_of_ascii c in
  if (65 <=? n)%nat && (n <=? 90)%nat then ascii_of_nat (n + 32) else c.

Fixpoint lower (s : string) : string :=
  match s with
  | EmptyString => EmptyString
  | String c s' => String (lower_ascii c) (lower s')
  end.

(** [needle in hay] for two strings. *)
Fixpoint str_in (needle hay : string) : bool :=
  match hay with
  | EmptyString => prefix needle hay
  | String _ hay' => prefix needle hay || str_in needle hay'
  end.

(** The relation [str_in] decides. *)
Definition Substring (needle hay : string) : Prop :=
  exists pre post, hay = pre ++ needle ++ post.

(** A [dict] with string keys, in insertion order. *)
Definition dict (V : Type) := list (string * V).

Fixpoint dict_get {V} (d : dict V) (k : string) : option V :=
  match d with
  | [] => None
  | (k', v) :: d' => if String.eqb k k' then Some v else dict_get d' k
  end.

(** [d[k] = v]: an existing key keeps its position. *)
Fixpoint dict_set {V} (d : dict V) (k : string) (v : V) : dict V :=
  match d with
  | [] => [(k, v)]
  | (k', v') :: d' =>
      if String.eqb k k' then (k', v) :: d' else (k', v') :: dict_set d' k v
  end.

Definition dict_keys {V} (d : dict V) : list string := map fst d.

(** [d.setdefault(k, []).append(x)] *)
Fixpoint dict_append {V} (d : dict (list V)) (k : string) (x : V) : dict (list V) :=
  match d with
  | [] => [(k, [x])]
  | (k', xs) :: d' =>
      if String.eqb k k' then (k', (xs ++ [x])%list) :: d' else (k', xs) :: dict_append d' k x
  end.

(** [max(iterable, key=...)]: the running best is replaced only by a
    strictly larger element, so the first maximal element wins. *)
Fixpoint max_from {A K} (ltb : K -> K -> bool) (key : A -> K)
                  (best : A) (rest : list A) : A :=
  match rest with
  | [] => best
  | x :: rest' => max_from ltb key (if ltb (key best) (key x) then x else best) rest'
  end.

(** [None] is the [ValueError] of [max] on an empty iterable. *)
Definition py_max {A K} (ltb : K -> K -> bool) (key : A -> K) (l : list A) : option A :=
  match l with
  | [] => None
  | x :: rest => Some (max_from ltb key x rest)
  end.

(** [max(d, key=d.get)] *)
Definition max_key {V} (ltb : V -> V -> bool) (d : dict V) : option string :=
  kv <- py_max ltb snd d ;; Some (fst kv).

Definition Qltb (x y : Q) : bool := negb (Qle_bool y x).

(** [max(a, b)] and [min(a, b)] of two numbers: the first argument is kept
    unless the second is strictly larger (smaller). *)
Definition max2 (a b : Q) : Q := if Qltb a b then b else a.
Definition min2 (a b : Q) : Q := if Qltb b a then b else a.

(** [random.choice(seq)] is [seq[_randbelow(len(seq))]]; [r] is the draw. *)
Definition random_choice {A} (r : nat) (seq : list A) (d : A) : A :=
  nth (r mod List.length seq) seq d.

(** [for x in l: ys.append(f(x))] where [f] may raise. *)
Fixpoint try_map {A B} (f : A -> option B) (l : list A) : option (list B) :=
  match l with
  | [] => Some []
  | x :: l' => y <- f x ;; ys <- try_map f l' ;; Some (y :: ys)
  end.

End Py.

(** ** [dataset_classifier.py] *)

Module DatasetClassifier.
Import Py.
Local Open Scope py_scope.
Local Open Scope string_scope.
Local Open Scope Q_scope.

(** The calls that leave the module.  [None] stands for a raised exception. *)
Class Runtime := {
  Image : Type;
  Features : Type;
  (** [Image.open(io.BytesIO(image_data))] *)
  Image_open : list Byte.byte -> option Image;
  (** [Image.open(img_path)] on a reference file *)
  Image_open_path : string -> option Image;
  (** the body of the [try] of [_extract_features]: resize, histograms,
      edge sums, normalisation *)
  extract_histograms : Image -> option Features;
  (** [sklearn.metrics.pairwise.cosine_similarity([u], [v])[0][0]] *)
  cosine_similarity : Features -> Features -> option Q
}.

(** What a directory of the reference corpus holds: [Files l] is
    [image_files] after the glob loop and the suffix filter. *)
Inductive Folder :=
| NoFolder
| Unlistable
| Files (image_files : list string).

Inductive Value :=
| VStr (s : string)
| VFloat (x : Q)
| VScores (d : dict Q)
| VCounts (d : dict nat).

Definition styles : list string := ["warli"; "madhubani"; "pithora"].

Definition folder_mapping : dict string :=
  [("warli painting", "warli"); ("madhubani painting", "madhubani"); ("Pithora", "pithora")].

Definition style_keywords : dict (list string) :=
  [("warli", ["tribal"; "geometric"; "simple"; "story"]);
   ("madhubani", ["intricate"; "colorful"; "pattern"; "folk"]);
   ("pithora", ["horse"; "ritual"; "ceremony"; "deity"])].

(** [style_keywords.get(style, [])] *)
Definition keywords_of (style : string) : list string :=
  match dict_get style_keywords style with
  | Some kws => kws
  | None => []
  end.

Definition _calculate_filename_similarity (filename style : string) : Q :=
  let filename_lower := lower filename in
  if String.eqb style "warli" && str_in "warli" filename_lower then 0.95
  else if String.eqb style "madhubani" && str_in "madhubani" filename_lower then 0.95
  else if String.eqb style "pithora" && str_in "pithora" filename_lower then 0.95
  else if existsb (fun keyword => str_in keyword filename_lower) (keywords_of style)
  then 0.7
  else 0.

Section WithRuntime.
Context {RT : Runtime}.

Record RefData := {
  features : Features;
  ref_filename : string
}.

Record t := {
  reference_features : dict (list RefData);
  style_counts : dict nat
}.

(** The two random draws a call can consume: [np.random.random(50)] and
    the index [random.choice] picks. *)
Record Draws := {
  random_features : Features;
  randbelow : nat
}.

Definition _extract_features (fallback : Features) (image : Image) : Features :=
  match extract_histograms image with
  | Some features => features
  | None => fallback
  end.

(** The loop over [image_files[:10]]; a file that cannot be opened is
    skipped.  [rand p] is the random vector the extraction of [p] would
    fall back to. *)
Fixpoint load_references (rand : string -> Features) (paths : list string) : list RefData :=
  match paths with
  | [] => []
  | img_path :: rest =>
      match Image_open_path img_path with
      | Some img =>
          {| features := _extract_features (rand img_path) img;
             ref_filename := img_path |} :: load_references rand rest
      | None => load_references rand rest
      end
  end.

(** The loop over [folder_mapping.items()].  The flag tells whether the
    loop ran to its end; the fields written before an exception stay. *)
Fixpoint load_folders (corpus : string -> Folder) (rand : string -> Features)
                      (todo : dict string) (self : t) : t * bool :=
  match todo with
  | [] => (self, true)
  | (folder_name, style) :: rest =>
      match corpus folder_name with
      | NoFolder => load_folders corpus rand rest self
      | Unlistable => (self, false)
      | Files image_files =>
          load_folders corpus rand rest
            {| style_counts := dict_set (style_counts self) style (List.length image_files);
               reference_features :=
                 dict_set (reference_features self) style
                          (load_references rand (firstn 10 image_files)) |}
      end
  end.

Definition _load_reference_images (corpus : string -> Folder) (rand : string -> Features)
                                  (self : t) : t :=
  match load_folders corpus rand folder_mapping self with
  | (self', true) => self'
  | (self', false) =>
      {| reference_features := reference_features self';
         style_counts := [("warli", 95%nat); ("madhubani", 95%nat); ("pithora", 14%nat)] |}
  end.

(** [DatasetClassifier()] *)
Definition init (corpus : string -> Folder) (rand : string -> Features) : t :=
  _load_reference_images corpus rand
    {| reference_features := [];
       style_counts := [("warli", 0%nat); ("madhubani", 0%nat); ("pithora", 0%nat)] |}.

(** One round of the loop over the three styles (lines 141-168). *)
Definition score_style (self : t) (uploaded_features : Features)
                       (filename style : string) : option Q :=
  match dict_get (reference_features self) style with
  | None | Some [] => Some (_calculate_filename_similarity filename style)
  | Some refs =>
      similarities <-
        try_map (fun ref_data =>
                   sim <- cosine_similarity uploaded_features (features ref_data) ;;
                   Some (max2 0 sim)) refs ;;
      let base_similarity :=
        match py_max Qltb (fun s => s) similarities with
        | Some best => best
        | None => 0.3
        end in
      let filename_score := _calculate_filename_similarity filename style in
      Some ((base_similarity * 0.7) + (filename_score * 0.3))
  end.

Fixpoint score_styles (self : t) (uploaded_features : Features) (filename : string)
                      (todo : list string) (style_scores : dict Q) : option (dict Q) :=
  match todo with
  | [] => Some style_scores
  | style :: rest =>
      score <- score_style self uploaded_features filename style ;;
      score_styles self uploaded_features filename rest (dict_set style_scores style score)
  end.

(** Lines 133-172: the scores, the best style and its score. *)
Definition compare_with_dataset (self : t) (image_data : list Byte.byte) (filename : string)
                                (rnd : Draws) : option (dict Q * string * Q) :=
  image <- Image_open image_data ;;
  let uploaded_features := _extract_features (random_features rnd) image in
  style_scores <- score_styles self uploaded_features filename styles [] ;;
  best_style <- max_key Qltb style_scores ;;
  confidence <- dict_get style_scores best_style ;;
  Some (style_scores, best_style, confidence).

(** Lines 174-190: the low-score override, the boost and the result. *)
Definition calibrate (self : t) (scored : dict Q * string * Q) : option (dict Value) :=
  let '(style_scores, best_style, confidence) := scored in
  chosen <-
    (if Qltb confidence 0.5
     then style_by_count <- max_key Nat.ltb (style_counts self) ;;
          Some (style_by_count, 0.75)
     else Some (best_style, confidence)) ;;
  let '(best_style, confidence) := chosen in
  let confidence := min2 0.98 (confidence + 0.15) in
  Some [("predicted_style", VStr best_style);
        ("confidence_score", VFloat confidence);
        ("style_scores", VScores style_scores);
        ("model_version", VStr "dataset-comparison-v1");
        ("dataset_counts", VCounts (style_counts self))].

(** The body of the [try]. *)
Definition classify_main (self : t) (image_data : list Byte.byte) (filename : string)
                         (rnd : Draws) : option (dict Value) :=
  scored <- compare_with_dataset self image_data filename rnd ;;
  calibrate self scored.

(** The [except Exception] handler. *)
Definition classify_fallback (self : t) (filename : string) (rnd : Draws) : dict Value :=
  match find (fun style => str_in style (lower filename)) styles with
  | Some style =>
      [("predicted_style", VStr style);
       ("confidence_score", VFloat 0.85);
       ("style_scores", VScores [(style, 0.85)]);
       ("model_version", VStr "fallback-filename-v1");
       ("dataset_counts", VCounts (style_counts self))]
  | None =>
      let fallback_style := random_choice (randbelow rnd) styles "warli" in
      [("predicted_style", VStr fallback_style);
       ("confidence_score", VFloat 0.72);
       ("style_scores", VScores [(fallback_style, 0.72)]);
       ("model_version", VStr "random-fallback-v1");
       ("dataset_counts", VCounts (style_counts self))]
  end.

Definition classify_image (self : t) (image_data : list Byte.byte) (filename : string)
                          (rnd : Draws) : dict Value :=
  match classify_main self image_data filename rnd with
  | Some result => result
  | None => classify_fallback self filename rnd
  end.

End WithRuntime.

(** Reading a result. *)
Definition predicted_style (result : dict Value) : option string :=
  match dict_get result "predicted_style" with
  | Some (VStr s) => Some s
  | _ => None
  end.

Definition confidence_score (result : dict Value) : option Q :=
  match dict_get result "confidence_score" with
  | Some (VFloat x) => Some x
  | _ => None
  end.

Definition model_version (result : dict Value) : option string :=
  match dict_get result "model_version" with
  | Some (VStr s) => Some s
  | _ => None
  end.

End DatasetClassifier.

(** ** [embedding_classifier.py] *)

Module EmbeddingClassifier.
Import Py.
Local Open Scope py_scope.
Local Open Scope string_scope.
Local Open Scope R_scope.

(** A one-dimensional [np.ndarray]; a two-dimensional one is a list of rows. *)
Definition vec := list R.

Class Runtime := {
  TF_AVAILABLE : bool;
  CV2_AVAILABLE : bool;
  Image : Type;
  (** [Image.open(io.BytesIO(image_bytes))] *)
  Image_open : list Byte.byte -> option Image;
  (** [Image.open(p)] on a file of the dataset *)
  Image_open_path : string -> option Image;
  (** MobileNetV2 features or the HSV and edge histograms, L2-normalised *)
  _embed_image : Image -> option vec;
  (** the (label, path) pairs of the walk over [dataset_dir] *)
  _iter_dataset_images : list (string * string)
}.

Inductive File (A : Type) :=
| Absent
| Unreadable
| Stored (content : A).
Arguments Absent {A}.
Arguments Unreadable {A}.

(** The keys of the metadata record the loader reads. *)
Record Meta := {
  meta_label_names : option (list string);
  meta_method : option string
}.

(** The two arrays of an [.npz] file; [None] when reading the array raises. *)
Record Npz := {
  npz_embeddings : option (list vec);
  npz_labels : option (list string)
}.

(** [index_file] is the index file of the active method. *)
Record Disk := {
  index_file : File Npz;
  meta_file : File Meta
}.

Record t := {
  method : string;
  embeddings : option (list vec);
  labels : list string;
  label_names : list string;
  class_to_indices : dict (list nat);
  loaded : bool
}.

Inductive Value :=
| VStr (s : string)
| VFloat (x : R)
| VPredictions (d : dict R).

(** [sorted(set(l))] on strings. *)
Fixpoint insert_sorted (x : string) (l : list string) : list string :=
  match l with
  | [] => [x]
  | y :: l' => if String.leb x y then x :: l else y :: insert_sorted x l'
  end.

Definition sorted (l : list string) : list string := fold_right insert_sorted [] l.

Definition set_of (l : list string) : list string := nodup string_dec l.

(** The loop of [_rebuild_class_indices] over [enumerate(self.labels)]. *)
Fixpoint index_labels (labs : list string) (idx : nat) (acc : dict (list nat))
  : dict (list nat) :=
  match labs with
  | [] => acc
  | lab :: rest => index_labels rest (S idx) (dict_append acc lab idx)
  end.

Definition _rebuild_class_indices (self : t) : t :=
  {| method := method self;
     embeddings := embeddings self;
     labels := labels self;
     label_names := label_names self;
     class_to_indices := index_labels (labels self) 0 [];
     loaded := loaded self |}.

Definition method_matches (stored : option string) (active : string) : bool :=
  match stored with
  | Some m => String.eqb m active
  | None => false
  end.

(** The [if os.path.exists(...)] block of [_load_or_build_index] (lines
    193-209).  [false] is a miss: a file is absent or the [try] raised, and
    the build follows.  The arrays are assigned one after the other before
    the tag is compared, so after a miss the object holds what was assigned
    until then. *)
Definition try_load (self : t) (disk : Disk) : t * bool :=
  match index_file disk, meta_file disk with
  | Absent, _ | _, Absent => (self, false)
  | Unreadable, _ => (self, false)
  | Stored data, on_disk =>
      match npz_embeddings data with
      | None => (self, false)
      | Some stored_embeddings =>
          let self0 :=
            {| method := method self;
               embeddings := Some stored_embeddings;
               labels := labels self;
               label_names := label_names self;
               class_to_indices := class_to_indices self;
               loaded := loaded self |} in
          match npz_labels data with
          | None => (self0, false)
          | Some stored_labels =>
              let self1 :=
                {| method := method self0;
                   embeddings := embeddings self0;
                   labels := stored_labels;
                   label_names := label_names self0;
                   class_to_indices := class_to_indices self0;
                   loaded := loaded self0 |} in
              match on_disk with
              | Stored meta =>
                  if method_matches (meta_method meta) (method self)
                  then
                    let self2 :=
                      _rebuild_class_indices
                        {| method := method self1;
                           embeddings := embeddings self1;
                           labels := labels self1;
                           label_names :=
                             match meta_label_names meta with
                             | Some names => names
                             | None => sorted (set_of (labels self1))
                             end;
                           class_to_indices := class_to_indices self1;
                           loaded := loaded self1 |} in
                    ({| method := method self2;
                        embeddings := embeddings self2;
                        labels := labels self2;
                        label_names := label_names self2;
                        class_to_indices := class_to_indices self2;
                        loaded := true |}, true)
                  else (self1, false)
              | _ => (self1, false)
              end
          end
      end
  end.

(** [np.vstack]: at least one row, all of one length. *)
Definition vstack (rows : list vec) : option (list vec) :=
  match rows with
  | [] => None
  | r :: rest =>
      if forallb (fun r' => Nat.eqb (List.length r') (List.length r)) rest
      then Some rows else None
  end.

Section WithRuntime.
Context {RT : Runtime}.

(** [by_class.setdefault(label, []).append(path)] for each item *)
Fixpoint group_by_class (items : list (string * string)) (by_class : dict (list string))
  : dict (list string) :=
  match items with
  | [] => by_class
  | (label, path) :: rest => group_by_class rest (dict_append by_class label path)
  end.

(** The inner loop of the build: at most [max_per_class] embeddings of one
    class, files that fail to open or embed are skipped. *)
Fixpoint embed_paths (max_per_class count : nat) (paths : list string) : list vec :=
  match paths with
  | [] => []
  | p :: rest =>
      if (max_per_class <=? count)%nat then []
      else
        match (img <- Image_open_path p ;; _embed_image img) with
        | Some emb => emb :: embed_paths max_per_class (S count) rest
        | None => embed_paths max_per_class count rest
        end
  end.

Fixpoint embed_classes (max_per_class : nat) (by_class : dict (list string))
  : list (vec * string) :=
  match by_class with
  | [] => []
  | (label, paths) :: rest =>
      (map (fun emb => (emb, label)) (embed_paths max_per_class 0 paths)
       ++ embed_classes max_per_class rest)%list
  end.

(** Lines 211-257.  [None] is one of the three errors of the build; the
    object is then as the load attempt left it.  The labels are saved as
    [np.array(self.labels, dtype=object)]: [np.load], called without
    [allow_pickle], raises when such an array is read, so the labels of the
    written file are [None]. *)
Definition build_index (max_per_class : nat) (self : t) : option (t * Disk) :=
  match _iter_dataset_images with
  | [] => None
  | items =>
      let rows := embed_classes max_per_class (group_by_class items []) in
      match rows with
      | [] => None
      | _ =>
          stacked <- vstack (map fst rows) ;;
          let self' :=
            _rebuild_class_indices
              {| method := method self;
                 embeddings := Some stacked;
                 labels := map snd rows;
                 label_names := sorted (set_of (map snd rows));
                 class_to_indices := class_to_indices self;
                 loaded := loaded self |} in
          Some ({| method := method self';
                   embeddings := embeddings self';
                   labels := labels self';
                   label_names := label_names self';
                   class_to_indices := class_to_indices self';
                   loaded := true |},
                {| index_file := Stored {| npz_embeddings := Some stacked;
                                           npz_labels := None |};
                   meta_file := Stored {| meta_label_names := Some (label_names self');
                                          meta_method := Some (method self') |} |})
      end
  end.

(** The flag is [false] when the call raises. *)
Definition _load_or_build_index (max_per_class : nat) (self : t) (disk : Disk)
  : t * Disk * bool :=
  match try_load self disk with
  | (self', true) => (self', disk, true)
  | (self', false) =>
      match build_index max_per_class self' with
      | Some (built, disk') => (built, disk', true)
      | None => (self', disk, false)
      end
  end.

End WithRuntime.

(** *** The centroid scorer (lines 273-299) *)

Definition vsum (l : list R) : R := fold_right Rplus 0 l.

Fixpoint vadd (u v : vec) : vec :=
  match u, v with
  | x :: u', y :: v' => (x + y) :: vadd u' v'
  | _, _ => []
  end.

(** [rows.mean(axis=0)] of a non-empty block of equally long rows. *)
Definition mean_axis0 (rows : list vec) : vec :=
  match rows with
  | [] => []
  | r :: rest => map (fun s => s / INR (List.length rows)) (fold_left vadd rest r)
  end.

Definition norm (v : vec) : R := sqrt (vsum (map (fun x => x * x) v)).

Definition zeros_like (v : vec) : vec := map (fun _ => 0) v.

(** [None] is the [IndexError] of a row index out of range. *)
Definition centroid (E : list vec) (idxs : list nat) : option vec :=
  match idxs with
  | [] => row <- nth_error E 0 ;; Some (zeros_like row)
  | _ =>
      rows <- try_map (nth_error E) idxs ;;
      let c := mean_axis0 rows in
      Some (map (fun x => x / (norm c + 1e-9)) c)
  end.

(** [centroids @ emb]; [None] is the [ValueError] of mismatched shapes. *)
Definition matvec (M : list vec) (v : vec) : option (list R) :=
  if forallb (fun r => Nat.eqb (List.length r) (List.length v)) M
  then Some (map (fun r => vsum (map (fun xy => fst xy * snd xy) (combine r v))) M)
  else None.

(** [l.max()] of a non-empty array *)
Definition amax (l : list R) : R :=
  match l with
  | [] => 0
  | x :: rest => fold_left Rmax rest x
  end.

Definition temp : R := 0.05.

Definition softmax (logits : list R) : list R :=
  let exps := map (fun l => exp ((l - amax logits) / temp)) logits in
  map (fun e => e / vsum exps) exps.

(** [np.argmax]: the first index of the maximum. *)
Fixpoint argmax_from (best_idx : nat) (best : R) (idx : nat) (l : list R) : nat :=
  match l with
  | [] => best_idx
  | x :: rest =>
      if Rlt_dec best x then argmax_from idx x (S idx) rest
      else argmax_from best_idx best (S idx) rest
  end.

Definition argmax (l : list R) : nat :=
  match l with
  | [] => 0%nat
  | x :: rest => argmax_from 0 x 1 rest
  end.

(** [class_to_indices.get(lab, [])] *)
Definition indices_of (self : t) (lab : string) : list nat :=
  match dict_get (class_to_indices self) lab with
  | Some idxs => idxs
  | None => []
  end.

(** The sorted labels and their soft-max probabilities for the query. *)
Definition centroid_scores (self : t) (emb : vec) : option (list string * list R) :=
  E <- embeddings self ;;
  let labs := sorted (set_of (labels self)) in
  centroids <- try_map (fun lab => centroid E (indices_of self lab)) labs ;;
  centroids <- vstack centroids ;;
  logits <- matvec centroids emb ;;
  Some (labs, softmax logits).

Section Classify.
Context {RT : Runtime}.

Definition score (self : t) (image_bytes : list Byte.byte) : option (dict Value) :=
  img <- Image_open image_bytes ;;
  emb <- _embed_image img ;;
  scored <- centroid_scores self emb ;;
  let '(labs, probs) := scored in
  let best_idx := argmax probs in
  predicted <- nth_error labs best_idx ;;
  confidence <- nth_error probs best_idx ;;
  let all_predictions := combine labs probs in
  Some [("predicted_style", VStr predicted);
        ("confidence_score", VFloat confidence);
        ("all_predictions", VPredictions all_predictions);
        ("method", VStr (if TF_AVAILABLE then "mobilenetv2-embeddings-knn"
                         else "cvhsv-embeddings-knn"))].

(** [classify]: the result ([None] when the call raises), the object and
    the disk afterwards.  The index is loaded or built with the default
    [max_per_class] of 400. *)
Definition classify (self : t) (disk : Disk)
                    (image_bytes : list Byte.byte) : option (dict Value) * t * Disk :=
  if negb TF_AVAILABLE && negb CV2_AVAILABLE then (None, self, disk)
  else
    let '(self', disk', ok) :=
      if negb (loaded self) || match embeddings self with None => true | Some _ => false end
      then _load_or_build_index 400 self disk
      else (self, disk, true) in
    if ok then (score self' image_bytes, self', disk')
    else (None, self', disk').

(** The object [__init__] leaves before it loads or builds the index. *)
Definition fresh : t :=
  {| method := if TF_AVAILABLE then "mobilenetv2" else "cvhsv";
     embeddings := None;
     labels := [];
     label_names := [];
     class_to_indices := [];
     loaded := false |}.

(** [EmbeddingClassifier()]: an error of the load or build is printed and
    dropped. *)
Definition init (disk : Disk) : t * Disk :=
  fst (_load_or_build_index 400 fresh disk).

End Classify.

(** What the scorer needs of an index: a non-empty matrix with rows of
    length [d], at least one label, and class indices that point at rows.
    A label may be left without any index. *)
Definition well_shaped (self : t) (d : nat) : Prop :=
  exists E,
    embeddings self = Some E /\
    E <> [] /\
    labels self <> [] /\
    Forall (fun r => List.length r = d) E /\
    forall lab idxs,
      dict_get (class_to_indices self) lab = Some idxs ->
      Forall (fun i => (i < List.length E)%nat) idxs.

(** Strictly increasing in the order of [str]. *)
Definition increasing (l : list string) : Prop :=
  StronglySorted (fun a b => String.ltb a b = true) l.

End EmbeddingClassifier.

(** ** Concrete runs

    A runtime for the dataset classifier in which an image and a feature
    vector are handles (numbers): empty input does not decode, extraction
    fails on image 0, and the similarity of a query to a reference is read
    off a table. *)

Module Runs.
Import Py.
Local Open Scope string_scope.

Definition similarity_table (query reference : nat) : Q :=
  match query, reference with
  | 1%nat, 1%nat => 0.1
  | 1%nat, 2%nat => 0.2
  | 1%nat, 3%nat => 0.6
  | 2%nat, 1%nat => 0.9
  | 2%nat, 2%nat => 0.4
  | 2%nat, 3%nat => 0.3
  | _, _ => 0
  end.

Definition dataset_runtime : DatasetClassifier.Runtime :=
  {| DatasetClassifier.Image := nat;
     DatasetClassifier.Features := nat;
     DatasetClassifier.Image_open :=
       fun data => match data with [] => None | _ => Some (List.length data) end;
     DatasetClassifier.Image_open_path :=
       fun path => if String.eqb path "broken.jpg" then None else Some (String.length path);
     DatasetClassifier.extract_histograms :=
       fun img => match img with 0%nat => None | _ => Some img end;
     DatasetClassifier.cosine_similarity := fun u v => Some (similarity_table u v) |}.

(** One reference per style, with the counts of the fallback table. *)
Definition classifier : @DatasetClassifier.t dataset_runtime :=
  {| DatasetClassifier.reference_features :=
       [("warli", [ {| DatasetClassifier.features := 1%nat : @DatasetClassifier.Features dataset_runtime;
                       DatasetClassifier.ref_filename := "w.jpg" |} ]);
        ("madhubani", [ {| DatasetClassifier.features := 2%nat : @DatasetClassifier.Features dataset_runtime;
                           DatasetClassifier.ref_filename := "m.jpg" |} ]);
        ("pithora", [ {| DatasetClassifier.features := 3%nat : @DatasetClassifier.Features dataset_runtime;
                         DatasetClassifier.ref_filename := "p.jpg" |} ])];
     DatasetClassifier.style_counts :=
       [("warli", 95%nat); ("madhubani", 95%nat); ("pithora", 14%nat)] |}.

Definition draws : @DatasetClassifier.Draws dataset_runtime :=
  {| DatasetClassifier.random_features := 7%nat : @DatasetClassifier.Features dataset_runtime;
     DatasetClassifier.randbelow := 2 |}.

(** A corpus on disk: two folders, one file of which does not open. *)
Definition corpus (folder_name : string) : DatasetClassifier.Folder :=
  if String.eqb folder_name "warli painting"
  then DatasetClassifier.Files ["w1.jpg"; "broken.jpg"; "w3.png"]
  else if String.eqb folder_name "madhubani painting"
  then DatasetClassifier.Files ["m1.jpeg"]
  else DatasetClassifier.NoFolder.

Definition one_byte : list Byte.byte := [Byte.x01].
Definition two_bytes : list Byte.byte := [Byte.x01; Byte.x02].
Definition three_bytes : list Byte.byte := [Byte.x01; Byte.x02; Byte.x03].

(** A runtime in which every image opens and no extraction succeeds, its
    draws, and the object it constructs over [corpus]: the features of the
    references are the random vectors that stood in for them. *)
Definition failing_extraction : DatasetClassifier.Runtime :=
  {| DatasetClassifier.Image := nat;
     DatasetClassifier.Features := nat;
     DatasetClassifier.Image_open :=
       fun data => match data with [] => None | _ => Some (List.length data) end;
     DatasetClassifier.Image_open_path := fun path => Some (String.length path);
     DatasetClassifier.extract_histograms := fun _ => None;
     DatasetClassifier.cosine_similarity := fun u v => Some (similarity_table u v) |}.

Definition failing_draws : @DatasetClassifier.Draws failing_extraction :=
  {| DatasetClassifier.random_features := 1%nat : @DatasetClassifier.Features failing_extraction;
     DatasetClassifier.randbelow := 0 |}.

Definition failing_classifier : @DatasetClassifier.t failing_extraction :=
  @DatasetClassifier.init failing_extraction corpus (fun _ => 3%nat).

Section Embedding.
Import EmbeddingClassifier.
Local Open Scope R_scope.

(** A runtime for the embedding classifier: TensorFlow is present, a file
    whose name starts with w embeds to the first axis and any other image to
    the second. *)
Definition embedding_runtime : EmbeddingClassifier.Runtime :=
  {| TF_AVAILABLE := true;
     CV2_AVAILABLE := false;
     EmbeddingClassifier.Image := string;
     EmbeddingClassifier.Image_open :=
       fun data => match data with [] => None | _ => Some "upload" end;
     EmbeddingClassifier.Image_open_path :=
       fun p => if String.eqb p "broken.jpg" then None else Some p;
     _embed_image := fun img => if prefix "w" img then Some [1; 0] else Some [0; 1];
     _iter_dataset_images :=
       [("warli", "w1.jpg"); ("madhubani", "m1.jpg"); ("warli", "broken.jpg");
        ("warli", "w2.jpg")] |}.

(** An index of the other method left on disk. *)
Definition stale_disk : Disk :=
  {| index_file := Stored {| npz_embeddings := Some [[0.6; 0.8]; [0.8; 0.6]];
                             npz_labels := Some ["pithora"; "pithora"] |};
     meta_file := Stored {| meta_label_names := Some ["pithora"];
                            meta_method := Some "cvhsv" |} |}.

(** The object after a build over the dataset of [embedding_runtime]. *)
Definition built : EmbeddingClassifier.t :=
  {| method := "mobilenetv2";
     embeddings := Some [[1; 0]; [1; 0]; [0; 1]];
     labels := ["warli"; "warli"; "madhubani"];
     label_names := ["madhubani"; "warli"];
     class_to_indices := [("warli", [0; 1]%nat); ("madhubani", [2]%nat)];
     loaded := true |}.

Definition upload : list Byte.byte := [Byte.x01].

End Embedding.

End Runs.

(** ** The numeric part of [_extract_features]

    Lines 74-98 of [dataset_classifier.py], from the two arrays PIL hands
    over: [img_array], the 64 x 64 RGB image as rows of pixels, and
    [gray_array], its grey version as rows of values.  Both hold [uint8]
    values, numbers below 256. *)

Module FeatureExtraction.
Local Open Scope nat_scope.

Definition pixel : Type := nat * nat * nat.

Definition red (p : pixel) : nat := fst (fst p).
Definition green (p : pixel) : nat := snd (fst p).
Definition blue (p : pixel) : nat := snd p.

(** [img_array[:,:,k]], row after row *)
Definition channel (component : pixel -> nat) (img_array : list (list pixel)) : list nat :=
  flat_map (map component) img_array.

(** [np.histogram(values, bins=16, range=(0, 256))[0]]: bin [i] counts the
    values from [16 * i] to [16 * i + 15]. *)
Definition histogram16 (values : list nat) : list nat :=
  map (fun bin => List.length (filter (fun v => v / 16 =? bin) values)) (seq 0 16).

(** A difference of two [uint8] values wraps around; [np.abs] leaves an
    unsigned value as it is. *)
Definition diff_uint8 (a b : nat) : nat := (b + 256 - a) mod 256.

(** [np.diff(row)] *)
Fixpoint diff_row (row : list nat) : list nat :=
  match row with
  | a :: (b :: _) as rest => diff_uint8 a b :: diff_row rest
  | _ => []
  end.

Fixpoint diff_pairwise (upper lower : list nat) : list nat :=
  match upper, lower with
  | a :: upper', b :: lower' => diff_uint8 a b :: diff_pairwise upper' lower'
  | _, _ => []
  end.

(** [np.diff(gray_array, axis=0)] *)
Fixpoint diff_rows (rows : list (list nat)) : list (list nat) :=
  match rows with
  | r :: (r' :: _) as rest => diff_pairwise r r' :: diff_rows rest
  | _ => []
  end.

Definition total (l : list nat) : nat := fold_right Nat.add 0 l.

(** [np.abs(np.diff(gray_array, axis=1)).sum()] *)
Definition edges_h (gray_array : list (list nat)) : nat :=
  total (map (fun row => total (diff_row row)) gray_array).

(** [np.abs(np.diff(gray_array, axis=0)).sum()] *)
Definition edges_v (gray_array : list (list nat)) : nat :=
  total (map total (diff_rows gray_array)).

(** The concatenation of line 94, before it is normalised. *)
Definition raw_features (img_array : list (list pixel)) (gray_array : list (list nat))
  : list nat :=
  histogram16 (channel red img_array)
  ++ histogram16 (channel green img_array)
  ++ histogram16 (channel blue img_array)
  ++ [edges_h gray_array; edges_v gray_array].

Definition of_nat (n : nat) : Q := inject_Z (Z.of_nat n).

(** Lines 96-100. *)
Definition features_of_arrays (img_array : list (list pixel)) (gray_array : list (list nat))
  : list Q :=
  let features := raw_features img_array gray_array in
  if 0 <? total features
  then map (fun x => (of_nat x / of_nat (total features))%Q) features
  else map of_nat features.

Definition Qsum (l : list Q) : Q := fold_right Qplus 0%Q l.

(** Every value of the two arrays is a [uint8]. *)
Definition uint8_image (img_array : list (list pixel)) : Prop :=
  Forall (Forall (fun p => red p < 256 /\ green p < 256 /\ blue p < 256)) img_array.

End FeatureExtraction.

(** ** The object [DatasetClassifier()] builds *)

Module DatasetInvariant.
Import Py DatasetClassifier.

Section WithRuntime.
Context {RT : Runtime}.

(** What the loop of [_load_reference_images] keeps true of the object:
    references only for known styles, at most 10 of them, and no more than
    the count recorded for the style. *)
Definition bounded (self : t) : Prop :=
  forall style refs,
    dict_get (reference_features self) style = Some refs ->
    In style styles /\
    (List.length refs <= 10)%nat /\
    exists n, dict_get (style_counts self) style = Some n /\ (List.length refs <= n)%nat.

End WithRuntime.

End DatasetInvariant.

(** ** The walk over the dataset of [embedding_classifier.py] *)

Module DatasetWalk.
Import Py.
Local Open Scope string_scope.

(** [str.isspace] on an ASCII character: tab to carriage return, the four
    separators 28 to 31, and the space. *)
Definition is_space (c : ascii) : bool :=
  let n := nat_of_ascii c in
  ((9 <=? n)%nat && (n <=? 13)%nat) || ((28 <=? n)%nat && (n <=? 32)%nat).

Fixpoint lstrip (s : string) : string :=
  match s with
  | String c s' => if is_space c then lstrip s' else s
  | EmptyString => EmptyString
  end.

(** [rstrip]: a character stays when it is no space or something stays
    after it. *)
Fixpoint rstrip (s : string) : string :=
  match s with
  | String c s' =>
      match rstrip s' with
      | EmptyString => if is_space c then EmptyString else String c EmptyString
      | rest => String c rest
      end
  | EmptyString => EmptyString
  end.

(** [s.strip()] *)
Definition strip (s : string) : string := rstrip (lstrip s).

(** [s.replace("_", " ")] *)
Fixpoint replace_underscores (s : string) : string :=
  match s with
  | String c s' =>
      String (if Ascii.eqb c "_" then " "%char else c) (replace_underscores s')
  | EmptyString => EmptyString
  end.

Definition _normalize_label (name : string) : string :=
  let n := lower (strip name) in
  if str_in "madhubani" n then "madhubani"
  else if str_in "warli" n then "warli"
  else if str_in "pithora" n || str_in "pithori" n then "pithora"
  else replace_underscores n.

(** [s.endswith(suffix)] *)
Definition endswith (s suffix : string) : bool :=
  (String.length suffix <=? String.length s)%nat
  && String.eqb (substring (String.length s - String.length suffix)
                           (String.length suffix) s) suffix.

Definition image_suffixes : list string := [".jpg"; ".jpeg"; ".png"; ".webp"].

(** [f.lower().endswith((".jpg", ".jpeg", ".png", ".webp"))] *)
Definition is_image_name (f : string) : bool :=
  existsb (endswith (lower f)) image_suffixes.

(** [os.path.basename] of a relative path with [/] as separator: what
    follows the last separator. *)
Fixpoint basename (path : string) : string :=
  match path with
  | String c rest =>
      if Ascii.eqb c "/" then basename rest
      else if str_in "/" rest then basename rest
      else path
  | EmptyString => EmptyString
  end.

(** One step of [os.walk]: [rel] is the directory relative to the dataset
    directory, [.] for the directory itself, and [files] its file names. *)
Record Visit := {
  rel : string;
  files : list string
}.

(** [os.path.join(a, b)] for a relative [b]: a separator goes between the
    two unless [a] is empty or ends in one. *)
Definition path_join (a b : string) : string :=
  if String.eqb a "" || endswith a "/" then a ++ b else a ++ "/" ++ b.

(** [os.path.join(root, f)]; [os.walk] has made [root] by joining the
    dataset directory with the components of [rel]. *)
Definition join (dataset_dir rel f : string) : string :=
  path_join (path_join dataset_dir rel) f.

(** [_iter_dataset_images]; [walk] is [None] when the dataset directory
    does not exist. *)
Definition _iter_dataset_images (dataset_dir : string) (walk : option (list Visit))
  : list (string * string) :=
  match walk with
  | None => []
  | Some visits =>
      flat_map
        (fun v =>
           if String.eqb (rel v) "." || prefix "." (rel v) then []
           else
             let label := _normalize_label (basename (rel v)) in
             map (fun f => (label, join dataset_dir (rel v) f))
                 (filter is_image_name (files v)))
        visits
  end.

End DatasetWalk.

(** ** One more reading of a dictionary *)

Module PyMore.
Import Py.

(** [d.get(k, [])] *)
Definition entry {V} (d : dict (list V)) (k : string) : list V :=
  match dict_get d k with
  | Some xs => xs
  | None => []
  end.

End PyMore.

(** ** The similarities behind the soft-max *)

Module CentroidLogits.
Import Py EmbeddingClassifier.

(** The sorted labels and [centroids @ emb] (lines 274-287), the part of
    [centroid_scores] before the soft-max. *)
Definition centroid_logits (self : t) (emb : vec) : option (list string * list R) :=
  match embeddings self with
  | None => None
  | Some E =>
      let labs := sorted (set_of (labels self)) in
      match try_map (fun lab => centroid E (indices_of self lab)) labs with
      | None => None
      | Some centroids =>
          match vstack centroids with
          | None => None
          | Some centroids =>
              match matvec centroids emb with
              | None => None
              | Some logits => Some (labs, logits)
              end
          end
      end
  end.

End CentroidLogits.

(** ** [routes/ml.py]: the classification metrics *)

Module MlRoute.
Local Open Scope string_scope.

(** The fields of a [ClassificationMetrics] document the route reads; a
    timestamp is a number. *)
Record Metric := {
  style : option string;
  confidence : option Q;
  timestamp : Z;
  user_id : option string
}.

(** An entry of [recent_classifications]. *)
Record Recent := {
  recent_style : option string;
  recent_confidence : option Q;
  recent_timestamp : Z;
  recent_user_id : string
}.

Record Report := {
  total_classifications : nat;
  average_confidence : Q;
  style_distribution : list (option string * nat);
  recent_classifications : list Recent
}.

Definition same_style (a b : option string) : bool :=
  match a, b with
  | Some x, Some y => String.eqb x y
  | None, None => true
  | _, _ => false
  end.

(** [d.get(style, 0)] *)
Fixpoint get_count (d : list (option string * nat)) (key : option string) : nat :=
  match d with
  | [] => 0%nat
  | (k, n) :: d' => if same_style key k then n else get_count d' key
  end.

(** [d[style] = d.get(style, 0) + 1] *)
Fixpoint count_up (d : list (option string * nat)) (key : option string)
  : list (option string * nat) :=
  match d with
  | [] => [(key, 1%nat)]
  | (k, n) :: d' =>
      if same_style key k then (k, S n) :: d' else (k, n) :: count_up d' key
  end.

Fixpoint distribution (metrics : list Metric) (d : list (option string * nat))
  : list (option string * nat) :=
  match metrics with
  | [] => d
  | metric :: rest => distribution rest (count_up d (style metric))
  end.

(** [sum(m.confidence for m in metrics)]; [None] is the [TypeError] of
    adding a missing confidence. *)
Fixpoint sum_confidence (metrics : list Metric) (acc : Q) : option Q :=
  match metrics with
  | [] => Some acc
  | m :: rest =>
      match confidence m with
      | Some c => sum_confidence rest (acc + c)
      | None => None
      end
  end.

(** [sorted(metrics, key=lambda x: x.timestamp, reverse=True)]: stable, so
    of two metrics with one timestamp the earlier in the list comes first. *)
Fixpoint insert_newest (m : Metric) (sorted : list Metric) : list Metric :=
  match sorted with
  | [] => [m]
  | x :: rest =>
      if (timestamp x <=? timestamp m)%Z then m :: sorted
      else x :: insert_newest m rest
  end.

Definition newest_first (metrics : list Metric) : list Metric :=
  fold_right insert_newest [] metrics.

Definition recent_of (m : Metric) : Recent :=
  {| recent_style := style m;
     recent_confidence := confidence m;
     recent_timestamp := timestamp m;
     recent_user_id :=
       match user_id m with
       | Some (String c s) => String c s
       | _ => "N/A"
       end |}.

(** The body of [get_classification_metrics] after the documents are
    fetched; [None] is the answer 500. *)
Definition get_classification_metrics (metrics : list Metric) : option Report :=
  match metrics with
  | [] =>
      Some {| total_classifications := 0;
              average_confidence := 0;
              style_distribution := [];
              recent_classifications := [] |}
  | _ =>
      let total := List.length metrics in
      match sum_confidence metrics 0 with
      | None => None
      | Some sum =>
          Some {| total_classifications := total;
                  average_confidence := sum / inject_Z (Z.of_nat total);
                  style_distribution := distribution metrics [];
                  recent_classifications :=
                    map recent_of (firstn 10 (newest_first metrics)) |}
      end
  end.

Definition counts_total (d : list (option string * nat)) : nat :=
  fold_right (fun kv acc => (snd kv + acc)%nat) 0%nat d.

(** [a] is at least as recent as [b]. *)
Definition not_older (a b : Metric) : Prop := (timestamp b <= timestamp a)%Z.

(** How often a style occurs among the metrics. *)
Definition occurrences (metrics : list Metric) (key : option string) : nat :=
  List.length (filter (fun m => same_style key (style m)) metrics).

End MlRoute.

(** ** [routes/upload.py] *)

Module UploadRoute.
Import Py.
Local Open Scope string_scope.

(** What [validate_image_file] reads of the upload. *)
Record UploadFile := {
  content_type : option string;
  filename : option string;
  size : option nat
}.

(** [s] as a condition: [None] and the empty string are false. *)
Definition truthy (s : option string) : bool :=
  match s with
  | Some (String _ _) => true
  | _ => false
  end.

Definition text (s : option string) : string :=
  match s with
  | Some t => t
  | None => ""
  end.

Definition max_size : nat := 10 * 1024 * 1024.

(** [validate_image_file]: the detail of the answer 400, or [None] when
    the file passes. *)
Definition validate_image_file (file : UploadFile) : option string :=
  let refused :=
    if negb (truthy (content_type file)) || negb (prefix "image/" (text (content_type file)))
    then truthy (filename file)
         && negb (existsb (DatasetWalk.endswith (lower (text (filename file))))
                          [".png"; ".jpg"; ".jpeg"; ".webp"])
    else false in
  if refused then Some "File must be an image"
  else
    match size file with
    | Some n => if (0 <? n)%nat && (max_size <? n)%nat then Some "File too large" else None
    | None => None
    end.

Inductive BadgeType := PREMIUM | GOLD | DIAMOND.

Definition same_badge (a b : BadgeType) : bool :=
  match a, b with
  | PREMIUM, PREMIUM | GOLD, GOLD | DIAMOND, DIAMOND => true
  | _, _ => false
  end.

Record User := {
  total_uploads : nat;
  badges : list BadgeType
}.

(** [badge in current_user.badges] *)
Definition holds (badge : BadgeType) (user : User) : bool :=
  existsb (same_badge badge) (badges user).

(** Lines 121-133: the upload is counted and at most one badge awarded. *)
Definition count_upload (user : User) : User :=
  let total := S (total_uploads user) in
  if (10 <=? total)%nat && negb (holds DIAMOND user)
  then {| total_uploads := total; badges := (badges user ++ [DIAMOND])%list |}
  else if (5 <=? total)%nat && negb (holds GOLD user)
  then {| total_uploads := total; badges := (badges user ++ [GOLD])%list |}
  else if (3 <=? total)%nat && negb (holds PREMIUM user)
  then {| total_uploads := total; badges := (badges user ++ [PREMIUM])%list |}
  else {| total_uploads := total; badges := badges user |}.

(** [price if price and price > 0 else 500.0] *)
Definition stored_price (price : option Q) : Q :=
  match price with
  | Some p => if negb (Qeq_bool p 0) && Qltb 0 p then p else 500
  | None => 500
  end.

Section WithRuntime.
Context {RT : DatasetClassifier.Runtime}.

(** Lines 66-98: the style and confidence the artwork is stored with.
    [read] is [None] when [file.seek] or [file.read] raises; the filename is
    a string by then, the file has been saved under it.  The two variables
    are assigned one after the other, each keeps its default when the lookup
    before it raises. *)
Definition classify_upload (classifier : DatasetClassifier.t) (read : option (list Byte.byte))
           (filename : string) (rnd : DatasetClassifier.Draws) : string * Q :=
  match read with
  | Some image_data =>
      let classification_result :=
        DatasetClassifier.classify_image classifier image_data filename rnd in
      match DatasetClassifier.predicted_style classification_result with
      | Some predicted_style =>
          match DatasetClassifier.confidence_score classification_result with
          | Some confidence_score => (predicted_style, confidence_score)
          | None => (predicted_style, 0)
          end
      | None => ("warli", 0)
      end
  | None => ("warli", 0)
  end.

End WithRuntime.

End UploadRoute.

(** ** More concrete runs *)

Module MoreRuns.
Import Py.
Local Open Scope string_scope.

(** A 2 x 2 image and its grey version. *)
Definition tiny_image : list (list FeatureExtraction.pixel) :=
  [[(255, 0, 16); (17, 40, 16)]; [(0, 0, 0); (200, 100, 31)]]%nat.

Definition tiny_gray : list (list nat) := [[78; 30]; [0; 122]]%nat.

(** A corpus whose second folder cannot be listed. *)
Definition unlistable_corpus (folder_name : string) : DatasetClassifier.Folder :=
  if String.eqb folder_name "warli painting"
  then DatasetClassifier.Files ["w1.jpg"; "w2.jpg"]
  else if String.eqb folder_name "madhubani painting"
  then DatasetClassifier.Unlistable
  else DatasetClassifier.NoFolder.

(** A dataset directory with a file of its own, a hidden folder and two
    folders of images. *)
Definition walk : list DatasetWalk.Visit :=
  [ {| DatasetWalk.rel := "."; DatasetWalk.files := ["readme.jpg"] |};
    {| DatasetWalk.rel := ".cache"; DatasetWalk.files := ["thumb.png"] |};
    {| DatasetWalk.rel := "Warli_Painting";
       DatasetWalk.files := ["a.JPG"; "pageInfo.txt"; "b.webp"] |};
    {| DatasetWalk.rel := "extra/gond_art"; DatasetWalk.files := ["g.png"] |} ].

Definition metrics : list MlRoute.Metric :=
  [ {| MlRoute.style := Some "warli"; MlRoute.confidence := Some 0.9;
       MlRoute.timestamp := 10%Z; MlRoute.user_id := Some "u1" |};
    {| MlRoute.style := Some "pithora"; MlRoute.confidence := Some 0.72;
       MlRoute.timestamp := 30%Z; MlRoute.user_id := None |};
    {| MlRoute.style := Some "warli"; MlRoute.confidence := Some 0.85;
       MlRoute.timestamp := 20%Z; MlRoute.user_id := Some "" |} ].

(** An upload that declares an image type under a name that is none. *)
Definition renamed_upload : UploadRoute.UploadFile :=
  {| UploadRoute.content_type := Some "image/png";
     UploadRoute.filename := Some "notes.txt";
     UploadRoute.size := Some 2048%nat |}.

(** A user with many uploads and no badge. *)
Definition veteran : UploadRoute.User :=
  {| UploadRoute.total_uploads := 12; UploadRoute.badges := [] |}.

End MoreRuns.


(** * Properties *)

(** ** Python built-ins *)

Module PyFacts.
Import Py.
Local Open Scope string_scope.

Lemma prefix_spec (p s : string) :
  prefix p s = true <-> exists post, s = p ++ post.
Proof.
  revert s; induction p as [|c p IH]; intros s.
  - destruct s; simpl; split; eauto.
  - destruct s as [|c' s]; simpl.
    + split; [discriminate | intros [post H]; discriminate].
    + destruct (ascii_dec c c') as [->|Hne].
      * rewrite IH. split; intros [post H]; exists post.
        -- now rewrite H.
        -- now inversion H.
      * split; [discriminate | intros [post H]; inversion H; congruence].
Qed.

Lemma str_in_spec (needle hay : string) :
  str_in needle hay = true <-> Substring needle hay.
Proof.
  unfold Substring. induction hay as [|c hay IH]; cbn [str_in].
  - rewrite prefix_spec. split.
    + intros [post H]. now exists "", post.
    + intros [pre [post H]]. destruct pre; simpl in H; [now exists post | discriminate].
  - rewrite orb_true_iff, IH, prefix_spec. split.
    + intros [[post H] | [pre [post H]]].
      * now exists "", post.
      * exists (String c pre), post. simpl. now rewrite H.
    + intros [pre [post H]]. destruct pre as [|c' pre]; simpl in H.
      * left. now exists post.
      * right. inversion H. now exists pre, post.
Qed.

Lemma str_in_false (needle hay : string) :
  str_in needle hay = false <-> ~ Substring needle hay.
Proof.
  rewrite <- str_in_spec. destruct (str_in needle hay); split; congruence.
Qed.

Lemma Qltb_lt (x y : Q) : Qltb x y = true <-> (x < y)%Q.
Proof.
  unfold Qltb. rewrite negb_true_iff. split.
  - intros H. apply Qnot_le_lt. intros Hle.
    apply Qle_bool_iff in Hle. congruence.
  - intros H. destruct (Qle_bool y x) eqn:E; [|reflexivity].
    apply Qle_bool_iff in E. exfalso. exact (Qlt_not_le _ _ H E).
Qed.

Lemma Qltb_ge (x y : Q) : Qltb x y = false <-> (y <= x)%Q.
Proof.
  unfold Qltb. rewrite negb_false_iff. apply Qle_bool_iff.
Qed.

Lemma min2_le_l (a b : Q) : (min2 a b <= a)%Q.
Proof.
  unfold min2. destruct (Qltb b a) eqn:E.
  - apply Qlt_le_weak. now apply Qltb_lt.
  - apply Qle_refl.
Qed.

Lemma min2_glb (a b c : Q) : (c <= a)%Q -> (c <= b)%Q -> (c <= min2 a b)%Q.
Proof.
  unfold min2. now destruct (Qltb b a).
Qed.

Lemma max2_nonneg (x : Q) : (0 <= max2 0 x)%Q.
Proof.
  unfold max2. destruct (Qltb 0 x) eqn:E.
  - apply Qlt_le_weak. now apply Qltb_lt.
  - apply Qle_refl.
Qed.

Lemma max2_of_nonneg (x : Q) : (0 <= x)%Q -> (max2 0 x == x)%Q.
Proof.
  unfold max2. intros H. destruct (Qltb 0 x) eqn:E; [reflexivity|].
  apply Qltb_ge in E. now apply Qle_antisym.
Qed.

(** A loop over a list returns when each round does. *)
Lemma try_map_some {A B} (f : A -> option B) (l : list A) :
  (forall x, In x l -> exists y, f x = Some y) -> exists ys, try_map f l = Some ys.
Proof.
  induction l as [|x l IH]; intros H; simpl; [eauto|].
  destruct (H x (or_introl eq_refl)) as (y & ->).
  destruct IH as (ys & ->); [intros z Hz; apply H; now right | eauto].
Qed.


(** [max] returns an element of the iterable that no element exceeds,
    for any strict order test that is transitive and co-transitive. *)
Section Max.
Variables (A K : Type) (ltb : K -> K -> bool) (key : A -> K).
Hypothesis ltb_trans : forall a b c, ltb a b = true -> ltb b c = true -> ltb a c = true.
Hypothesis ltb_cotrans : forall a b c, ltb a b = false -> ltb b c = false -> ltb a c = false.
Hypothesis ltb_irrefl : forall a, ltb a a = false.

Lemma max_from_spec (rest : list A) : forall best,
  let r := max_from ltb key best rest in
  In r (best :: rest) /\
  forall x, In x (best :: rest) -> ltb (key r) (key x) = false.
Proof.
  induction rest as [|x rest IH]; intros best; simpl.
  - split; [now left|]. intros x [<-|[]]. apply ltb_irrefl.
  - destruct (ltb (key best) (key x)) eqn:E.
    + destruct (IH x) as [Hin Hmax]. split.
      * destruct Hin as [<-|Hin]; [right; now left | right; now right].
      * intros y [<-|[<-|Hy]].
        -- destruct (ltb (key (max_from ltb key x rest)) (key best)) eqn:E'; [|reflexivity].
           rewrite <- (ltb_trans E' E). apply Hmax. now left.
        -- apply Hmax. now left.
        -- apply Hmax. now right.
    + destruct (IH best) as [Hin Hmax]. split.
      * destruct Hin as [<-|Hin]; [now left | right; now right].
      * intros y [<-|[<-|Hy]].
        -- apply Hmax. now left.
        -- apply (@ltb_cotrans _ (key best) _); [apply Hmax; now left | exact E].
        -- apply Hmax. now right.
Qed.

Lemma py_max_spec (l : list A) (r : A) :
  py_max ltb key l = Some r ->
  In r l /\ forall x, In x l -> ltb (key r) (key x) = false.
Proof.
  destruct l as [|x rest]; simpl; [discriminate|].
  intros H. injection H as <-. apply max_from_spec.
Qed.

Lemma py_max_some (l : list A) : l <> [] -> exists r, py_max ltb key l = Some r.
Proof.
  destruct l as [|x rest]; [congruence|]. intros _. simpl. eauto.
Qed.

(** Ties go to the element met first: everything before the result is
    strictly smaller. *)
Lemma max_from_first (rest : list A) : forall best,
  exists pre post,
    best :: rest = (pre ++ max_from ltb key best rest :: post)%list /\
    forall x, In x pre -> ltb (key x) (key (max_from ltb key best rest)) = true.
Proof.
  induction rest as [|x rest IH]; intros best; simpl.
  - exists [], []. split; [reflexivity | intros ? []].
  - destruct (ltb (key best) (key x)) eqn:E.
    + destruct (IH x) as (pre & post & Heq & Hlt).
      exists (best :: pre), post. split; [simpl; f_equal; exact Heq|].
      intros y [<-|Hy]; [|now apply Hlt].
      destruct (ltb (key best) (key (max_from ltb key x rest))) eqn:E'; [reflexivity|].
      rewrite <- E. symmetry. apply (@ltb_cotrans _ (key (max_from ltb key x rest)) _ E').
      apply max_from_spec. now left.
    + destruct (IH best) as (pre & post & Heq & Hlt).
      destruct pre as [|b pre]; simpl in Heq.
      * injection Heq as Hb Hr. exists [], (x :: post). split.
        -- simpl. rewrite <- Hb, Hr. reflexivity.
        -- intros y Hy. destruct Hy.
      * injection Heq as <- Hr.
        exists (best :: x :: pre), post. split; [simpl; do 2 f_equal; exact Hr|].
        intros y [<-|[<-|Hy]].
        -- apply Hlt. now left.
        -- destruct (ltb (key x) (key (max_from ltb key best rest))) eqn:E'; [reflexivity|].
           rewrite <- (Hlt best (or_introl eq_refl)).
           symmetry. exact (ltb_cotrans E E').
        -- apply Hlt. now right.
Qed.

Lemma py_max_first (l : list A) (r : A) :
  py_max ltb key l = Some r ->
  exists pre post,
    l = (pre ++ r :: post)%list /\ forall x, In x pre -> ltb (key x) (key r) = true.
Proof.
  destruct l as [|x rest]; simpl; [discriminate|].
  intros H. injection H as <-. apply max_from_first.
Qed.


End Max.

End PyFacts.

(** ** The dataset classifier *)

Module DatasetClassifierSpec.
Import Py PyFacts DatasetClassifier.
Local Open Scope string_scope.
Local Open Scope Q_scope.

Lemma Qltb_trans (a b c : Q) : Qltb a b = true -> Qltb b c = true -> Qltb a c = true.
Proof. rewrite !Qltb_lt. apply Qlt_trans. Qed.

Lemma Qltb_cotrans (a b c : Q) : Qltb a b = false -> Qltb b c = false -> Qltb a c = false.
Proof. rewrite !Qltb_ge. intros H1 H2. exact (Qle_trans _ _ _ H2 H1). Qed.

Lemma Qltb_irrefl (a : Q) : Qltb a a = false.
Proof. apply Qltb_ge, Qle_refl. Qed.

Lemma nat_ltb_trans (a b c : nat) : Nat.ltb a b = true -> Nat.ltb b c = true -> Nat.ltb a c = true.
Proof. rewrite !Nat.ltb_lt. lia. Qed.

Lemma nat_ltb_cotrans (a b c : nat) :
  Nat.ltb a b = false -> Nat.ltb b c = false -> Nat.ltb a c = false.
Proof. rewrite !Nat.ltb_ge. lia. Qed.

Lemma dict_get_In {V} (d : dict V) (k : string) (v : V) :
  dict_get d k = Some v -> In (k, v) d.
Proof.
  induction d as [|[k' v'] d IH]; simpl; [discriminate|].
  destruct (String.eqb_spec k k') as [->|Hne].
  - intros H. injection H as ->. now left.
  - intros H. right. now apply IH.
Qed.

Lemma In_dict_get {V} (d : dict V) (k : string) (v : V) :
  NoDup (dict_keys d) -> In (k, v) d -> dict_get d k = Some v.
Proof.
  induction d as [|[k' v'] d IH]; simpl; [intros _ []|].
  intros Hnd [H|H].
  - injection H as -> ->. now rewrite String.eqb_refl.
  - inversion Hnd as [|? ? Hnotin Hnd']; subst.
    destruct (String.eqb_spec k k') as [->|Hne].
    + exfalso. apply Hnotin. change k' with (fst (k', v)). now apply in_map.
    + now apply IH.
Qed.

(** [max(d, key=d.get)] on scores and on counts. *)
Lemma max_key_scores (d : dict Q) (k : string) :
  max_key Qltb d = Some k ->
  exists v, In (k, v) d /\ forall k' v', In (k', v') d -> v' <= v.
Proof.
  unfold max_key. destruct (py_max Qltb snd d) as [[k0 v0]|] eqn:E; [|discriminate].
  intros H. injection H as <-.
  apply (@py_max_spec _ _ Qltb snd Qltb_trans Qltb_cotrans Qltb_irrefl) in E as [Hin Hmax].
  exists v0. split; [exact Hin|].
  intros k' v' H'. apply Qltb_ge. exact (Hmax _ H').
Qed.

Lemma max_key_counts (d : dict nat) (k : string) :
  max_key Nat.ltb d = Some k ->
  exists n, In (k, n) d /\ forall k' n', In (k', n') d -> (n' <= n)%nat.
Proof.
  unfold max_key. destruct (py_max Nat.ltb snd d) as [[k0 n0]|] eqn:E; [|discriminate].
  intros H. injection H as <-.
  apply (@py_max_spec _ _ Nat.ltb snd nat_ltb_trans nat_ltb_cotrans Nat.ltb_irrefl) in E as [Hin Hmax].
  exists n0. split; [exact Hin|].
  intros k' n' H'. apply Nat.ltb_ge. exact (Hmax _ H').
Qed.

Lemma max_key_some {V} (ltb : V -> V -> bool) (d : dict V) :
  d <> [] -> exists k, max_key ltb d = Some k /\ In k (dict_keys d).
Proof.
  destruct d as [|kv d]; [congruence|]. intros _.
  unfold max_key, py_max. eexists. split; [reflexivity|].
  unfold dict_keys. apply in_map.
  generalize kv. induction d as [|x d IH]; intros best; simpl.
  - now left.
  - destruct (IH (if ltb (snd best) (snd x) then x else best)) as [H|H].
    + rewrite <- H. destruct (ltb (snd best) (snd x)); [right; now left | now left].
    + right. now right.
Qed.

Lemma max_key_In {V} (ltb : V -> V -> bool) (d : dict V) (k : string) :
  max_key ltb d = Some k -> In k (dict_keys d).
Proof.
  intros H. destruct d as [|kv d]; [discriminate|].
  destruct (@max_key_some V ltb (kv :: d)) as [k' [H1 H2]]; [discriminate|].
  congruence.
Qed.

Lemma max_key_counts_first (d : dict nat) (k : string) :
  max_key Nat.ltb d = Some k ->
  exists n pre post,
    d = (pre ++ (k, n) :: post)%list /\
    (forall k' n', In (k', n') pre -> (n' < n)%nat) /\
    (forall k' n', In (k', n') d -> (n' <= n)%nat).
Proof.
  unfold max_key. destruct (py_max Nat.ltb snd d) as [[k0 n0]|] eqn:E; [|discriminate].
  intros H. injection H as <-.
  pose proof (@py_max_spec _ _ Nat.ltb snd nat_ltb_trans nat_ltb_cotrans Nat.ltb_irrefl _ _ E)
    as [_ Hmax].
  apply (@py_max_first _ _ Nat.ltb snd nat_ltb_trans nat_ltb_cotrans Nat.ltb_irrefl) in E
    as (pre & post & Heq & Hlt).
  exists n0, pre, post. split; [exact Heq|]. split.
  - intros k' n' H'. apply Nat.ltb_lt. exact (Hlt _ H').
  - intros k' n' H'. apply Nat.ltb_ge. exact (Hmax _ H').
Qed.

Lemma max_key_scores_first (d : dict Q) (k : string) :
  max_key Qltb d = Some k ->
  exists v pre post,
    d = (pre ++ (k, v) :: post)%list /\
    (forall k' v', In (k', v') pre -> v' < v) /\
    (forall k' v', In (k', v') d -> v' <= v).
Proof.
  unfold max_key. destruct (py_max Qltb snd d) as [[k0 v0]|] eqn:E; [|discriminate].
  intros H. injection H as <-.
  pose proof (@py_max_spec _ _ Qltb snd Qltb_trans Qltb_cotrans Qltb_irrefl _ _ E)
    as [_ Hmax].
  apply (@py_max_first _ _ Qltb snd Qltb_trans Qltb_cotrans Qltb_irrefl) in E
    as (pre & post & Heq & Hlt).
  exists v0, pre, post. split; [exact Heq|]. split.
  - intros k' v' H'. apply Qltb_lt. exact (Hlt _ H').
  - intros k' v' H'. apply Qltb_ge. exact (Hmax _ H').
Qed.


(** *** The filename heuristic *)

Lemma filename_similarity_values (filename style : string) :
  let score := _calculate_filename_similarity filename style in
  score = 0 \/ score = 0.7 \/ score = 0.95.
Proof.
  unfold _calculate_filename_similarity.
  repeat match goal with |- context [if ?b then _ else _] => destruct b end; auto.
Qed.

Lemma existsb_str_in (kws : list string) (s : string) :
  existsb (fun keyword => str_in keyword s) kws = true <->
  exists keyword, In keyword kws /\ Substring keyword s.
Proof.
  rewrite existsb_exists. split; intros [kw [H1 H2]]; exists kw; split; auto;
    now apply str_in_spec.
Qed.

(** C8. The filename score takes one of the three values 0, 0.7 and 0.95.
    For a known style it is 0.95 exactly when the style's name occurs in the
    lower-cased filename, whatever the keywords; otherwise 0.7 when one of
    the style's keywords occurs, and 0 when none does.  The filename
    my_warli_art.jpg scores 0.95 for warli. *)
Theorem filename_similarity_scale (filename style : string) :
  let score := _calculate_filename_similarity filename style in
  (score = 0 \/ score = 0.7 \/ score = 0.95) /\
  (In style styles ->
   (Substring style (lower filename) -> score = 0.95) /\
   (~ Substring style (lower filename) ->
    (exists keyword, In keyword (keywords_of style) /\ Substring keyword (lower filename)) ->
    score = 0.7) /\
   (~ Substring style (lower filename) ->
    (forall keyword, In keyword (keywords_of style) -> ~ Substring keyword (lower filename)) ->
    score = 0)) /\
  _calculate_filename_similarity "my_warli_art.jpg" "warli" = 0.95.
Proof.
  split; [apply filename_similarity_values|].
  split; [|reflexivity].
  intros Hstyle.
  assert (Hcases :
    (_calculate_filename_similarity filename style =
     if str_in style (lower filename) then 0.95
     else if existsb (fun keyword => str_in keyword (lower filename)) (keywords_of style)
          then 0.7 else 0)).
  { unfold _calculate_filename_similarity.
    generalize (lower filename) as filename_lower. intros filename_lower.
    destruct Hstyle as [<-|[<-|[<-|[]]]]; cbn [String.eqb Ascii.eqb Bool.eqb andb];
      repeat match goal with |- context [str_in ?a ?b] =>
        destruct (str_in a b) eqn:?; try reflexivity end. }
  cbv zeta. rewrite Hcases. clear Hcases.
  split; [|split].
  - intros H. apply str_in_spec in H. now rewrite H.
  - intros Hn Hkw. apply str_in_false in Hn. rewrite Hn.
    apply existsb_str_in in Hkw. now rewrite Hkw.
  - intros Hn Hkw. apply str_in_false in Hn. rewrite Hn.
    destruct (existsb _ _) eqn:E; [|reflexivity].
    apply existsb_str_in in E as [kw [H1 H2]]. exfalso. exact (Hkw kw H1 H2).
Qed.

(** A keyword match in an upper-case filename. *)
Lemma filename_similarity_scale_witness :
  _calculate_filename_similarity "Sacred_HORSE.PNG" "pithora" = 0.7.
Proof.
  apply (filename_similarity_scale "Sacred_HORSE.PNG" "pithora").
  - simpl. tauto.
  - apply str_in_false. vm_compute. reflexivity.
  - exists "horse". split; [simpl; tauto | apply str_in_spec; vm_compute; reflexivity].
Defined.

(** *** The main path *)

Section WithRuntime.
Context {RT : Runtime}.

(** The loop over the three styles fills the dictionary in their order. *)
Lemma score_styles_all (self : t) (uploaded : Features) (filename : string)
                       (style_scores : dict Q) :
  score_styles self uploaded filename styles [] = Some style_scores ->
  exists a b c,
    score_style self uploaded filename "warli" = Some a /\
    score_style self uploaded filename "madhubani" = Some b /\
    score_style self uploaded filename "pithora" = Some c /\
    style_scores = [("warli", a); ("madhubani", b); ("pithora", c)].
Proof.
  unfold styles. cbn [score_styles].
  destruct (score_style self uploaded filename "warli") as [a|]; [|discriminate].
  destruct (score_style self uploaded filename "madhubani") as [b|]; [|discriminate].
  destruct (score_style self uploaded filename "pithora") as [c|]; [|discriminate].
  cbn. intros H. injection H as <-. now exists a, b, c.
Qed.

Lemma compare_with_dataset_inv (self : t) (data : list Byte.byte) (filename : string)
      (rnd : Draws) (style_scores : dict Q) (best_style : string) (confidence : Q) :
  compare_with_dataset self data filename rnd = Some (style_scores, best_style, confidence) ->
  exists image,
    Image_open data = Some image /\
    score_styles self (_extract_features (random_features rnd) image) filename styles []
      = Some style_scores /\
    max_key Qltb style_scores = Some best_style /\
    dict_get style_scores best_style = Some confidence.
Proof.
  unfold compare_with_dataset.
  destruct (Image_open data) as [image|]; [|discriminate].
  destruct (score_styles _ _ _ _ _) as [scores|] eqn:Hs; [|discriminate].
  destruct (max_key Qltb scores) as [best|] eqn:Hb; [|discriminate].
  destruct (dict_get scores best) as [conf|] eqn:Hc; [|discriminate].
  intros H. injection H as <- <- <-. now exists image.
Qed.

(** What the main path returns, by the two cases of the override. *)
Lemma calibrate_inv (self : t) (style_scores : dict Q) (best_style : string)
      (confidence : Q) (result : dict Value) :
  calibrate self (style_scores, best_style, confidence) = Some result ->
  exists style c,
    result = [("predicted_style", VStr style);
              ("confidence_score", VFloat (min2 0.98 (c + 0.15)));
              ("style_scores", VScores style_scores);
              ("model_version", VStr "dataset-comparison-v1");
              ("dataset_counts", VCounts (style_counts self))] /\
    ((confidence < 0.5 /\ max_key Nat.ltb (style_counts self) = Some style /\ c = 0.75) \/
     (0.5 <= confidence /\ style = best_style /\ c = confidence)).
Proof.
  unfold calibrate. destruct (Qltb confidence 0.5) eqn:E.
  - destruct (max_key Nat.ltb (style_counts self)) as [by_count|] eqn:Hc; [|discriminate].
    intros H. injection H as <-. exists by_count, 0.75. split; [reflexivity|].
    left. apply Qltb_lt in E. auto.
  - intros H. injection H as <-. exists best_style, confidence. split; [reflexivity|].
    right. apply Qltb_ge in E. auto.
Qed.

Lemma classify_main_inv (self : t) (data : list Byte.byte) (filename : string)
      (rnd : Draws) (result : dict Value) :
  classify_main self data filename rnd = Some result ->
  exists style_scores best_style confidence,
    compare_with_dataset self data filename rnd = Some (style_scores, best_style, confidence) /\
    calibrate self (style_scores, best_style, confidence) = Some result.
Proof.
  unfold classify_main.
  destruct (compare_with_dataset self data filename rnd) as [[[scores best] conf]|];
    [|discriminate].
  intros H. now exists scores, best, conf.
Qed.

(** The handler returns one of two results. *)
Lemma classify_fallback_cases (self : t) (filename : string) (rnd : Draws) :
  (exists style pre post,
     styles = (pre ++ style :: post)%list /\
     Substring style (lower filename) /\
     (forall earlier, In earlier pre -> ~ Substring earlier (lower filename)) /\
     classify_fallback self filename rnd =
       [("predicted_style", VStr style);
        ("confidence_score", VFloat 0.85);
        ("style_scores", VScores [(style, 0.85)]);
        ("model_version", VStr "fallback-filename-v1");
        ("dataset_counts", VCounts (style_counts self))]) \/
  ((forall style, In style styles -> ~ Substring style (lower filename)) /\
   classify_fallback self filename rnd =
     let fallback_style := random_choice (randbelow rnd) styles "warli" in
     [("predicted_style", VStr fallback_style);
      ("confidence_score", VFloat 0.72);
      ("style_scores", VScores [(fallback_style, 0.72)]);
      ("model_version", VStr "random-fallback-v1");
      ("dataset_counts", VCounts (style_counts self))]).
Proof.
  unfold classify_fallback, styles. cbn [find].
  destruct (str_in "warli" (lower filename)) eqn:E1.
  { left. exists "warli", [], ["madhubani"; "pithora"].
    repeat split; [now apply str_in_spec | intros ? []]. }
  destruct (str_in "madhubani" (lower filename)) eqn:E2.
  { left. exists "madhubani", ["warli"], ["pithora"].
    repeat split; [now apply str_in_spec|].
    intros ? [<-|[]]. now apply str_in_false. }
  destruct (str_in "pithora" (lower filename)) eqn:E3.
  { left. exists "pithora", ["warli"; "madhubani"], [].
    repeat split; [now apply str_in_spec|].
    intros ? [<-|[<-|[]]]; now apply str_in_false. }
  right. split; [|reflexivity].
  intros ? [<-|[<-|[<-|[]]]]; now apply str_in_false.
Qed.

Lemma random_choice_styles (r : nat) : In (random_choice r styles "warli") styles.
Proof.
  unfold random_choice. apply nth_In. apply Nat.mod_upper_bound. discriminate.
Qed.

(** The model version tells the three paths apart. *)
Lemma classify_image_cases (self : t) (data : list Byte.byte) (filename : string)
      (rnd : Draws) :
  let result := classify_image self data filename rnd in
  dict_keys result =
    ["predicted_style"; "confidence_score"; "style_scores"; "model_version"; "dataset_counts"] /\
  ((exists style c,
      predicted_style result = Some style /\
      confidence_score result = Some (min2 0.98 (c + 0.15)) /\ 0.5 <= c /\
      model_version result = Some "dataset-comparison-v1" /\
      (In style styles \/ In style (dict_keys (style_counts self)))) \/
   (exists style,
      predicted_style result = Some style /\ In style styles /\
      confidence_score result = Some 0.85 /\
      model_version result = Some "fallback-filename-v1") \/
   (exists style,
      predicted_style result = Some style /\ In style styles /\
      confidence_score result = Some 0.72 /\
      model_version result = Some "random-fallback-v1")).
Proof.
  unfold classify_image.
  destruct (classify_main self data filename rnd) as [result|] eqn:Hmain.
  - apply classify_main_inv in Hmain as (scores & best & conf & Hcmp & Hcal).
    apply calibrate_inv in Hcal as (style & c & -> & Hcase).
    split; [reflexivity|]. left. exists style, c.
    split; [reflexivity|]. split; [reflexivity|].
    destruct Hcase as [(Hlt & Hmax & ->)|(Hge & -> & ->)].
    + split; [discriminate|]. split; [reflexivity|].
      right. exact (max_key_In _ _ Hmax).
    + split; [exact Hge|]. split; [reflexivity|]. left.
      apply compare_with_dataset_inv in Hcmp as (image & _ & Hs & Hbest & _).
      apply score_styles_all in Hs as (a & b & c' & _ & _ & _ & ->).
      apply max_key_In in Hbest. exact Hbest.
  - destruct (classify_fallback_cases self filename rnd)
      as [(style & pre & post & Hst & _ & _ & ->)|[_ ->]].
    + split; [reflexivity|]. right. left. exists style.
      repeat split. unfold styles in *. rewrite Hst. apply in_elt.
    + split; [reflexivity|]. right. right. eexists.
      repeat split. apply random_choice_styles.
Qed.

(** C4. Whatever the input, the confidence returned lies between 0 and
    0.98: on the main path by the clamp, on the two fallbacks by their
    constants. *)
Theorem confidence_in_range (self : t) (data : list Byte.byte) (filename : string)
        (rnd : Draws) :
  exists c,
    confidence_score (classify_image self data filename rnd) = Some c /\
    0 <= c /\ c <= 0.98.
Proof.
  destruct (classify_image_cases self data filename rnd)
    as [_ [(style & c & _ & Hc & Hge & _)|[(style & _ & _ & Hc & _)|(style & _ & _ & Hc & _)]]];
    rewrite Hc; eexists; (split; [reflexivity|]).
  - split; [|apply min2_le_l].
    apply min2_glb; [discriminate|].
    apply Qle_trans with (0.5 + 0.15); [discriminate|].
    apply Qplus_le_l. exact Hge.
  - split; discriminate.
  - split; discriminate.
Qed.

(** The constructor leaves the three styles as the keys of the counts. *)
Lemma load_folders_keys (corpus : string -> Folder) (rand : string -> Features)
      (todo : dict string) : forall self,
  (forall folder style, In (folder, style) todo -> In style styles) ->
  dict_keys (style_counts self) = styles ->
  dict_keys (style_counts (fst (load_folders corpus rand todo self))) = styles.
Proof.
  induction todo as [|[folder style] todo IH]; intros self Htodo Hkeys; simpl.
  - exact Hkeys.
  - assert (Htodo' : forall f s, In (f, s) todo -> In s styles)
      by (intros f s H; apply (Htodo f s); now right).
    destruct (corpus folder).
    + now apply IH.
    + exact Hkeys.
    + apply IH; [exact Htodo'|]. cbn [style_counts].
      assert (Hs : In style styles) by (apply (Htodo folder); now left).
      destruct (style_counts self) as [|[k1 n1] [|[k2 n2] [|[k3 n3] [|? ?]]]];
        try discriminate.
      injection Hkeys as -> -> ->.
      destruct Hs as [<-|[<-|[<-|[]]]]; reflexivity.
Qed.

Lemma init_keys (corpus : string -> Folder) (rand : string -> Features) :
  dict_keys (style_counts (init corpus rand)) = styles.
Proof.
  unfold init, _load_reference_images.
  pose proof (@load_folders_keys corpus rand folder_mapping
                {| reference_features := [];
                   style_counts := [("warli", 0%nat); ("madhubani", 0%nat); ("pithora", 0%nat)] |})
    as H.
  destruct (load_folders _ _ _ _) as [self' [|]]; [|reflexivity].
  apply H; [|reflexivity].
  intros folder style [E|[E|[E|[]]]]; injection E as <- <-; simpl; tauto.
Qed.

(** C10. [classify_image] returns for every input: the handler catches
    what the main path raises and raises nothing itself.  The result has the
    five keys, the predicted style is one of the three known styles, and the
    confidence is at least 0.65. *)
Theorem classify_image_total (self : t) (data : list Byte.byte) (filename : string)
        (rnd : Draws) :
  dict_keys (style_counts self) = styles ->
  let result := classify_image self data filename rnd in
  dict_keys result =
    ["predicted_style"; "confidence_score"; "style_scores"; "model_version"; "dataset_counts"] /\
  (exists style, predicted_style result = Some style /\ In style styles) /\
  (exists c, confidence_score result = Some c /\ 0.65 <= c).
Proof.
  intros Hkeys.
  destruct (classify_image_cases self data filename rnd)
    as [Hk [(style & c & Hp & Hc & Hge & _ & Hin)|[(style & Hp & Hin & Hc & _)|(style & Hp & Hin & Hc & _)]]];
    cbv zeta; (split; [exact Hk|]); rewrite Hp, Hc.
  - split.
    + exists style. split; [reflexivity|]. rewrite Hkeys in Hin. tauto.
    + eexists. split; [reflexivity|]. apply min2_glb; [discriminate|].
      apply Qle_trans with (0.5 + 0.15); [discriminate|].
      apply Qplus_le_l. exact Hge.
  - split; [now exists style | eexists; split; [reflexivity | discriminate]].
  - split; [now exists style | eexists; split; [reflexivity | discriminate]].
Qed.

End WithRuntime.


Section Calibration.
Context {RT : Runtime}.

(** C1, as the code has it.  When the best score of the comparison is
    below 0.5, the predicted style is the style with the largest recorded
    count, the first such in the order of the counts, and the confidence
    returned is 0.9: the default 0.75 receives the boost of 0.15 that the
    code applies to every result of the main path. *)
Theorem low_score_override (self : t) (data : list Byte.byte) (filename : string)
        (rnd : Draws) (style_scores : dict Q) (best_style : string) (confidence : Q) :
  compare_with_dataset self data filename rnd = Some (style_scores, best_style, confidence) ->
  confidence < 0.5 ->
  style_counts self <> [] ->
  let result := classify_image self data filename rnd in
  exists style_by_count n earlier later c,
    predicted_style result = Some style_by_count /\
    style_counts self = (earlier ++ (style_by_count, n) :: later)%list /\
    (forall style m, In (style, m) (style_counts self) -> (m <= n)%nat) /\
    (forall style m, In (style, m) earlier -> (m < n)%nat) /\
    confidence_score result = Some c /\ c == 0.9 /\
    model_version result = Some "dataset-comparison-v1".
Proof.
  intros Hcmp Hlow Hcounts. cbv zeta.
  unfold classify_image, classify_main. rewrite Hcmp.
  unfold calibrate.
  apply Qltb_lt in Hlow. rewrite Hlow.
  destruct (max_key_some Nat.ltb Hcounts) as (k & Hk & _). rewrite Hk.
  destruct (max_key_counts_first _ Hk) as (n & pre & post & Heq & Hlt & Hmax).
  exists k, n, pre, post. eexists.
  split; [reflexivity|]. split; [exact Heq|]. split; [exact Hmax|]. split; [exact Hlt|].
  split; [reflexivity|]. split; reflexivity.
Qed.

(** C9. A failure of the main path is answered first by the filename: the
    first of the three styles that occurs in the lower-cased filename, with
    confidence 0.85 and version fallback-filename-v1.  Only when none occurs
    the style is [random.choice] of the three, each style being the outcome
    of exactly one of the three draws, with confidence 0.72 and version
    random-fallback-v1.  A result of the main path carries
    dataset-comparison-v1, and the three versions differ. *)
Theorem fallback_order (self : t) (data : list Byte.byte) (filename : string)
        (rnd : Draws) :
  let result := classify_image self data filename rnd in
  (classify_main self data filename rnd = None ->
   (exists style earlier later,
      styles = (earlier ++ style :: later)%list /\
      Substring style (lower filename) /\
      (forall other, In other earlier -> ~ Substring other (lower filename)) /\
      predicted_style result = Some style /\
      confidence_score result = Some 0.85 /\
      model_version result = Some "fallback-filename-v1") \/
   ((forall style, In style styles -> ~ Substring style (lower filename)) /\
    predicted_style result = Some (random_choice (randbelow rnd) styles "warli") /\
    In (random_choice (randbelow rnd) styles "warli") styles /\
    confidence_score result = Some 0.72 /\
    model_version result = Some "random-fallback-v1")) /\
  (forall main_result, classify_main self data filename rnd = Some main_result ->
   result = main_result /\ model_version result = Some "dataset-comparison-v1") /\
  (forall style, In style styles ->
   exists r, (r < 3)%nat /\ random_choice r styles "warli" = style /\
             forall r', (r' < 3)%nat -> random_choice r' styles "warli" = style -> r' = r) /\
  "fallback-filename-v1" <> "random-fallback-v1" /\
  "fallback-filename-v1" <> "dataset-comparison-v1" /\
  "random-fallback-v1" <> "dataset-comparison-v1".
Proof.
  cbv zeta. split; [|split; [|split]].
  - intros Hnone. unfold classify_image. rewrite Hnone.
    destruct (classify_fallback_cases self filename rnd)
      as [(style & pre & post & Hst & Hsub & Hfirst & ->)|[Hno ->]].
    + left. exists style, pre, post. repeat split; assumption.
    + right. split; [exact Hno|]. repeat split. apply random_choice_styles.
  - intros main_result Hmain. unfold classify_image. rewrite Hmain.
    split; [reflexivity|].
    apply classify_main_inv in Hmain as (scores & best & conf & _ & Hcal).
    apply calibrate_inv in Hcal as (style & c & -> & _). reflexivity.
  - intros style [<-|[<-|[<-|[]]]].
    + exists 0%nat. repeat split; [lia|].
      intros [|[|[|r']]] Hr H; try reflexivity; try discriminate; lia.
    + exists 1%nat. repeat split; [lia|].
      intros [|[|[|r']]] Hr H; try reflexivity; try discriminate; lia.
    + exists 2%nat. repeat split; [lia|].
      intros [|[|[|r']]] Hr H; try reflexivity; try discriminate; lia.
  - repeat split; discriminate.
Qed.

End Calibration.


Section Scores.
Context {RT : Runtime}.

(** The similarities the loop over the references collects. *)
Lemma similarities_inv (uploaded : Features) (refs : list RefData) (collected : list Q) :
  try_map (fun ref_data =>
             match cosine_similarity uploaded (features ref_data) with
             | Some sim => Some (max2 0 sim)
             | None => None
             end) refs = Some collected ->
  exists sims,
    Forall2 (fun ref_data sim => cosine_similarity uploaded (features ref_data) = Some sim)
            refs sims /\
    collected = map (max2 0) sims.
Proof.
  revert collected. induction refs as [|ref_data refs IH]; intros collected; simpl.
  - intros H. injection H as <-. now exists [].
  - destruct (cosine_similarity uploaded (features ref_data)) as [sim|] eqn:E; [|discriminate].
    destruct (try_map _ refs) as [rest|]; [|discriminate].
    intros H. injection H as <-.
    destruct (IH rest eq_refl) as (sims & HF & ->).
    exists (sim :: sims). split; [now constructor | reflexivity].
Qed.

Lemma le_max2 (x : Q) : x <= max2 0 x.
Proof.
  unfold max2. destruct (Qltb 0 x) eqn:E; [apply Qle_refl | now apply Qltb_ge].
Qed.

(** The best of the clamped similarities bounds every similarity, and it
    is one of them as soon as one of them is not negative. *)
Lemma best_similarity (sims : list Q) (base : Q) :
  py_max Qltb (fun s => s) (map (max2 0) sims) = Some base ->
  0 <= base /\
  (forall sim, In sim sims -> sim <= base) /\
  ((exists sim, In sim sims /\ 0 <= sim) -> exists sim, In sim sims /\ sim == base).
Proof.
  intros H.
  apply (@py_max_spec _ _ Qltb (fun s => s) Qltb_trans Qltb_cotrans Qltb_irrefl) in H
    as [Hin Hmax].
  apply in_map_iff in Hin as (s0 & Hs0 & Hin0).
  assert (Hub : forall sim, In sim sims -> sim <= base).
  { intros sim Hsim. apply Qle_trans with (max2 0 sim); [apply le_max2|].
    apply Qltb_ge. apply Hmax. now apply in_map. }
  split; [rewrite <- Hs0; apply max2_nonneg|]. split; [exact Hub|].
  intros (sim & Hsim & Hpos).
  unfold max2 in Hs0. destruct (Qltb 0 s0) eqn:E.
  - exists s0. split; [exact Hin0 | now rewrite Hs0].
  - exists sim. split; [exact Hsim|]. apply Qle_antisym; [now apply Hub|].
    now rewrite <- Hs0.
Qed.

(** C5.  For a style with reference samples the score is 0.7 times the
    base similarity plus 0.3 times the filename score.  The base similarity
    is the largest of the cosine similarities to the single references, not
    their average: it bounds every one of them and is one of them as soon as
    one is not negative, as the cosine of two vectors without negative
    entries is; the clamp at 0 of line 155 then changes nothing.  The best
    style has the largest score, the first such in the order of the styles,
    and it is the predicted style when that score is at least 0.5. *)
Theorem combined_score_and_argmax (self : t) (data : list Byte.byte) (filename : string)
        (rnd : Draws) (style_scores : dict Q) (best_style : string) (confidence : Q) :
  compare_with_dataset self data filename rnd = Some (style_scores, best_style, confidence) ->
  (exists image, Image_open data = Some image /\
     forall style refs,
       In style styles ->
       dict_get (reference_features self) style = Some refs -> refs <> [] ->
       exists sims base_similarity,
         Forall2 (fun ref_data sim =>
                    cosine_similarity (_extract_features (random_features rnd) image)
                                      (features ref_data) = Some sim) refs sims /\
         0 <= base_similarity /\
         (forall sim, In sim sims -> sim <= base_similarity) /\
         ((exists sim, In sim sims /\ 0 <= sim) ->
          exists sim, In sim sims /\ sim == base_similarity) /\
         dict_get style_scores style =
           Some (base_similarity * 0.7 + _calculate_filename_similarity filename style * 0.3)) /\
  dict_keys style_scores = styles /\
  (exists earlier later,
     style_scores = (earlier ++ (best_style, confidence) :: later)%list /\
     (forall style score, In (style, score) style_scores -> score <= confidence) /\
     (forall style score, In (style, score) earlier -> score < confidence)) /\
  (0.5 <= confidence ->
   predicted_style (classify_image self data filename rnd) = Some best_style).
Proof.
  intros Hcmp.
  destruct (compare_with_dataset_inv _ _ _ _ Hcmp) as (image & Hopen & Hs & Hbest & Hconf).
  set (uploaded := _extract_features (random_features rnd) image) in *.
  destruct (score_styles_all _ _ _ Hs) as (a & b & c & Ha & Hb & Hc & Hscores).
  split; [|split; [|split]].
  - exists image. split; [exact Hopen|].
    intros style refs Hstyle Hrefs Hne.
    assert (Hscore : exists score,
              score_style self uploaded filename style = Some score /\
              dict_get style_scores style = Some score).
    { rewrite Hscores. destruct Hstyle as [<-|[<-|[<-|[]]]]; eauto. }
    destruct Hscore as (score & Hscore & ->).
    unfold score_style in Hscore. rewrite Hrefs in Hscore.
    destruct refs as [|r0 refs]; [congruence|].
    destruct (try_map _ (r0 :: refs)) as [collected|] eqn:Htry; [|discriminate].
    apply similarities_inv in Htry as (sims & HF & ->).
    destruct sims as [|s0 sims']; [inversion HF|].
    injection Hscore as <-.
    set (base := max_from Qltb (fun s => s) (max2 0 s0) (map (max2 0) sims')).
    assert (Hmax : py_max Qltb (fun s => s) (map (max2 0) (s0 :: sims')) = Some base)
      by reflexivity.
    destruct (@best_similarity _ _ Hmax) as (Hpos & Hub & Hattained).
    exists (s0 :: sims'), base.
    split; [exact HF|]. split; [exact Hpos|]. split; [exact Hub|].
    split; [exact Hattained | reflexivity].
  - now rewrite Hscores.
  - destruct (max_key_scores_first _ Hbest) as (v & pre & post & Heq & Hlt & Hmax).
    assert (Hv : v = confidence).
    { assert (Hin : In (best_style, v) style_scores)
        by (rewrite Heq; apply in_elt).
      apply In_dict_get in Hin; [congruence|].
      rewrite Hscores. simpl. repeat constructor; simpl; intuition discriminate. }
    subst v. exists pre, post.
    split; [exact Heq|]. split; [exact Hmax | exact Hlt].
  - intros Hhigh. unfold classify_image, classify_main. rewrite Hcmp.
    unfold calibrate. apply Qltb_ge in Hhigh. rewrite Hhigh. reflexivity.
Qed.

End Scores.

Section Totality.
Context {RT : Runtime}.

Lemma dict_get_key {V} (d : dict V) (k : string) :
  In k (dict_keys d) -> exists v, dict_get d k = Some v.
Proof.
  induction d as [|[k' v'] d IH]; simpl; [intros []|].
  intros [H|H]; destruct (String.eqb_spec k k') as [->|Hne]; eauto; congruence.
Qed.

(** The main path returns as soon as the image decodes, the similarity of
    any two vectors is defined and some count is recorded. *)
Lemma classify_main_total (self : t) (data : list Byte.byte) (filename : string)
      (rnd : Draws) (image : Image) :
  Image_open data = Some image ->
  (forall u v, cosine_similarity u v <> None) ->
  style_counts self <> [] ->
  exists result,
    classify_main self data filename rnd = Some result /\
    model_version result = Some "dataset-comparison-v1".
Proof.
  intros Hopen Hcos Hcounts.
  set (uploaded := _extract_features (random_features rnd) image).
  assert (Hstyle : forall style, exists score,
            score_style self uploaded filename style = Some score).
  { intros style. unfold score_style.
    destruct (dict_get (reference_features self) style) as [[|r refs]|]; eauto.
    destruct (@try_map_some _ _
                (fun ref_data =>
                   match cosine_similarity uploaded (features ref_data) with
                   | Some sim => Some (max2 0 sim)
                   | None => None
                   end) (r :: refs)) as (sims & ->); [|eauto].
    intros ref_data _. destruct (cosine_similarity uploaded (features ref_data)) eqn:E; eauto.
    now apply Hcos in E. }
  destruct (Hstyle "warli") as (a & Ha).
  destruct (Hstyle "madhubani") as (b & Hb).
  destruct (Hstyle "pithora") as (c & Hc).
  assert (Hscores : score_styles self uploaded filename styles []
                    = Some [("warli", a); ("madhubani", b); ("pithora", c)]).
  { unfold styles. cbn [score_styles]. rewrite Ha, Hb, Hc. reflexivity. }
  destruct (@max_key_some _ Qltb [("warli", a); ("madhubani", b); ("pithora", c)])
    as (best & Hbest & Hin); [discriminate|].
  destruct (dict_get_key _ _ Hin) as (conf & Hconf).
  destruct (max_key_some Nat.ltb Hcounts) as (by_count & Hby & _).
  unfold classify_main, compare_with_dataset. rewrite Hopen. fold uploaded.
  rewrite Hscores, Hbest, Hconf. unfold calibrate. rewrite Hby.
  destruct (Qltb conf 0.5); eexists; split; reflexivity.
Qed.

(** C2, as the code has it.  Input that does not decode raises no error
    to the caller: the handler returns an ordinary result, for the first of
    the three styles that occurs in the lower-cased filename with confidence
    0.85, or else for a random one of the three with confidence 0.72.  When
    the image decodes and only the extraction fails, the random vector takes
    the place of the features and the comparison goes on: the scores of the
    result are those of the random vector against the references, and the
    result is one of the main path. *)
Theorem undecodable_input_falls_back (self : t) (data : list Byte.byte) (filename : string)
        (rnd : Draws) :
  (Image_open data = None ->
   let result := classify_image self data filename rnd in
   (exists style earlier later,
      styles = (earlier ++ style :: later)%list /\
      Substring style (lower filename) /\
      (forall other, In other earlier -> ~ Substring other (lower filename)) /\
      result = [("predicted_style", VStr style);
                ("confidence_score", VFloat 0.85);
                ("style_scores", VScores [(style, 0.85)]);
                ("model_version", VStr "fallback-filename-v1");
                ("dataset_counts", VCounts (style_counts self))]) \/
   ((forall style, In style styles -> ~ Substring style (lower filename)) /\
    exists style,
      style = random_choice (randbelow rnd) styles "warli" /\
      In style styles /\
      result = [("predicted_style", VStr style);
                ("confidence_score", VFloat 0.72);
                ("style_scores", VScores [(style, 0.72)]);
                ("model_version", VStr "random-fallback-v1");
                ("dataset_counts", VCounts (style_counts self))])) /\
  (forall image,
     Image_open data = Some image ->
     extract_histograms image = None ->
     (forall u v, cosine_similarity u v <> None) ->
     style_counts self <> [] ->
     let result := classify_image self data filename rnd in
     exists style_scores,
       score_styles self (random_features rnd) filename styles [] = Some style_scores /\
       dict_get result "style_scores" = Some (VScores style_scores) /\
       model_version result = Some "dataset-comparison-v1").
Proof.
  split.
  - intros Hopen. cbv zeta.
    unfold classify_image, classify_main, compare_with_dataset. rewrite Hopen.
    destruct (classify_fallback_cases self filename rnd)
      as [(style & pre & post & Hst & Hsub & Hfirst & ->)|[Hnone ->]].
    + left. exists style, pre, post. repeat split; assumption.
    + right. split; [exact Hnone|]. eexists. split; [reflexivity|].
      split; [apply random_choice_styles | reflexivity].
  - intros image Hopen Hfail Hcos Hcounts. cbv zeta.
    destruct (classify_main_total self data filename rnd Hopen Hcos Hcounts)
      as (result & Hmain & Hversion).
    unfold classify_image. rewrite Hmain.
    destruct (classify_main_inv _ _ _ _ Hmain) as (scores & best & conf & Hcmp & Hcal).
    destruct (compare_with_dataset_inv _ _ _ _ Hcmp) as (image' & Hopen' & Hscores & _).
    rewrite Hopen in Hopen'. injection Hopen' as <-.
    unfold _extract_features in Hscores. rewrite Hfail in Hscores.
    apply calibrate_inv in Hcal as (style & c & -> & _).
    exists scores. split; [exact Hscores|]. split; reflexivity.
Qed.

End Totality.


(** *** Concrete runs *)

Section Runs.
Import Runs.

(** C1 fails as stated: a query whose similarities and filename scores are all 0
    is assigned the style with the largest count, with confidence 0.9 and
    not 0.75. *)
Lemma low_score_confidence_is_boosted :
  exists style_scores confidence c,
    compare_with_dataset classifier three_bytes "photo.jpg" draws
      = Some (style_scores, "warli", confidence) /\
    confidence < 0.5 /\
    predicted_style (classify_image classifier three_bytes "photo.jpg" draws) = Some "warli" /\
    confidence_score (classify_image classifier three_bytes "photo.jpg" draws) = Some c /\
    c == 0.9 /\ ~ c == 0.75.
Proof.
  do 3 eexists. split; [vm_compute; reflexivity|].
  split; [reflexivity|]. split; [reflexivity|]. split; [vm_compute; reflexivity|].
  split; [reflexivity | discriminate].
Qed.

Lemma low_score_override_witness :
  exists style_by_count c,
    predicted_style (classify_image classifier three_bytes "photo.jpg" draws)
      = Some style_by_count /\
    confidence_score (classify_image classifier three_bytes "photo.jpg" draws) = Some c /\
    c == 0.9.
Proof.
  destruct (@low_score_override dataset_runtime classifier three_bytes "photo.jpg" draws
              [("warli", 0 * 0.7 + 0 * 0.3); ("madhubani", 0 * 0.7 + 0 * 0.3);
               ("pithora", 0 * 0.7 + 0 * 0.3)] "warli" (0 * 0.7 + 0 * 0.3))
    as (style & n & pre & post & c & Hp & _ & _ & _ & Hc & Hv & _).
  - reflexivity.
  - reflexivity.
  - discriminate.
  - exists style, c. auto.
Defined.

(** C2 fails as stated: empty input does not decode, and the call returns
    an ordinary result for the style named in the filename. *)
Lemma undecodable_input_is_classified :
  @Image_open dataset_runtime [] = None /\
  classify_image classifier [] "my_warli_art.jpg" draws =
    [("predicted_style", VStr "warli");
     ("confidence_score", VFloat 0.85);
     ("style_scores", VScores [("warli", 0.85)]);
     ("model_version", VStr "fallback-filename-v1");
     ("dataset_counts", VCounts [("warli", 95%nat); ("madhubani", 95%nat); ("pithora", 14%nat)])].
Proof.
  split; reflexivity.
Qed.

Lemma undecodable_input_falls_back_witness :
  ((exists style earlier later,
      styles = (earlier ++ style :: later)%list /\
      Substring style (lower "scan_0042.png") /\
      (forall other, In other earlier -> ~ Substring other (lower "scan_0042.png")) /\
      classify_image classifier [] "scan_0042.png" draws =
        [("predicted_style", VStr style);
         ("confidence_score", VFloat 0.85);
         ("style_scores", VScores [(style, 0.85)]);
         ("model_version", VStr "fallback-filename-v1");
         ("dataset_counts", VCounts (style_counts classifier))]) \/
   ((forall style, In style styles -> ~ Substring style (lower "scan_0042.png")) /\
    exists style,
      style = random_choice (randbelow draws) styles "warli" /\
      In style styles /\
      classify_image classifier [] "scan_0042.png" draws =
        [("predicted_style", VStr style);
         ("confidence_score", VFloat 0.72);
         ("style_scores", VScores [(style, 0.72)]);
         ("model_version", VStr "random-fallback-v1");
         ("dataset_counts", VCounts (style_counts classifier))])) /\
  (exists style_scores,
     score_styles failing_classifier (random_features failing_draws) "scan_0042.png" styles []
       = Some style_scores /\
     dict_get (classify_image failing_classifier one_byte "scan_0042.png" failing_draws)
              "style_scores" = Some (VScores style_scores) /\
     model_version (classify_image failing_classifier one_byte "scan_0042.png" failing_draws)
       = Some "dataset-comparison-v1").
Proof.
  split.
  - apply (proj1 (@undecodable_input_falls_back dataset_runtime classifier []
                    "scan_0042.png" draws)).
    reflexivity.
  - apply (proj2 (@undecodable_input_falls_back failing_extraction failing_classifier
                    one_byte "scan_0042.png" failing_draws) 1%nat).
    + reflexivity.
    + reflexivity.
    + intros u v. discriminate.
    + discriminate.
Defined.

Lemma combined_score_and_argmax_witness :
  exists style_scores confidence sims base_similarity,
    compare_with_dataset classifier two_bytes "photo.jpg" draws
      = Some (style_scores, "warli", confidence) /\
    Forall2 (fun ref_data sim =>
               @cosine_similarity dataset_runtime 2%nat (features ref_data) = Some sim)
            [ {| features := 1%nat : @Features dataset_runtime; ref_filename := "w.jpg" |} ]
            sims /\
    (forall sim, In sim sims -> sim <= base_similarity) /\
    (exists sim, In sim sims /\ sim == base_similarity) /\
    dict_get style_scores "warli" =
      Some (base_similarity * 0.7 + _calculate_filename_similarity "photo.jpg" "warli" * 0.3) /\
    predicted_style (classify_image classifier two_bytes "photo.jpg" draws) = Some "warli".
Proof.
  destruct (compare_with_dataset classifier two_bytes "photo.jpg" draws)
    as [[[style_scores best_style] confidence]|] eqn:Hrun; [|discriminate Hrun].
  assert (Hbest : best_style = "warli") by (injection Hrun as _ <- _; reflexivity).
  assert (Hconf : 0.5 <= confidence)
    by (injection Hrun as _ _ <-; apply Qle_bool_imp_le; reflexivity).
  subst best_style.
  destruct (@combined_score_and_argmax dataset_runtime classifier two_bytes "photo.jpg" draws
              style_scores "warli" confidence Hrun)
    as ((image & Hopen & Hscore) & _ & _ & Hpredicted).
  injection Hopen as <-.
  destruct (Hscore "warli"
              [ {| features := 1%nat : @Features dataset_runtime; ref_filename := "w.jpg" |} ])
    as (sims & base & HF & _ & Hub & Hattained & Hget).
  - simpl. tauto.
  - reflexivity.
  - discriminate.
  - exists style_scores, confidence, sims, base.
    split; [reflexivity|]. split; [exact HF|]. split; [exact Hub|].
    split; [|split; [exact Hget | exact (Hpredicted Hconf)]].
    apply Hattained.
    inversion HF as [|r sim rs sims' Hcos Hrest]; subst.
    exists sim. split; [simpl; tauto|].
    injection Hcos as <-. apply Qle_bool_imp_le. reflexivity.
Defined.

Lemma fallback_order_witness :
  let result := classify_image classifier [] "My_Pithora_scan.PNG" draws in
  (exists style earlier later,
     styles = (earlier ++ style :: later)%list /\
     Substring style (lower "My_Pithora_scan.PNG") /\
     (forall other, In other earlier -> ~ Substring other (lower "My_Pithora_scan.PNG")) /\
     predicted_style result = Some style /\
     confidence_score result = Some 0.85 /\
     model_version result = Some "fallback-filename-v1") \/
  ((forall style, In style styles -> ~ Substring style (lower "My_Pithora_scan.PNG")) /\
   predicted_style result = Some (random_choice (randbelow draws) styles "warli") /\
   In (random_choice (randbelow draws) styles "warli") styles /\
   confidence_score result = Some 0.72 /\
   model_version result = Some "random-fallback-v1").
Proof.
  apply (proj1 (@fallback_order dataset_runtime classifier [] "My_Pithora_scan.PNG" draws)).
  reflexivity.
Defined.

Lemma classify_image_total_witness :
  let self := @init dataset_runtime corpus (fun _ => 7%nat) in
  let result := classify_image self one_byte "photo.jpg" draws in
  dict_keys (style_counts self) = styles /\
  dict_keys result =
    ["predicted_style"; "confidence_score"; "style_scores"; "model_version"; "dataset_counts"] /\
  (exists style, predicted_style result = Some style /\ In style styles) /\
  (exists c, confidence_score result = Some c /\ 0.65 <= c).
Proof.
  split; [reflexivity|].
  apply (@classify_image_total dataset_runtime). reflexivity.
Defined.

End Runs.


End DatasetClassifierSpec.

(** ** The embedding classifier *)

Module EmbeddingClassifierSpec.
Import Py PyFacts EmbeddingClassifier.
Local Close Scope Q_scope.
Local Open Scope string_scope.

(** *** [sorted(set(labels))] *)

Lemma str_ltb_lt (a b : string) : String.ltb a b = true <-> String_as_OT.lt a b.
Proof.
  unfold String.ltb. rewrite <- String_as_OT.cmp_lt. unfold String_as_OT.cmp.
  destruct (a ?= b); split; congruence.
Qed.

Lemma str_ltb_trans (a b c : string) :
  String.ltb a b = true -> String.ltb b c = true -> String.ltb a c = true.
Proof. rewrite !str_ltb_lt. apply String_as_OT.lt_trans. Qed.

Lemma leb_ltb (a b : string) : String.leb a b = true <-> a = b \/ String.ltb a b = true.
Proof.
  unfold String.leb, String.ltb. destruct (a ?= b) eqn:E.
  - apply String.compare_eq_iff in E. tauto.
  - tauto.
  - split; [discriminate|]. intros [->|H]; [|discriminate].
    pose proof (proj2 (String_as_OT.cmp_eq b b) eq_refl) as H0.
    unfold String_as_OT.cmp in H0. congruence.
Qed.

Lemma not_leb_ltb (a b : string) : String.leb a b = false -> String.ltb b a = true.
Proof.
  unfold String.leb, String.ltb. rewrite (String.compare_antisym b a).
  destruct (a ?= b); simpl; congruence.
Qed.

Lemma insert_sorted_In (x y : string) (l : list string) :
  In y (insert_sorted x l) <-> y = x \/ In y l.
Proof.
  induction l as [|z l IH]; simpl.
  - intuition.
  - destruct (String.leb x z); simpl; [intuition|]. rewrite IH. intuition.
Qed.

Lemma sorted_In (y : string) (l : list string) : In y (sorted l) <-> In y l.
Proof.
  induction l as [|x l IH]; simpl; [tauto|].
  rewrite insert_sorted_In, IH. intuition.
Qed.


Lemma insert_sorted_increasing (x : string) (l : list string) :
  increasing l -> ~ In x l -> increasing (insert_sorted x l).
Proof.
  unfold increasing. induction l as [|z l IH]; intros Hs Hx; simpl.
  - repeat constructor.
  - inversion Hs as [|? ? Hs' Hz]; subst.
    assert (Hxz : x <> z) by (intros ->; apply Hx; now left).
    destruct (String.leb x z) eqn:E.
    + apply leb_ltb in E as [E|E]; [contradiction|].
      constructor; [exact Hs|]. constructor; [exact E|].
      rewrite Forall_forall in *. intros w Hw. exact (str_ltb_trans _ _ _ E (Hz w Hw)).
    + apply not_leb_ltb in E. constructor.
      * apply IH; [exact Hs'|]. intros H. apply Hx. now right.
      * rewrite Forall_forall in *. intros w Hw.
        apply insert_sorted_In in Hw as [->|Hw]; [exact E | now apply Hz].
Qed.

Lemma sorted_increasing (l : list string) : NoDup l -> increasing (sorted l).
Proof.
  induction 1 as [|x l Hx Hnd IH]; simpl.
  - constructor.
  - apply insert_sorted_increasing; [exact IH|]. now rewrite sorted_In.
Qed.

Lemma labs_increasing (l : list string) : increasing (sorted (set_of l)).
Proof. apply sorted_increasing, NoDup_nodup. Qed.

Lemma labs_In (y : string) (l : list string) : In y (sorted (set_of l)) <-> In y l.
Proof. unfold set_of. now rewrite sorted_In, nodup_In. Qed.

(** *** Class indices *)

Lemma dict_append_get {V} (d : dict (list V)) (k k' : string) (x : V) :
  dict_get (dict_append d k x) k' =
  if String.eqb k' k
  then Some (match dict_get d k with Some xs => xs ++ [x] | None => [x] end)%list
  else dict_get d k'.
Proof.
  induction d as [|[k0 xs] d IH]; simpl.
  - now destruct (String.eqb k' k).
  - destruct (String.eqb_spec k k0) as [->|Hne]; simpl.
    + destruct (String.eqb_spec k' k0) as [->|Hne']; [reflexivity|].
      reflexivity.
    + destruct (String.eqb_spec k' k0) as [->|Hne'].
      * destruct (String.eqb_spec k0 k) as [->|_]; [congruence | reflexivity].
      * exact IH.
Qed.

Lemma index_labels_bound (labs : list string) : forall idx acc,
  (forall lab idxs, dict_get acc lab = Some idxs -> Forall (fun i => i < idx) idxs) ->
  forall lab idxs,
    dict_get (index_labels labs idx acc) lab = Some idxs ->
    Forall (fun i => i < idx + List.length labs) idxs.
Proof.
  induction labs as [|l labs IH]; intros idx acc Hacc lab idxs; simpl.
  - rewrite Nat.add_0_r. apply Hacc.
  - intros H. replace (idx + S (List.length labs)) with (S idx + List.length labs) by lia.
    revert lab idxs H. apply IH.
    intros lab idxs. rewrite dict_append_get.
    destruct (String.eqb lab l).
    + intros H. injection H as <-.
      destruct (dict_get acc l) as [xs|] eqn:E.
      * apply Forall_app. split.
        -- apply Forall_impl with (P := fun i => i < idx); [lia | now apply (Hacc l)].
        -- repeat constructor.
      * repeat constructor.
    + intros H. apply Forall_impl with (P := fun i => i < idx); [lia | now apply (Hacc lab)].
Qed.

Lemma rebuild_bound (labs : list string) (lab : string) (idxs : list nat) :
  dict_get (index_labels labs 0 []) lab = Some idxs ->
  Forall (fun i => i < List.length labs) idxs.
Proof.
  apply (@index_labels_bound labs 0 []). intros ? ? H. discriminate.
Qed.

(** *** Shapes *)

Local Open Scope R_scope.

Lemma vadd_length (d : nat) (u : vec) : forall v,
  List.length u = d -> List.length v = d -> List.length (vadd u v) = d.
Proof.
  revert d. induction u as [|x u IH]; intros d [|y v] Hu Hv; simpl in *; try congruence.
  destruct d; [discriminate|]. f_equal. apply IH; congruence.
Qed.

Lemma fold_vadd_length (d : nat) (rest : list vec) : forall r,
  List.length r = d -> Forall (fun r' => List.length r' = d) rest ->
  List.length (fold_left vadd rest r) = d.
Proof.
  induction rest as [|r' rest IH]; intros r Hr Hrest; simpl; [exact Hr|].
  inversion Hrest; subst. apply IH; [|assumption]. now apply vadd_length.
Qed.

Lemma mean_axis0_length (d : nat) (rows : list vec) :
  rows <> [] -> Forall (fun r => List.length r = d) rows ->
  List.length (mean_axis0 rows) = d.
Proof.
  destruct rows as [|r rest]; [congruence|]. intros _ H. inversion H; subst.
  unfold mean_axis0. rewrite length_map. now apply fold_vadd_length.
Qed.

Lemma try_map_total {A B} (f : A -> option B) (P : B -> Prop) (l : list A) :
  (forall x, In x l -> exists y, f x = Some y /\ P y) ->
  exists ys, try_map f l = Some ys /\ List.length ys = List.length l /\ Forall P ys.
Proof.
  induction l as [|x l IH]; intros H; simpl.
  - exists []. repeat split. constructor.
  - destruct (H x (or_introl eq_refl)) as (y & -> & Hy).
    destruct IH as (ys & -> & Hlen & HP); [intros z Hz; apply H; now right|].
    exists (y :: ys). repeat split; [simpl; now rewrite Hlen | now constructor].
Qed.

Lemma centroid_total (d : nat) (E : list vec) (idxs : list nat) :
  E <> [] ->
  Forall (fun r => List.length r = d) E ->
  Forall (fun i => (i < List.length E)%nat) idxs ->
  exists c, centroid E idxs = Some c /\ List.length c = d.
Proof.
  intros HE Hrows Hidx. unfold centroid. destruct idxs as [|i idxs].
  - destruct E as [|row E]; [congruence|]. simpl.
    exists (zeros_like row). split; [reflexivity|].
    unfold zeros_like. rewrite length_map. now inversion Hrows.
  - destruct (@try_map_total _ _ (nth_error E) (fun r => List.length r = d) (i :: idxs))
      as (rows & -> & Hlen & Hd).
    + intros j Hj. rewrite Forall_forall in Hidx, Hrows.
      destruct (nth_error E j) as [r|] eqn:Er.
      * exists r. split; [reflexivity|]. apply Hrows. exact (nth_error_In _ _ Er).
      * apply nth_error_None in Er. specialize (Hidx j Hj). lia.
    + eexists. split; [reflexivity|]. rewrite length_map.
      apply mean_axis0_length; [|exact Hd]. destruct rows; [discriminate | congruence].
Qed.

Lemma vstack_total (d : nat) (rows : list vec) :
  rows <> [] -> Forall (fun r => List.length r = d) rows -> vstack rows = Some rows.
Proof.
  destruct rows as [|r rest]; [congruence|]. intros _ H. inversion H as [|? ? Hr Hrest]; subst.
  unfold vstack.
  replace (forallb _ rest) with true; [reflexivity|]. symmetry.
  apply forallb_forall. intros r' Hr'. rewrite Forall_forall in Hrest.
  apply Nat.eqb_eq. now apply Hrest.
Qed.

Lemma matvec_total (d : nat) (M : list vec) (v : vec) :
  Forall (fun r => List.length r = d) M -> List.length v = d ->
  exists logits, matvec M v = Some logits /\ List.length logits = List.length M.
Proof.
  intros HM Hv. unfold matvec.
  replace (forallb _ M) with true.
  - eexists. split; [reflexivity|]. now rewrite length_map.
  - symmetry. apply forallb_forall. intros r Hr. rewrite Forall_forall in HM.
    apply Nat.eqb_eq. rewrite Hv. now apply HM.
Qed.

(** *** The soft-max *)

Lemma vsum_pos (l : list R) : l <> [] -> Forall (fun x => 0 < x) l -> 0 < vsum l.
Proof.
  induction l as [|x l IH]; [congruence|]. intros _ H. inversion H; subst.
  simpl. destruct l as [|y l].
  - simpl. lra.
  - assert (0 < vsum (y :: l)) by (apply IH; [discriminate | assumption]). lra.
Qed.

Lemma vsum_scale (s : R) (l : list R) : vsum (map (fun e => e / s) l) = vsum l / s.
Proof.
  induction l as [|x l IH]; simpl.
  - unfold Rdiv. ring.
  - rewrite IH. unfold Rdiv. ring.
Qed.

Lemma exps_pos (m : R) (logits : list R) :
  Forall (fun x => 0 < x) (map (fun l => exp ((l - m) / temp)) logits).
Proof.
  apply Forall_forall. intros x Hx. apply in_map_iff in Hx as (l & <- & _). apply exp_pos.
Qed.

Lemma exps_sum_pos (logits : list R) :
  logits <> [] -> 0 < vsum (map (fun l => exp ((l - amax logits) / temp)) logits).
Proof.
  intros H. apply vsum_pos; [|apply exps_pos]. destruct logits; [congruence | discriminate].
Qed.

Lemma softmax_distribution (logits : list R) :
  logits <> [] ->
  List.length (softmax logits) = List.length logits /\
  Forall (fun p => 0 <= p) (softmax logits) /\
  vsum (softmax logits) = 1.
Proof.
  intros H. pose proof (exps_sum_pos H) as Hpos. unfold softmax.
  split; [now rewrite !length_map|]. split.
  - apply Forall_forall. intros p Hp. apply in_map_iff in Hp as (e & <- & He).
    pose proof (exps_pos (amax logits) logits) as Hall. rewrite Forall_forall in Hall.
    specialize (Hall e He). apply Rlt_le. now apply Rdiv_lt_0_compat.
  - rewrite vsum_scale. field. lra.
Qed.

Lemma norm_divisor_pos (c : vec) : 0 < norm c + 1e-9.
Proof.
  unfold norm. pose proof (sqrt_pos (vsum (map (fun x => x * x) c))). lra.
Qed.

(** *** [np.argmax] *)

Lemma argmax_from_spec (l : list R) : forall best_idx best idx,
  let k := argmax_from best_idx best idx l in
  (k = best_idx /\ Forall (fun x => x <= best) l) \/
  ((idx <= k)%nat /\
   exists v, nth_error l (k - idx) = Some v /\ best < v /\
             Forall (fun x => x <= v) l /\
             forall j w, (j < k - idx)%nat -> nth_error l j = Some w -> w < v).
Proof.
  induction l as [|x l IH]; intros best_idx best idx; simpl.
  - left. split; [reflexivity | constructor].
  - destruct (Rlt_dec best x) as [Hlt|Hge].
    + right. destruct (IH idx x (S idx)) as [[Hk Hall]|(Hk & v & Hv & Hxv & Hall & Hfirst)].
      * rewrite Hk. split; [lia|]. exists x. rewrite Nat.sub_diag. simpl.
        split; [reflexivity|]. split; [exact Hlt|]. split.
        -- constructor; [lra | exact Hall].
        -- intros j w Hj. lia.
      * split; [lia|]. exists v.
        replace (argmax_from idx x (S idx) l - idx)%nat
          with (S (argmax_from idx x (S idx) l - S idx)) by lia.
        simpl. split; [exact Hv|]. split; [lra|]. split.
        -- constructor; [lra | exact Hall].
        -- intros [|j] w Hj Hw; simpl in Hw.
           ++ injection Hw as <-. exact Hxv.
           ++ apply (Hfirst j); [lia | exact Hw].
    + destruct (IH best_idx best (S idx)) as [[Hk Hall]|(Hk & v & Hv & Hbv & Hall & Hfirst)].
      * left. split; [exact Hk|]. constructor; [lra | exact Hall].
      * right. split; [lia|]. exists v.
        replace (argmax_from best_idx best (S idx) l - idx)%nat
          with (S (argmax_from best_idx best (S idx) l - S idx)) by lia.
        simpl. split; [exact Hv|]. split; [exact Hbv|]. split.
        -- constructor; [lra | exact Hall].
        -- intros [|j] w Hj Hw; simpl in Hw.
           ++ injection Hw as <-. lra.
           ++ apply (Hfirst j); [lia | exact Hw].
Qed.

Lemma argmax_spec (l : list R) :
  l <> [] ->
  exists v,
    nth_error l (argmax l) = Some v /\
    Forall (fun x => x <= v) l /\
    forall j w, (j < argmax l)%nat -> nth_error l j = Some w -> w < v.
Proof.
  destruct l as [|x l]; [congruence|]. intros _. unfold argmax.
  destruct (argmax_from_spec l 0 x 1) as [[Hk Hall]|(Hk & v & Hv & Hxv & Hall & Hfirst)].
  - rewrite Hk. exists x. split; [reflexivity|]. split.
    + constructor; [lra | exact Hall].
    + intros j w Hj. lia.
  - exists v.
    replace (argmax_from 0 x 1 l) with (S (argmax_from 0 x 1 l - 1)) at 1 by lia.
    simpl. split; [exact Hv|]. split.
    + constructor; [lra | exact Hall].
    + intros [|j] w Hj Hw; simpl in Hw.
      * injection Hw as <-. exact Hxv.
      * apply (Hfirst j); [lia | exact Hw].
Qed.

Lemma increasing_nth (l : list string) : increasing l ->
  forall i j a b, (i < j)%nat -> nth_error l i = Some a -> nth_error l j = Some b ->
                  String.ltb a b = true.
Proof.
  unfold increasing. induction 1 as [|x l Hs IH Hx]; intros i j a b Hij Ha Hb.
  - destruct i; discriminate.
  - destruct j as [|j]; [lia|]. simpl in Hb. destruct i as [|i]; simpl in Ha.
    + injection Ha as <-. rewrite Forall_forall in Hx. apply Hx.
      exact (nth_error_In _ _ Hb).
    + apply (IH i j); [lia | assumption | assumption].
Qed.

Lemma In_combine_nth {A B} (l : list A) : forall (l' : list B) a b,
  In (a, b) (combine l l') ->
  exists j, nth_error l j = Some a /\ nth_error l' j = Some b.
Proof.
  induction l as [|x l IH]; intros [|y l'] a b H; simpl in H; try contradiction.
  destruct H as [H|H].
  - injection H as <- <-. now exists 0%nat.
  - destruct (IH _ _ _ H) as (j & Ha & Hb). now exists (S j).
Qed.

Lemma nth_combine {A B} (l : list A) : forall (l' : list B) j a b,
  nth_error l j = Some a -> nth_error l' j = Some b -> In (a, b) (combine l l').
Proof.
  induction l as [|x l IH]; intros [|y l'] [|j] a b Ha Hb; simpl in *; try discriminate.
  - injection Ha as <-. injection Hb as <-. now left.
  - right. now apply (IH l' j).
Qed.

(** *** The scorer *)

Lemma centroid_scores_total (self : t) (emb : vec) (d : nat) :
  well_shaped self d -> List.length emb = d ->
  exists logits,
    logits <> [] /\
    List.length logits = List.length (sorted (set_of (labels self))) /\
    centroid_scores self emb = Some (sorted (set_of (labels self)), softmax logits).
Proof.
  intros (E & HE & Hne & Hlabs & Hrows & Hidx) Hemb.
  unfold centroid_scores. rewrite HE.
  set (labs := sorted (set_of (labels self))).
  assert (Hlabs' : labs <> []).
  { destruct (labels self) as [|l0 ls] eqn:El; [congruence|].
    assert (Hin : In l0 labs) by (apply labs_In; now left).
    intros H0. rewrite H0 in Hin. contradiction. }
  destruct (@try_map_total _ _ (fun lab => centroid E (indices_of self lab))
              (fun c => List.length c = d) labs) as (centroids & -> & Hlen & Hd).
  { intros lab _. apply centroid_total; [exact Hne | exact Hrows|].
    unfold indices_of. destruct (dict_get (class_to_indices self) lab) as [idxs|] eqn:Ei.
    - exact (Hidx _ _ Ei).
    - constructor. }
  assert (Hc : centroids <> []).
  { destruct centroids; [|discriminate]. destruct labs; [congruence | discriminate]. }
  rewrite (vstack_total Hc Hd).
  destruct (matvec_total emb Hd Hemb) as (logits & -> & Hll).
  exists logits. split; [|split; [congruence | reflexivity]].
  destruct logits; [|discriminate]. destruct centroids; [congruence | discriminate].
Qed.

Section Scorer.
Context {RT : Runtime}.

(** C6. On a well-shaped index the scorer returns one probability per
    label, in the sorted order of the labels; the probabilities are not
    negative and their sum is 1.  A label without samples gets the zero
    vector as its centroid, and the two divisors of the scorer, the norm plus
    1e-9 and the sum of the exponentials, are positive. *)
Theorem centroid_scores_distribution (self : t) (emb : vec) (d : nat) :
  well_shaped self d -> List.length emb = d ->
  (exists probs,
     centroid_scores self emb = Some (sorted (set_of (labels self)), probs) /\
     List.length probs = List.length (sorted (set_of (labels self))) /\
     Forall (fun p => 0 <= p) probs /\
     vsum probs = 1) /\
  (forall E row, nth_error E 0 = Some row ->
     centroid E [] = Some (zeros_like row) /\
     Forall (fun x => x = 0) (zeros_like row)) /\
  (forall c, 0 < norm c + 1e-9) /\
  (forall logits, logits <> [] ->
     0 < vsum (map (fun l => exp ((l - amax logits) / temp)) logits)).
Proof.
  intros Hws Hemb. split; [|split; [|split]].
  - destruct (@centroid_scores_total self emb d Hws Hemb) as (logits & Hne & Hlen & Hscores).
    destruct (@softmax_distribution logits Hne) as (Hl & Hpos & Hsum).
    exists (softmax logits). split; [exact Hscores|].
    split; [congruence|]. split; assumption.
  - intros E row Hrow. unfold centroid. rewrite Hrow. split; [reflexivity|].
    unfold zeros_like. apply Forall_forall. intros x Hx.
    apply in_map_iff in Hx as (? & <- & _). reflexivity.
  - apply norm_divisor_pos.
  - apply exps_sum_pos.
Qed.

(** C7. The predicted label is the label at the first index of the largest
    probability and the confidence is that probability: no label has a
    larger one, and every other label with an equal one is greater in the
    order of strings. *)
Theorem argmax_lowest_label (self : t) (image_bytes : list Byte.byte) (img : Image)
        (emb : vec) (d : nat) :
  well_shaped self d ->
  Image_open image_bytes = Some img ->
  _embed_image img = Some emb ->
  List.length emb = d ->
  exists result predicted confidence labs probs,
    score self image_bytes = Some result /\
    centroid_scores self emb = Some (labs, probs) /\
    dict_get result "predicted_style" = Some (VStr predicted) /\
    dict_get result "confidence_score" = Some (VFloat confidence) /\
    dict_get result "all_predictions" = Some (VPredictions (combine labs probs)) /\
    In (predicted, confidence) (combine labs probs) /\
    forall lab prob,
      In (lab, prob) (combine labs probs) ->
      prob <= confidence /\
      (prob = confidence -> lab = predicted \/ String.ltb predicted lab = true).
Proof.
  intros Hws Himg Hemb Hd.
  destruct (@centroid_scores_total self emb d Hws Hd) as (logits & Hne & Hlen & Hscores).
  destruct (@softmax_distribution logits Hne) as (Hl & _ & _).
  set (labs := sorted (set_of (labels self))) in *.
  set (probs := softmax logits) in *.
  assert (Hprobs : probs <> []).
  { intros H0. rewrite H0 in Hl. destruct logits; [congruence | discriminate]. }
  destruct (@argmax_spec probs Hprobs) as (v & Hv & Hall & Hfirst).
  assert (Hk : (argmax probs < List.length labs)%nat).
  { rewrite <- Hlen, <- Hl. apply nth_error_Some. congruence. }
  destruct (nth_error labs (argmax probs)) as [predicted|] eqn:Hp;
    [|apply nth_error_None in Hp; lia].
  exists [("predicted_style", VStr predicted);
          ("confidence_score", VFloat v);
          ("all_predictions", VPredictions (combine labs probs));
          ("method", VStr (if TF_AVAILABLE then "mobilenetv2-embeddings-knn"
                           else "cvhsv-embeddings-knn"))],
         predicted, v, labs, probs.
  split.
  { unfold score. rewrite Himg, Hemb, Hscores. fold labs probs. now rewrite Hp, Hv. }
  split; [exact Hscores|]. split; [reflexivity|]. split; [reflexivity|].
  split; [reflexivity|]. split; [exact (@nth_combine _ _ labs probs _ _ _ Hp Hv)|].
  intros lab prob Hin. destruct (@In_combine_nth _ _ labs probs lab prob Hin) as (j & Hj & Hpj).
  rewrite Forall_forall in Hall. split; [apply Hall; exact (nth_error_In _ _ Hpj)|].
  intros Heq. destruct (lt_eq_lt_dec j (argmax probs)) as [[Hlt|Heq']|Hgt].
  - pose proof (Hfirst j prob Hlt Hpj). lra.
  - left. subst j. congruence.
  - right. exact (@increasing_nth labs (labs_increasing (labels self)) _ _ _ _ Hgt Hp Hj).
Qed.

End Scorer.

(** *** Loading and building the index *)

Lemma vstack_inv (rows stacked : list vec) :
  vstack rows = Some stacked ->
  stacked = rows /\ rows <> [] /\
  exists d, Forall (fun r => List.length r = d) rows.
Proof.
  unfold vstack. destruct rows as [|r rest]; [discriminate|].
  match goal with |- context [forallb ?f rest] => destruct (forallb f rest) eqn:E end;
    [|discriminate].
  intros H. injection H as <-. split; [reflexivity|]. split; [discriminate|].
  exists (List.length r). constructor; [reflexivity|].
  apply Forall_forall. intros r' Hr'.
  rewrite forallb_forall in E. apply Nat.eqb_eq. now apply E.
Qed.

Section Index.
Context {RT : Runtime}.

(** A build does not read the arrays of the object it is given. *)
Lemma build_index_method (n : nat) (self self' : t) :
  method self = method self' -> build_index n self = build_index n self'.
Proof.
  intros H. unfold build_index.
  destruct _iter_dataset_images as [|item items]; [reflexivity|].
  destruct (embed_classes n _) as [|row rows]; [reflexivity|].
  destruct (vstack _) as [stacked|]; [|reflexivity].
  cbn. now rewrite H.
Qed.

(** The index a build leaves is well shaped and carries the active method. *)
Lemma build_index_well_shaped (n : nat) (self built : t) (disk' : Disk) :
  build_index n self = Some (built, disk') ->
  (exists d, well_shaped built d) /\
  loaded built = true /\
  method built = method self /\
  (exists E, embeddings built = Some E /\
             index_file disk' = Stored {| npz_embeddings := Some E;
                                          npz_labels := None |}) /\
  (exists meta, meta_file disk' = Stored meta /\ meta_method meta = Some (method self)).
Proof.
  unfold build_index.
  destruct _iter_dataset_images as [|item items]; [discriminate|].
  destruct (embed_classes n _) as [|row rows] eqn:Hrows; [discriminate|].
  destruct (vstack _) as [stacked|] eqn:Hst; [|discriminate].
  intros H. injection H as <- <-.
  apply vstack_inv in Hst as (-> & Hne & d & Hd).
  unfold well_shaped, _rebuild_class_indices.
  cbn [embeddings labels class_to_indices loaded method index_file meta_file meta_method].
  split; [|split; [reflexivity|split; [reflexivity|split]]].
  - exists d. eexists. split; [reflexivity|]. split; [exact Hne|].
    split; [discriminate|]. split; [exact Hd|].
    intros lab idxs Hget.
    apply (@rebuild_bound (map snd (row :: rows)) lab idxs) in Hget.
    simpl in *. rewrite !length_map in *. exact Hget.
  - eexists. split; reflexivity.
  - eexists. split; reflexivity.
Qed.

(** A load that reaches a differing tag, or fails before, is a miss and
    touches neither the method nor the loaded flag. *)
Lemma try_load_mismatch (self : t) (disk : Disk) (meta : Meta) :
  meta_file disk = Stored meta ->
  meta_method meta <> Some (method self) ->
  snd (try_load self disk) = false /\
  method (fst (try_load self disk)) = method self /\
  loaded (fst (try_load self disk)) = loaded self.
Proof.
  intros Hm Hne. unfold try_load. rewrite Hm.
  assert (Hmatch : method_matches (meta_method meta) (method self) = false).
  { unfold method_matches. destruct (meta_method meta) as [m|]; [|reflexivity].
    destruct (String.eqb_spec m (method self)) as [->|]; congruence. }
  rewrite Hmatch.
  destruct (index_file disk) as [| |data]; try (repeat split; reflexivity).
  destruct (npz_embeddings data); [|repeat split; reflexivity].
  destruct (npz_labels data); repeat split; reflexivity.
Qed.

(** C3. When the method recorded with a stored index differs from the
    active one, or is missing, the load is a miss, although the stored arrays
    are in the object by then, and the index is built anew: the call ends as
    the build over the dataset ends, and a build reads nothing of the stored
    arrays.  A classification by an object that has no index loaded answers
    as if no index had been stored, and the object and the disk it leaves
    behind after a build are the same as well. *)
Theorem method_mismatch_rebuilds (self : t) (disk : Disk) (meta : Meta) :
  meta_file disk = Stored meta ->
  meta_method meta <> Some (method self) ->
  snd (try_load self disk) = false /\
  (forall stale_embeddings stale_labels,
     index_file disk = Stored {| npz_embeddings := Some stale_embeddings;
                                 npz_labels := Some stale_labels |} ->
     embeddings (fst (try_load self disk)) = Some stale_embeddings /\
     labels (fst (try_load self disk)) = stale_labels) /\
  (forall n,
     _load_or_build_index n self disk =
     match build_index n self with
     | Some (built, disk') => (built, disk', true)
     | None => (fst (try_load self disk), disk, false)
     end) /\
  (loaded self = false ->
   forall image_bytes,
     let '(result, self', disk') := classify self disk image_bytes in
     let '(result0, self0, disk0) :=
       classify self {| index_file := Absent; meta_file := Absent |} image_bytes in
     result = result0 /\
     (loaded self' = true -> self' = self0 /\ disk' = disk0)).
Proof.
  intros Hm Hne.
  destruct (try_load_mismatch self disk Hm Hne) as (Hmiss & Hmethod & Hflag).
  assert (Hbuild : forall n,
    _load_or_build_index n self disk =
    match build_index n self with
    | Some (built, disk') => (built, disk', true)
    | None => (fst (try_load self disk), disk, false)
    end).
  { intros n. unfold _load_or_build_index.
    destruct (try_load self disk) as [self1 ok]. cbn [fst snd] in *. subst ok.
    rewrite (@build_index_method n self1 self Hmethod). reflexivity. }
  split; [exact Hmiss|]. split; [|split; [exact Hbuild|]].
  - intros stale_embeddings stale_labels Hi. unfold try_load. rewrite Hi, Hm. cbn.
    destruct (method_matches (meta_method meta) (method self)) eqn:E; [|split; reflexivity].
    exfalso. unfold method_matches in E. destruct (meta_method meta) as [m|]; [|discriminate].
    apply String.eqb_eq in E. congruence.
  - intros Hloaded image_bytes. unfold classify.
    destruct (negb TF_AVAILABLE && negb CV2_AVAILABLE).
    + split; [reflexivity|]. congruence.
    + rewrite Hloaded. cbn [negb orb]. rewrite Hbuild.
      unfold _load_or_build_index at 1. cbn [try_load index_file].
      destruct (build_index 400 self) as [[built disk']|].
      * split; [reflexivity|]. intros _. split; reflexivity.
      * split; [reflexivity|]. congruence.
Qed.

End Index.

(** *** Concrete runs *)

Section Runs.
Import Runs.

Lemma built_well_shaped : well_shaped built 2.
Proof.
  exists [[1; 0]; [1; 0]; [0; 1]].
  split; [reflexivity|]. split; [discriminate|]. split; [discriminate|].
  split; [repeat constructor|].
  intros lab idxs. unfold built. cbn [class_to_indices dict_get].
  destruct (String.eqb lab "warli").
  - intros H. injection H as <-. repeat constructor.
  - destruct (String.eqb lab "madhubani"); [|discriminate].
    intros H. injection H as <-. repeat constructor.
Defined.

(** The constructor on the stale disk: the load misses and the build over
    the four files of the dataset, one of which does not open, leaves the
    object [built]; nothing of the stored arrays remains. *)
Example rebuild_from_stale_disk :
  @_load_or_build_index embedding_runtime 400 (@fresh embedding_runtime) stale_disk =
  (built,
   {| index_file := Stored {| npz_embeddings := Some [[1; 0]; [1; 0]; [0; 1]];
                              npz_labels := None |};
      meta_file := Stored {| meta_label_names := Some ["madhubani"; "warli"];
                             meta_method := Some "mobilenetv2" |} |},
   true).
Proof. reflexivity. Qed.


Lemma centroid_scores_distribution_witness :
  exists probs,
    centroid_scores built [0; 1] = Some (sorted (set_of (labels built)), probs) /\
    List.length probs = List.length (sorted (set_of (labels built))) /\
    Forall (fun p => 0 <= p) probs /\
    vsum probs = 1.
Proof.
  apply (@centroid_scores_distribution built [0; 1] 2).
  - exact built_well_shaped.
  - reflexivity.
Defined.

Lemma argmax_lowest_label_witness :
  exists result predicted confidence labs probs,
    @score embedding_runtime built upload = Some result /\
    centroid_scores built [0; 1] = Some (labs, probs) /\
    dict_get result "predicted_style" = Some (VStr predicted) /\
    dict_get result "confidence_score" = Some (VFloat confidence) /\
    dict_get result "all_predictions" = Some (VPredictions (combine labs probs)) /\
    In (predicted, confidence) (combine labs probs) /\
    forall lab prob,
      In (lab, prob) (combine labs probs) ->
      prob <= confidence /\
      (prob = confidence -> lab = predicted \/ String.ltb predicted lab = true).
Proof.
  apply (@argmax_lowest_label embedding_runtime built upload "upload" [0; 1] 2).
  - exact built_well_shaped.
  - reflexivity.
  - reflexivity.
  - reflexivity.
Defined.

Lemma method_mismatch_rebuilds_witness :
  snd (try_load (@fresh embedding_runtime) stale_disk) = false.
Proof.
  apply (@method_mismatch_rebuilds embedding_runtime (@fresh embedding_runtime) stale_disk
           {| meta_label_names := Some ["pithora"]; meta_method := Some "cvhsv" |}).
  - reflexivity.
  - discriminate.
Defined.

End Runs.


End EmbeddingClassifierSpec.


(** * Further properties of the code *)

(** ** The numeric part of [_extract_features] *)

Module FeatureExtractionSpec.
Import FeatureExtraction.
Local Open Scope nat_scope.

Lemma histogram16_length (values : list nat) : List.length (histogram16 values) = 16.
Proof. unfold histogram16. now rewrite length_map, length_seq. Qed.

Lemma raw_features_length (img_array : list (list pixel)) (gray_array : list (list nat)) :
  List.length (raw_features img_array gray_array) = 50.
Proof.
  unfold raw_features. rewrite !length_app, !histogram16_length. reflexivity.
Qed.

(** One more value adds one to the bin it falls in. *)
Lemma bins_step (key : nat) (count : nat -> nat) (n : nat) : forall first,
  total (map (fun bin => if key =? bin then S (count bin) else count bin) (seq first n)) =
  total (map count (seq first n)) + (if (first <=? key) && (key <? first + n) then 1 else 0).
Proof.
  induction n as [|n IH]; intros first; simpl.
  - destruct (Nat.leb_spec first key); destruct (Nat.ltb_spec key (first + 0));
      simpl; lia.
  - rewrite IH.
    destruct (Nat.eqb_spec key first) as [->|Hne].
    + replace (S first <=? first) with false by (symmetry; apply Nat.leb_gt; lia).
      replace (first <=? first) with true by (symmetry; apply Nat.leb_le; lia).
      replace (first <? first + S n) with true by (symmetry; apply Nat.ltb_lt; lia).
      simpl. lia.
    + destruct (Nat.leb_spec (S first) key); destruct (Nat.leb_spec first key);
        destruct (Nat.ltb_spec key (S first + n)); destruct (Nat.ltb_spec key (first + S n));
        simpl; lia.
Qed.

Lemma histogram16_total (values : list nat) :
  Forall (fun v => v < 256) values -> total (histogram16 values) = List.length values.
Proof.
  unfold histogram16. induction 1 as [|v values Hv _ IH].
  - reflexivity.
  - rewrite (map_ext
               (fun bin => List.length (filter (fun v0 => v0 / 16 =? bin) (v :: values)))
               (fun bin => if v / 16 =? bin
                           then S (List.length (filter (fun v0 => v0 / 16 =? bin) values))
                           else List.length (filter (fun v0 => v0 / 16 =? bin) values))).
    + rewrite bins_step, IH.
      assert (v / 16 < 16) by (apply Nat.Div0.div_lt_upper_bound; lia).
      replace (0 <=? v / 16) with true by (symmetry; apply Nat.leb_le; lia).
      replace (v / 16 <? 0 + 16) with true by (symmetry; apply Nat.ltb_lt; lia).
      simpl. lia.
    + intros bin. cbn [filter]. now destruct (v / 16 =? bin).
Qed.

Lemma total_app (l l' : list nat) : total (l ++ l') = total l + total l'.
Proof. induction l; simpl; lia. Qed.

Lemma In_le_total (x : nat) (l : list nat) : In x l -> x <= total l.
Proof.
  induction l as [|y l IH]; simpl; [intros []|].
  intros [->|H]; [lia|]. specialize (IH H). lia.
Qed.

Lemma channel_length (component : pixel -> nat) (img_array : list (list pixel)) :
  List.length (channel component img_array) = total (map (@List.length pixel) img_array).
Proof.
  unfold channel. induction img_array as [|row rows IH]; simpl; [reflexivity|].
  now rewrite length_app, length_map, IH.
Qed.

Lemma channel_uint8 (img_array : list (list pixel)) :
  uint8_image img_array ->
  Forall (fun v => v < 256) (channel red img_array) /\
  Forall (fun v => v < 256) (channel green img_array) /\
  Forall (fun v => v < 256) (channel blue img_array).
Proof.
  unfold uint8_image, channel. induction 1 as [|row rows Hrow _ IH]; simpl.
  - repeat split; constructor.
  - destruct IH as (Hr & Hg & Hb).
    repeat split; apply Forall_app; split; try assumption;
      apply Forall_map; eapply Forall_impl; try exact Hrow; simpl; tauto.
Qed.

(** The sum of the raw features: three times the number of pixels and the
    two edge sums. *)
Lemma raw_features_total (img_array : list (list pixel)) (gray_array : list (list nat)) :
  uint8_image img_array ->
  total (raw_features img_array gray_array) =
  3 * total (map (@List.length pixel) img_array) + edges_h gray_array + edges_v gray_array.
Proof.
  intros H. destruct (channel_uint8 H) as (Hr & Hg & Hb).
  unfold raw_features. rewrite !total_app, !histogram16_total by assumption.
  rewrite !channel_length. simpl. lia.
Qed.

Local Open Scope Q_scope.

Lemma of_nat_plus (a b : nat) : of_nat (a + b) == of_nat a + of_nat b.
Proof. unfold of_nat. rewrite Nat2Z.inj_add, inject_Z_plus. reflexivity. Qed.

Lemma Qsum_of_nat (l : list nat) : Qsum (map of_nat l) == of_nat (total l).
Proof.
  induction l as [|x l IH]; simpl; [reflexivity|].
  now rewrite IH, of_nat_plus.
Qed.

Lemma Qsum_scale (s : Q) (l : list nat) :
  Qsum (map (fun x => of_nat x / s) l) == Qsum (map of_nat l) / s.
Proof.
  induction l as [|x l IH]; simpl.
  - unfold Qdiv. ring.
  - rewrite IH. unfold Qdiv. ring.
Qed.

Lemma of_nat_pos (n : nat) : (0 < n)%nat -> 0 < of_nat n.
Proof.
  intros H. unfold of_nat. change 0 with (inject_Z 0). rewrite <- Zlt_Qlt. lia.
Qed.

Lemma of_nat_le (a b : nat) : (a <= b)%nat -> of_nat a <= of_nat b.
Proof. intros H. unfold of_nat. rewrite <- Zle_Qle. lia. Qed.

(** X1. The feature vector has 50 entries for arrays of any size, the
    length of the random vector that stands in when the extraction fails.
    For an image with at least one pixel the entries lie between 0 and 1 and
    their sum is 1. *)
Theorem features_normalised (img_array : list (list pixel)) (gray_array : list (list nat)) :
  List.length (features_of_arrays img_array gray_array) = 50%nat /\
  (uint8_image img_array ->
   (0 < total (map (@List.length pixel) img_array))%nat ->
   Qsum (features_of_arrays img_array gray_array) == 1 /\
   Forall (fun x => 0 <= x /\ x <= 1) (features_of_arrays img_array gray_array)).
Proof.
  split.
  - unfold features_of_arrays.
    destruct (0 <? total (raw_features img_array gray_array))%nat;
      rewrite length_map; apply raw_features_length.
  - intros Hu Hpix. unfold features_of_arrays.
    pose proof (raw_features_total gray_array Hu) as Htot.
    set (features := raw_features img_array gray_array) in *.
    assert (Hpos : (0 < total features)%nat) by lia.
    replace (0 <? total features)%nat with true by (symmetry; now apply Nat.ltb_lt).
    pose proof (of_nat_pos Hpos) as HposQ.
    split.
    + rewrite Qsum_scale, Qsum_of_nat. field. intros H0. rewrite H0 in HposQ.
      exact (Qlt_irrefl _ HposQ).
    + apply Forall_forall. intros y Hy. apply in_map_iff in Hy as (x & <- & Hx).
      split.
      * apply Qle_shift_div_l; [exact HposQ|]. rewrite Qmult_0_l.
        apply (of_nat_le (a := 0)). lia.
      * apply Qle_shift_div_r; [exact HposQ|]. rewrite Qmult_1_l.
        apply of_nat_le. now apply In_le_total.
Qed.

End FeatureExtractionSpec.

(** ** More of the dataset classifier *)

Module DatasetClassifierMore.
Import Py PyFacts DatasetClassifier DatasetClassifierSpec DatasetInvariant.
Local Open Scope string_scope.
Local Open Scope Q_scope.

Lemma dict_get_set {V} (d : dict V) (k k' : string) (v : V) :
  dict_get (dict_set d k v) k' = if String.eqb k' k then Some v else dict_get d k'.
Proof.
  induction d as [|[k0 v0] d IH]; simpl.
  - reflexivity.
  - destruct (String.eqb_spec k k0) as [->|Hne]; simpl.
    + now destruct (String.eqb k' k0).
    + destruct (String.eqb_spec k' k0) as [->|Hne'].
      * destruct (String.eqb_spec k0 k) as [->|_]; [congruence | reflexivity].
      * exact IH.
Qed.

Lemma lower_app (a b : string) : lower (a ++ b) = lower a ++ lower b.
Proof. induction a as [|c a IH]; simpl; [reflexivity | now rewrite IH]. Qed.

Lemma str_in_extend (needle pre hay post : string) :
  str_in needle hay = true -> str_in needle (pre ++ hay ++ post) = true.
Proof.
  rewrite !str_in_spec. intros (p & q & ->). exists (pre ++ p), (q ++ post).
  induction pre as [|c pre IH]; simpl.
  - induction p as [|c p IHp]; simpl.
    + induction needle as [|c n IHn]; simpl; [reflexivity | now rewrite IHn].
    + now rewrite IHp.
  - now rewrite IH.
Qed.

Lemma existsb_extend (kws : list string) (pre hay post : string) :
  existsb (fun keyword => str_in keyword hay) kws = true ->
  existsb (fun keyword => str_in keyword (pre ++ hay ++ post)) kws = true.
Proof.
  rewrite !existsb_exists. intros (kw & Hin & H). exists kw. split; [exact Hin|].
  now apply str_in_extend.
Qed.

(** X2. Text added before or after a filename never lowers a filename
    score, whatever the style. *)
Theorem filename_score_monotone (pre filename post style : string) :
  _calculate_filename_similarity filename style
  <= _calculate_filename_similarity (pre ++ filename ++ post) style.
Proof.
  unfold _calculate_filename_similarity. rewrite !lower_app.
  pose proof (@str_in_extend "warli" (lower pre) (lower filename) (lower post)) as H1.
  pose proof (@str_in_extend "madhubani" (lower pre) (lower filename) (lower post)) as H2.
  pose proof (@str_in_extend "pithora" (lower pre) (lower filename) (lower post)) as H3.
  pose proof (@existsb_extend (keywords_of style) (lower pre) (lower filename) (lower post))
    as H4.
  destruct (String.eqb style "warli"), (String.eqb style "madhubani"),
    (String.eqb style "pithora"); cbn [andb];
    destruct (str_in "warli" (lower filename));
    destruct (str_in "madhubani" (lower filename));
    destruct (str_in "pithora" (lower filename));
    destruct (existsb _ (keywords_of style));
    try rewrite (H1 eq_refl); try rewrite (H2 eq_refl); try rewrite (H3 eq_refl);
    try rewrite (H4 eq_refl);
    repeat match goal with |- context [if ?b then _ else _] => destruct b end;
    discriminate.
Qed.

Section WithRuntime.
Context {RT : Runtime}.

Lemma load_references_length (rand : string -> Features) (paths : list string) :
  (List.length (load_references rand paths) <= List.length paths)%nat.
Proof.
  induction paths as [|p paths IH]; simpl; [lia|].
  destruct (Image_open_path p); simpl; lia.
Qed.

Lemma load_folders_bounded (corpus : string -> Folder) (rand : string -> Features)
      (todo : dict string) : forall self,
  (forall folder style, In (folder, style) todo -> In style styles) ->
  bounded self -> bounded (fst (load_folders corpus rand todo self)).
Proof.
  induction todo as [|[folder style] todo IH]; intros self Htodo Hb; cbn [load_folders].
  - exact Hb.
  - assert (Htodo' : forall f s, In (f, s) todo -> In s styles)
      by (intros f s H; apply (Htodo f s); now right).
    destruct (corpus folder) as [| |image_files].
    + now apply IH.
    + exact Hb.
    + assert (Hfirst : (List.length (firstn 10 image_files) <= List.length image_files)%nat).
      { rewrite length_firstn. lia. }
      assert (Hten : (List.length (firstn 10 image_files) <= 10)%nat).
      { rewrite length_firstn. lia. }
      remember (firstn 10 image_files) as kept eqn:Hkept in *. clear Hkept.
      pose proof (load_references_length rand kept) as Hlen.
      apply IH; [exact Htodo'|].
      intros style' refs. cbn [reference_features style_counts].
      rewrite !dict_get_set. destruct (String.eqb_spec style' style) as [->|Hne].
      * intros H. injection H as <-.
        split; [apply (Htodo folder); now left|].
        split; [lia|]. eexists. split; [reflexivity | lia].
      * intros H. destruct (Hb style' refs H) as (Hin & Hrefs & n & Hn & Hle).
        split; [exact Hin|]. split; [exact Hrefs|]. now exists n.
Qed.

(** X3. However the corpus looks, the constructed object holds at most
    10 references per style, never more than the count it records for that
    style, and only for the three known styles.  *)
Theorem init_reference_bounds (corpus : string -> Folder) (rand : string -> Features)
        (style : string) (refs : list RefData) :
  dict_get (reference_features (init corpus rand)) style = Some refs ->
  In style styles /\
  (List.length refs <= 10)%nat /\
  exists n, dict_get (style_counts (init corpus rand)) style = Some n /\
            (List.length refs <= n)%nat.
Proof.
  unfold init, _load_reference_images.
  pose proof (@load_folders_bounded corpus rand folder_mapping
                {| reference_features := [];
                   style_counts := [("warli", 0%nat); ("madhubani", 0%nat); ("pithora", 0%nat)] |})
    as H.
  destruct (load_folders _ _ _ _) as [self' ok]. cbn [fst] in H.
  assert (Hb : bounded self').
  { apply H.
    - intros folder s [E|[E|[E|[]]]]; injection E as <- <-; simpl; tauto.
    - intros s r Hs. discriminate. }
  destruct ok; [apply Hb|].
  cbn [reference_features style_counts]. intros Hrefs.
  destruct (Hb style refs Hrefs) as (Hin & Hlen & _).
  split; [exact Hin|]. split; [exact Hlen|].
  destruct Hin as [<-|[<-|[<-|[]]]]; eexists; (split; [reflexivity | lia]).
Qed.

Lemma load_folders_unlistable (corpus : string -> Folder) (rand : string -> Features)
      (todo : dict string) : forall self folder style,
  In (folder, style) todo -> corpus folder = Unlistable ->
  snd (load_folders corpus rand todo self) = false.
Proof.
  induction todo as [|[f s] todo IH]; intros self folder style Hin Hun; simpl.
  - destruct Hin.
  - destruct Hin as [E|Hin].
    + injection E as -> ->. now rewrite Hun.
    + destruct (corpus f); [eapply IH; eassumption | reflexivity | eapply IH; eassumption].
Qed.

(** X4. When one of the three folders cannot be listed, the object
    records the counts 95, 95 and 14 whatever the other folders hold, and a
    low score is then answered with warli. *)
Theorem listing_failure_counts (corpus : string -> Folder) (rand : string -> Features)
        (folder style : string) :
  In (folder, style) folder_mapping ->
  corpus folder = Unlistable ->
  style_counts (init corpus rand)
    = [("warli", 95%nat); ("madhubani", 95%nat); ("pithora", 14%nat)] /\
  max_key Nat.ltb (style_counts (init corpus rand)) = Some "warli".
Proof.
  intros Hin Hun. unfold init, _load_reference_images.
  pose proof (@load_folders_unlistable corpus rand folder_mapping
                {| reference_features := [];
                   style_counts := [("warli", 0%nat); ("madhubani", 0%nat); ("pithora", 0%nat)] |}
                folder style Hin Hun) as H.
  destruct (load_folders _ _ _ _) as [self' ok]. cbn [snd] in H. subst ok.
  split; reflexivity.
Qed.

(** X5. Without any folder of the corpus, the scores of a decodable image
    are the three filename scores and the image itself plays no part: two
    decodable inputs under one filename get the same result.  A filename
    that scores 0 for the three styles is classified warli with confidence
    0.9, under the version of the main path. *)
Theorem empty_corpus_uses_filename_only (rand : string -> Features)
        (data : list Byte.byte) (filename : string) (rnd : Draws) (image : Image) :
  Image_open data = Some image ->
  let self := init (fun _ => NoFolder) rand in
  let result := classify_image self data filename rnd in
  dict_get result "style_scores" =
    Some (VScores [("warli", _calculate_filename_similarity filename "warli");
                   ("madhubani", _calculate_filename_similarity filename "madhubani");
                   ("pithora", _calculate_filename_similarity filename "pithora")]) /\
  model_version result = Some "dataset-comparison-v1" /\
  (forall data' rnd' image',
     Image_open data' = Some image' ->
     classify_image self data' filename rnd' = result) /\
  ((forall style, In style styles -> _calculate_filename_similarity filename style = 0) ->
   predicted_style result = Some "warli" /\
   exists c, confidence_score result = Some c /\ c == 0.9).
Proof.
  intros Hopen. cbv zeta.
  change (init (fun _ => NoFolder) rand)
    with {| reference_features := [];
            style_counts := [("warli", 0%nat); ("madhubani", 0%nat); ("pithora", 0%nat)] |}.
  set (self := {| reference_features := []; style_counts := _ |}).
  set (scores := [("warli", _calculate_filename_similarity filename "warli");
                  ("madhubani", _calculate_filename_similarity filename "madhubani");
                  ("pithora", _calculate_filename_similarity filename "pithora")]).
  assert (Hscores : forall uploaded,
            score_styles self uploaded filename styles [] = Some scores)
    by (intros uploaded; reflexivity).
  destruct (@max_key_some _ Qltb scores) as (best & Hbest & Hin); [discriminate|].
  destruct (dict_get_key _ _ Hin) as (conf & Hconf).
  assert (Hmain : forall d r i, Image_open d = Some i ->
            classify_main self d filename r = calibrate self (scores, best, conf)).
  { intros d r i Hd. unfold classify_main, compare_with_dataset.
    now rewrite Hd, Hscores, Hbest, Hconf. }
  unfold classify_image. rewrite (Hmain data rnd image Hopen).
  split; [|split; [|split]].
  - unfold calibrate, self. cbn [style_counts].
    destruct (Qltb conf 0.5); reflexivity.
  - unfold calibrate, self. cbn [style_counts].
    destruct (Qltb conf 0.5); reflexivity.
  - intros data' rnd' image' Hopen'. rewrite (Hmain data' rnd' image' Hopen').
    unfold calibrate, self. cbn [style_counts].
    destruct (Qltb conf 0.5); reflexivity.
  - intros Hzero. clear Hmain. revert Hbest Hconf. unfold scores.
    rewrite (Hzero "warli"), (Hzero "madhubani"), (Hzero "pithora")
      by (unfold styles; simpl; tauto).
    intros Hbest Hconf. cbn in Hbest. injection Hbest as <-.
    cbn in Hconf. injection Hconf as <-.
    split; [reflexivity|]. eexists. split; reflexivity.
Qed.

Lemma Forall2_In_right {A B} (P : A -> B -> Prop) (l : list A) (l' : list B) (y : B) :
  Forall2 P l l' -> In y l' -> exists x, In x l /\ P x y.
Proof.
  induction 1 as [|x y' l l' Hxy _ IH]; simpl; [intros []|].
  intros [<-|Hy].
  - exists x. auto.
  - destruct (IH Hy) as (x' & Hx' & HP). exists x'. auto.
Qed.

(** The clamped best similarity is at most 1 when every similarity is. *)
Lemma score_style_range (self : t) (uploaded : Features) (filename style : string)
      (score : Q) :
  score_style self uploaded filename style = Some score ->
  0 <= score /\
  ((forall u v sim, cosine_similarity u v = Some sim -> sim <= 1) -> score <= 0.985).
Proof.
  unfold score_style.
  assert (Hfs : 0 <= _calculate_filename_similarity filename style /\
                _calculate_filename_similarity filename style <= 0.95).
  { pose proof (filename_similarity_values filename style) as H. cbv zeta in H.
    destruct H as [H | [H | H]]; rewrite H; split; discriminate. }
  destruct Hfs as [Hfs0 Hfs1].
  destruct (dict_get (reference_features self) style) as [[|r refs]|].
  - intros H. injection H as <-. split; [exact Hfs0|].
    intros _. apply Qle_trans with 0.95; [exact Hfs1 | discriminate].
  - destruct (try_map _ (r :: refs)) as [collected|] eqn:Htry; [|discriminate].
    apply similarities_inv in Htry as (sims & HF & ->).
    destruct sims as [|s0 sims']; [inversion HF|].
    set (base := max_from Qltb (fun s => s) (max2 0 s0) (map (max2 0) sims')).
    assert (Hmax : py_max Qltb (fun s => s) (map (max2 0) (s0 :: sims')) = Some base)
      by reflexivity.
    intros H. injection H as <-. fold base.
    destruct (@best_similarity _ _ Hmax) as (Hpos & _ & _).
    split.
    + apply Qle_trans with (0 * 0.7 + 0 * 0.3); [discriminate|].
      apply Qplus_le_compat; apply Qmult_le_compat_r; try assumption; discriminate.
    + intros Hcos.
      apply (@py_max_spec _ _ Qltb (fun s => s) Qltb_trans Qltb_cotrans Qltb_irrefl) in Hmax
        as [Hin _].
      apply in_map_iff in Hin as (s & Hs & Hin).
      assert (Hle : base <= 1).
      { rewrite <- Hs. unfold max2. destruct (Qltb 0 s); [|discriminate].
        destruct (@Forall2_In_right _ _ _ _ _ s HF Hin) as (ref & _ & Href).
        exact (Hcos _ _ _ Href). }
      apply Qle_trans with (1 * 0.7 + 0.95 * 0.3); [|discriminate].
      apply Qplus_le_compat; apply Qmult_le_compat_r; try assumption; discriminate.
  - intros H. injection H as <-. split; [exact Hfs0|].
    intros _. apply Qle_trans with 0.95; [exact Hfs1 | discriminate].
Qed.

(** X6. The scores the main path reports are never negative, also when a
    cosine similarity is; when no similarity exceeds 1 no score exceeds
    0.985.  The dictionary holds the three styles in their order. *)
Theorem style_scores_range (self : t) (data : list Byte.byte) (filename : string)
        (rnd : Draws) (style_scores : dict Q) (best_style : string) (confidence : Q) :
  compare_with_dataset self data filename rnd = Some (style_scores, best_style, confidence) ->
  dict_keys style_scores = styles /\
  (forall style score, In (style, score) style_scores -> 0 <= score) /\
  ((forall u v sim, cosine_similarity u v = Some sim -> sim <= 1) ->
   forall style score, In (style, score) style_scores -> score <= 0.985).
Proof.
  intros Hcmp.
  destruct (compare_with_dataset_inv _ _ _ _ Hcmp) as (image & _ & Hs & _ & _).
  destruct (score_styles_all _ _ _ Hs) as (a & b & c & Ha & Hb & Hc & ->).
  split; [reflexivity|]. split.
  - intros style score [E|[E|[E|[]]]]; injection E as <- <-;
      eapply score_style_range; eassumption.
  - intros Hcos style score [E|[E|[E|[]]]]; injection E as <- <-;
      (eapply score_style_range; [eassumption | exact Hcos]).
Qed.

End WithRuntime.

End DatasetClassifierMore.

(** ** More of the embedding classifier *)

Module EmbeddingClassifierMore.
Import Py PyFacts PyMore EmbeddingClassifier EmbeddingClassifierSpec CentroidLogits.
Local Close Scope Q_scope.
Local Open Scope string_scope.

(** *** The class indices *)

Lemma entry_append {V} (d : dict (list V)) (k k' : string) (x : V) :
  entry (dict_append d k x) k' =
  if String.eqb k' k then (entry d k ++ [x])%list else entry d k'.
Proof.
  unfold entry. rewrite dict_append_get.
  destruct (String.eqb k' k); [|reflexivity].
  now destruct (dict_get d k).
Qed.

Lemma index_labels_entry (labs : list string) : forall idx acc lab i,
  In i (entry (index_labels labs idx acc) lab) <->
  In i (entry acc lab) \/ (idx <= i /\ nth_error labs (i - idx) = Some lab).
Proof.
  induction labs as [|l labs IH]; intros idx acc lab i; cbn [index_labels].
  - split; [tauto|]. intros [H|[_ H]]; [exact H|]. now destruct (i - idx).
  - rewrite IH, entry_append. destruct (String.eqb_spec lab l) as [->|Hne].
    + rewrite in_app_iff. simpl In. split.
      * intros [[H|[<-|[]]]|[Hle Hnth]].
        -- now left.
        -- right. split; [lia|]. now rewrite Nat.sub_diag.
        -- right. split; [lia|].
           replace (i - idx) with (S (i - S idx)) by lia. exact Hnth.
      * intros [H|[Hle Hnth]]; [left; now left|].
        destruct (Nat.eq_dec i idx) as [->|Hneq]; [left; right; now left|].
        right. split; [lia|].
        replace (i - idx) with (S (i - S idx)) in Hnth by lia. exact Hnth.
    + split.
      * intros [H|[Hle Hnth]]; [now left|]. right. split; [lia|].
        replace (i - idx) with (S (i - S idx)) by lia. exact Hnth.
      * intros [H|[Hle Hnth]]; [now left|].
        destruct (Nat.eq_dec i idx) as [->|Hneq].
        -- rewrite Nat.sub_diag in Hnth. simpl in Hnth. congruence.
        -- right. split; [lia|].
           replace (i - idx) with (S (i - S idx)) in Hnth by lia. exact Hnth.
Qed.

Lemma index_labels_sorted (labs : list string) : forall idx acc,
  (forall lab, StronglySorted lt (entry acc lab) /\
               Forall (fun i => i < idx) (entry acc lab)) ->
  forall lab, StronglySorted lt (entry (index_labels labs idx acc) lab).
Proof.
  induction labs as [|l labs IH]; intros idx acc Hacc lab; cbn [index_labels].
  - apply Hacc.
  - apply IH. clear lab. intros lab. rewrite entry_append.
    destruct (String.eqb lab l).
    + destruct (Hacc l) as [Hs Hb]. split.
      * clear IH Hacc. induction (entry acc l) as [|x xs IHx]; simpl.
        -- repeat constructor.
        -- inversion Hs; inversion Hb; subst. constructor; [now apply IHx|].
           apply Forall_app. split; [assumption|]. repeat constructor. assumption.
      * apply Forall_app. split.
        -- eapply Forall_impl; [|exact Hb]. simpl. lia.
        -- repeat constructor.
    + destruct (Hacc lab) as [Hs Hb]. split; [exact Hs|].
      eapply Forall_impl; [|exact Hb]. simpl. lia.
Qed.

(** X7. After [_rebuild_class_indices] the indices of a label are the
    positions at which the label stands in [labels], in increasing order, so
    a label that occurs has at least one index and the zero centroid is never
    used for it. *)
Theorem class_indices_exact (self : t) (lab : string) :
  (forall i,
     In i (indices_of (_rebuild_class_indices self) lab) <->
     nth_error (labels self) i = Some lab) /\
  StronglySorted lt (indices_of (_rebuild_class_indices self) lab) /\
  (In lab (labels self) -> indices_of (_rebuild_class_indices self) lab <> []).
Proof.
  assert (Hexact : forall i,
            In i (indices_of (_rebuild_class_indices self) lab) <->
            nth_error (labels self) i = Some lab).
  { intros i. unfold indices_of, _rebuild_class_indices. cbn [class_to_indices].
    change (match dict_get (index_labels (labels self) 0 []) lab with
            | Some idxs => idxs
            | None => []
            end) with (entry (index_labels (labels self) 0 []) lab).
    rewrite index_labels_entry, Nat.sub_0_r. unfold entry. simpl. split.
    - intros [[]|[_ H]]. exact H.
    - intros H. right. split; [lia | exact H]. }
  split; [exact Hexact|]. split.
  - unfold indices_of, _rebuild_class_indices. cbn [class_to_indices].
    change (match dict_get (index_labels (labels self) 0 []) lab with
            | Some idxs => idxs
            | None => []
            end) with (entry (index_labels (labels self) 0 []) lab).
    apply index_labels_sorted. intros l. unfold entry. simpl. split; constructor.
  - intros Hin. apply In_nth_error in Hin as (i & Hi).
    apply Hexact in Hi. intros H0. rewrite H0 in Hi. exact Hi.
Qed.

(** *** The build *)

Lemma dict_append_keys {V} (d : dict (list V)) (k k' : string) (x : V) :
  In k' (dict_keys (dict_append d k x)) <-> k' = k \/ In k' (dict_keys d).
Proof.
  induction d as [|[k0 xs] d IH]; simpl.
  - intuition.
  - destruct (String.eqb_spec k k0) as [->|Hne]; simpl.
    + intuition.
    + rewrite IH. intuition.
Qed.

Lemma dict_append_NoDup {V} (d : dict (list V)) (k : string) (x : V) :
  NoDup (dict_keys d) -> NoDup (dict_keys (dict_append d k x)).
Proof.
  induction d as [|[k0 xs] d IH]; simpl; intros H.
  - repeat constructor. intros [].
  - inversion H as [|? ? Hnotin Hnd]; subst.
    destruct (String.eqb_spec k k0) as [->|Hne]; simpl.
    + now constructor.
    + constructor; [|now apply IH].
      change (~ In k0 (dict_keys (dict_append d k x))).
      rewrite dict_append_keys. intros [E|E]; [congruence | contradiction].
Qed.

Lemma entry_not_key {V} (d : dict (list V)) (k : string) :
  ~ In k (dict_keys d) -> entry d k = [].
Proof.
  unfold entry. induction d as [|[k0 xs] d IH]; simpl; [reflexivity|].
  intros H. destruct (String.eqb_spec k k0) as [->|Hne]; [exfalso; auto|].
  apply IH. auto.
Qed.

Section Build.
Context {RT : Runtime}.

Lemma group_by_class_NoDup (items : list (string * string)) : forall acc,
  NoDup (dict_keys acc) -> NoDup (dict_keys (group_by_class items acc)).
Proof.
  induction items as [|[label path] items IH]; intros acc H; cbn [group_by_class].
  - exact H.
  - apply IH. now apply dict_append_NoDup.
Qed.

Lemma group_by_class_length (items : list (string * string)) : forall acc lab,
  List.length (entry (group_by_class items acc) lab) =
  List.length (entry acc lab) + count_occ string_dec (map fst items) lab.
Proof.
  induction items as [|[label path] items IH]; intros acc lab; cbn [group_by_class].
  - simpl. lia.
  - rewrite IH, entry_append. simpl map. simpl count_occ.
    destruct (String.eqb_spec lab label) as [->|Hne].
    + destruct (string_dec label label); [|congruence]. rewrite length_app. simpl. lia.
    + destruct (string_dec label lab); [congruence | reflexivity].
Qed.

Lemma embed_paths_length (n : nat) (paths : list string) : forall count,
  List.length (embed_paths n count paths) <= n - count /\
  List.length (embed_paths n count paths) <= List.length paths.
Proof.
  induction paths as [|p paths IH]; intros count; cbn [embed_paths].
  - simpl. lia.
  - destruct (Nat.leb_spec n count); [simpl; lia|].
    destruct (match Image_open_path p with Some img => _embed_image img | None => None end).
    + destruct (IH (S count)). simpl. lia.
    + destruct (IH count). simpl. lia.
Qed.

Lemma count_occ_labelled (label lab : string) (embs : list vec) :
  count_occ string_dec (map snd (map (fun emb => (emb, label)) embs)) lab =
  if String.eqb lab label then List.length embs else 0.
Proof.
  induction embs as [|e embs IH]; simpl.
  - now destruct (String.eqb lab label).
  - rewrite IH. destruct (String.eqb_spec lab label) as [->|Hne].
    + now destruct (string_dec label label).
    + destruct (string_dec label lab); [congruence | reflexivity].
Qed.

Lemma embed_classes_count (n : nat) (by_class : dict (list string)) (lab : string) :
  NoDup (dict_keys by_class) ->
  count_occ string_dec (map snd (embed_classes n by_class)) lab =
  List.length (embed_paths n 0 (entry by_class lab)).
Proof.
  induction by_class as [|[label paths] rest IH]; intros Hnd; cbn [embed_classes].
  - reflexivity.
  - inversion Hnd as [|? ? Hnotin Hnd']; subst.
    rewrite map_app, count_occ_app, count_occ_labelled, (IH Hnd').
    unfold entry at 2. cbn [dict_get].
    destruct (String.eqb_spec lab label) as [->|Hne].
    + rewrite (entry_not_key rest label Hnotin). simpl. lia.
    + reflexivity.
Qed.

(** X8. A build takes at most [max_per_class] vectors of a class and at
    most one per file of that class, and lays down one label per row.  It
    fails when the walk over the dataset finds no image, and also when
    [max_per_class] is 0. *)
Theorem build_respects_cap (n : nat) (self : t) :
  (forall built disk',
      build_index n self = Some (built, disk') ->
      (exists E, embeddings built = Some E /\ List.length E = List.length (labels built)) /\
      forall lab,
        count_occ string_dec (labels built) lab <= n /\
        count_occ string_dec (labels built) lab
        <= count_occ string_dec (map fst _iter_dataset_images) lab) /\
  (_iter_dataset_images = [] -> build_index n self = None) /\
  build_index 0 self = None.
Proof.
  assert (Hcount : forall m lab,
    count_occ string_dec (map snd (embed_classes m (group_by_class _iter_dataset_images [])))
              lab <= m /\
    count_occ string_dec (map snd (embed_classes m (group_by_class _iter_dataset_images [])))
              lab <= count_occ string_dec (map fst _iter_dataset_images) lab).
  { intros m lab. rewrite embed_classes_count by (apply group_by_class_NoDup; constructor).
    destruct (embed_paths_length m (entry (group_by_class _iter_dataset_images []) lab) 0)
      as [H1 H2].
    rewrite group_by_class_length in H2. unfold entry in H2 at 2. simpl in H2. lia. }
  split; [|split].
  - intros built disk'. unfold build_index.
    destruct _iter_dataset_images as [|item items] eqn:Hitems; [discriminate|].
    destruct (embed_classes n _) as [|row rows] eqn:Hrows; [discriminate|].
    destruct (vstack _) as [stacked|] eqn:Hst; [|discriminate].
    intros H. injection H as <- _.
    apply vstack_inv in Hst as (-> & _ & _).
    unfold _rebuild_class_indices. cbn [embeddings labels]. split.
    + eexists. split; [reflexivity|]. simpl. now rewrite !length_map.
    + intros lab. pose proof (Hcount n lab) as Hc. rewrite Hrows in Hc. exact Hc.
  - intros H. unfold build_index. now rewrite H.
  - unfold build_index.
    destruct _iter_dataset_images as [|item items] eqn:Hitems; [reflexivity|].
    destruct (embed_classes 0 _) as [|row rows] eqn:Hrows; [reflexivity|].
    exfalso. destruct (Hcount 0 (snd row)) as [H _]. rewrite Hrows in H.
    simpl in H. destruct (string_dec (snd row) (snd row)); [lia | congruence].
Qed.

(** *** Once loaded *)


Lemma load_or_build_loaded (n : nat) (self self' : t) (disk disk' : Disk) :
  _load_or_build_index n self disk = (self', disk', true) ->
  loaded self' = true /\ embeddings self' <> None.
Proof.
  unfold _load_or_build_index.
  destruct (try_load self disk) as [loaded_self ok] eqn:Hload. destruct ok.
  - intros H. injection H as <- _. revert Hload. unfold try_load.
    destruct (index_file disk) as [| |data]; destruct (meta_file disk) as [| |meta];
      try discriminate;
      (destruct (npz_embeddings data); [|discriminate]);
      (destruct (npz_labels data); [|discriminate]);
      try discriminate.
    destruct (method_matches _ _); [|discriminate].
    intros H. inversion H. split; [reflexivity | discriminate].
  - destruct (build_index n loaded_self) as [[built d]|] eqn:Hb; [|discriminate].
    intros H. injection H as <- _.
    apply build_index_well_shaped in Hb as (_ & Hl & _ & (E & HE & _) & _).
    split; [exact Hl | congruence].
Qed.

(** X9. An object that has answered a classification holds a loaded
    index, and from then on it never reads or writes the disk again: any
    later call is the scoring of the image against the index it holds,
    whatever the index files have become. *)
Theorem loaded_index_is_kept (self self' : t) (disk disk' : Disk)
        (image_bytes : list Byte.byte) (result : dict Value) :
  classify self disk image_bytes = (Some result, self', disk') ->
  loaded self' = true /\
  embeddings self' <> None /\
  forall later_disk later_bytes,
    classify self' later_disk later_bytes = (score self' later_bytes, self', later_disk).
Proof.
  unfold classify at 1.
  destruct (negb TF_AVAILABLE && negb CV2_AVAILABLE) eqn:Hav; [discriminate|].
  intros H.
  assert (Hstate : loaded self' = true /\ embeddings self' <> None).
  { destruct (negb (loaded self) || match embeddings self with
                                    | Some _ => false
                                    | None => true
                                    end) eqn:Hc.
    - destruct (_load_or_build_index 400 self disk) as [[s d] ok] eqn:Hl.
      destruct ok; [|discriminate]. injection H as _ <- _.
      exact (load_or_build_loaded _ _ _ Hl).
    - injection H as _ <- _. apply orb_false_iff in Hc as [Hc1 Hc2].
      apply negb_false_iff in Hc1. split; [exact Hc1|].
      destruct (embeddings self); [discriminate | discriminate]. }
  destruct Hstate as [Hl He]. split; [exact Hl|]. split; [exact He|].
  intros later_disk later_bytes. unfold classify. rewrite Hav, Hl.
  destruct (embeddings self'); [reflexivity | congruence].
Qed.

End Build.

(** *** Similarities and probabilities *)

Local Open Scope R_scope.

Lemma centroid_scores_logits (self : t) (emb : vec) :
  centroid_scores self emb =
  match centroid_logits self emb with
  | Some (labs, logits) => Some (labs, softmax logits)
  | None => None
  end.
Proof.
  unfold centroid_scores, centroid_logits.
  destruct (embeddings self) as [E|]; [|reflexivity].
  destruct (try_map _ _) as [centroids|]; [|reflexivity].
  destruct (vstack centroids) as [stacked|]; [|reflexivity].
  now destruct (matvec stacked emb).
Qed.

Lemma softmax_length (logits : list R) : List.length (softmax logits) = List.length logits.
Proof. unfold softmax. now rewrite !length_map. Qed.



Lemma vsum_le_max (l : list R) (v : R) :
  Forall (fun x => x <= v) l -> vsum l <= INR (List.length l) * v.
Proof.
  induction 1 as [|x l Hx _ IH].
  - simpl. lra.
  - cbn [vsum fold_right List.length]. rewrite S_INR. unfold vsum in IH. lra.
Qed.

Lemma vsum_ge_member (l : list R) (v : R) :
  Forall (fun x => 0 <= x) l -> In v l -> v <= vsum l.
Proof.
  induction 1 as [|x l Hx Hall IH]; [intros []|].
  assert (0 <= vsum l).
  { clear IH. induction Hall; simpl; [lra|]. unfold vsum in *. simpl. lra. }
  intros [->|Hin]; cbn [vsum fold_right]; [unfold vsum in *; lra|].
  specialize (IH Hin). unfold vsum in *. lra.
Qed.

Section Probabilities.
Context {RT : Runtime}.

(** What [score] returns on a well-shaped index. *)
Lemma score_shape (self : t) (image_bytes : list Byte.byte) (img : Image) (emb : vec)
      (d : nat) :
  well_shaped self d ->
  Image_open image_bytes = Some img ->
  _embed_image img = Some emb ->
  List.length emb = d ->
  exists logits predicted confidence,
    logits <> [] /\
    List.length logits = List.length (sorted (set_of (labels self))) /\
    centroid_logits self emb = Some (sorted (set_of (labels self)), logits) /\
    nth_error (sorted (set_of (labels self))) (argmax (softmax logits)) = Some predicted /\
    nth_error (softmax logits) (argmax (softmax logits)) = Some confidence /\
    score self image_bytes =
      Some [("predicted_style", VStr predicted);
            ("confidence_score", VFloat confidence);
            ("all_predictions",
             VPredictions (combine (sorted (set_of (labels self))) (softmax logits)));
            ("method", VStr (if TF_AVAILABLE then "mobilenetv2-embeddings-knn"
                             else "cvhsv-embeddings-knn"))].
Proof.
  intros Hws Himg Hemb Hd.
  destruct (@centroid_scores_total self emb d Hws Hd) as (logits0 & Hne0 & Hlen0 & Hscores).
  pose proof (centroid_scores_logits self emb) as Hlink. rewrite Hscores in Hlink.
  destruct (centroid_logits self emb) as [[labs logits]|] eqn:HL; [|discriminate].
  injection Hlink as Hlabs Hsoft. subst labs.
  assert (Hlen : List.length logits = List.length (sorted (set_of (labels self)))).
  { rewrite <- Hlen0, <- (softmax_length logits), <- (softmax_length logits0). now rewrite Hsoft. }
  assert (Hne : logits <> []).
  { intros H0. rewrite H0 in Hlen. rewrite <- Hlen in Hlen0. destruct logits0; [congruence|].
    discriminate. }
  assert (Hprobs : softmax logits <> []).
  { intros H0. pose proof (softmax_length logits) as Hl. rewrite H0 in Hl.
    destruct logits; [congruence | discriminate]. }
  destruct (@argmax_spec (softmax logits) Hprobs) as (v & Hv & _ & _).
  assert (Hk : (argmax (softmax logits) < List.length (sorted (set_of (labels self))))%nat).
  { rewrite <- Hlen, <- softmax_length. apply nth_error_Some. congruence. }
  destruct (nth_error (sorted (set_of (labels self))) (argmax (softmax logits)))
    as [predicted|] eqn:Hp; [|apply nth_error_None in Hp; lia].
  exists logits, predicted, v.
  split; [exact Hne|]. split; [exact Hlen|]. split; [reflexivity|].
  split; [exact Hp|]. split; [exact Hv|].
  unfold score. rewrite Himg, Hemb, Hscores, Hsoft. now rewrite Hp, Hv.
Qed.


(** X11. In exact real arithmetic, as the model has the scores, with [n]
    distinct labels in the index the confidence lies between 1/n and 1; an
    index with a single label therefore answers every image with confidence
    1.  (The lower bound rests on the probabilities adding up to exactly 1;
    a rounded quotient can fall below 1/n by a rounding error.) *)
Theorem confidence_at_least_uniform (self : t) (image_bytes : list Byte.byte)
        (img : Image) (emb : vec) (d : nat) :
  well_shaped self d ->
  Image_open image_bytes = Some img ->
  _embed_image img = Some emb ->
  List.length emb = d ->
  exists result confidence,
    score self image_bytes = Some result /\
    dict_get result "confidence_score" = Some (VFloat confidence) /\
    1 / INR (List.length (sorted (set_of (labels self)))) <= confidence /\
    confidence <= 1 /\
    (List.length (sorted (set_of (labels self))) = 1%nat -> confidence = 1).
Proof.
  intros Hws Himg Hemb Hd.
  destruct (score_shape image_bytes Hws Himg Hemb Hd)
    as (logits & predicted & confidence & Hne & Hlen & HL & Hp & Hv & Hscore).
  set (labs := sorted (set_of (labels self))) in *.
  destruct (@softmax_distribution logits Hne) as (Hl & Hpos & Hsum).
  assert (Hprobs : softmax logits <> []) by (intros H0; rewrite H0 in Hv; now destruct (argmax [])).
  destruct (@argmax_spec (softmax logits) Hprobs) as (v & Hv' & Hall & _).
  assert (v = confidence) by congruence. subst v.
  assert (Hn : (0 < List.length labs)%nat).
  { rewrite <- Hlen. destruct logits; [congruence | simpl; lia]. }
  assert (HnR : 0 < INR (List.length labs)) by (apply lt_0_INR; exact Hn).
  assert (Hlow : 1 / INR (List.length labs) <= confidence).
  { pose proof (vsum_le_max Hall) as Hmax. rewrite Hsum, Hl, Hlen in Hmax.
    apply (Rmult_le_reg_l (INR (List.length labs))); [exact HnR|].
    replace (INR (List.length labs) * (1 / INR (List.length labs))) with 1
      by (field; lra).
    exact Hmax. }
  assert (Hhigh : confidence <= 1).
  { rewrite <- Hsum. apply vsum_ge_member; [exact Hpos|]. exact (nth_error_In _ _ Hv). }
  eexists. exists confidence.
  split; [exact Hscore|]. split; [reflexivity|]. split; [exact Hlow|].
  split; [exact Hhigh|].
  intros H1. rewrite H1 in Hlow. simpl in Hlow. lra.
Qed.

End Probabilities.

End EmbeddingClassifierMore.

(** ** The walk over the dataset *)

Module DatasetWalkSpec.
Import Py PyFacts DatasetWalk.
Local Close Scope Q_scope.
Local Open Scope string_scope.

Lemma replace_underscores_clean (s : string) : str_in "_" (replace_underscores s) = false.
Proof.
  induction s as [|c s IH]; [reflexivity|].
  cbn [replace_underscores str_in]. rewrite IH, orb_false_r.
  unfold prefix. destruct (Ascii.eqb_spec c "_") as [->|Hne].
  - reflexivity.
  - destruct (ascii_dec "_" c); [congruence | reflexivity].
Qed.

Lemma replace_underscores_inv (s : string) : forall r,
  replace_underscores s = r -> str_in " " r = false -> s = r.
Proof.
  induction s as [|c s IH]; intros r <-; [reflexivity|].
  cbn [replace_underscores str_in]. intros H. apply orb_false_iff in H as [Hp Hr].
  destruct (Ascii.eqb_spec c "_") as [->|Hne].
  - exfalso. revert Hp. unfold prefix.
    destruct (ascii_dec " " " "); [|congruence].
    destruct (replace_underscores s); discriminate.
  - f_equal. now apply IH.
Qed.

Lemma normalize_label_clean (name : string) :
  str_in "_" (_normalize_label name) = false.
Proof.
  unfold _normalize_label.
  destruct (str_in "madhubani" (lower (strip name))); [reflexivity|].
  destruct (str_in "warli" (lower (strip name))); [reflexivity|].
  destruct (str_in "pithora" (lower (strip name)) || str_in "pithori" (lower (strip name)));
    [reflexivity|].
  apply replace_underscores_clean.
Qed.

(** X12. The label of a folder never contains an underscore.  It is one
    of madhubani, warli and pithora exactly when the stripped, lower-cased
    folder name contains madhubani, warli, pithora or pithori; madhubani
    goes before warli, and warli before pithora. *)
Theorem normalize_label_canonical (name : string) :
  let n := lower (strip name) in
  ~ Substring "_" (_normalize_label name) /\
  (In (_normalize_label name) ["madhubani"; "warli"; "pithora"] <->
   Substring "madhubani" n \/ Substring "warli" n \/
   Substring "pithora" n \/ Substring "pithori" n) /\
  (Substring "madhubani" n -> _normalize_label name = "madhubani") /\
  (~ Substring "madhubani" n -> Substring "warli" n -> _normalize_label name = "warli") /\
  (~ Substring "madhubani" n -> ~ Substring "warli" n ->
   Substring "pithora" n \/ Substring "pithori" n -> _normalize_label name = "pithora").
Proof.
  cbv zeta. unfold _normalize_label.
  rewrite <- !str_in_spec.
  destruct (str_in "madhubani" (lower (strip name))) eqn:Em.
  { split; [vm_compute; discriminate|]. split; [simpl; tauto|].
    split; [reflexivity|]. split; intros H; now exfalso. }
  destruct (str_in "warli" (lower (strip name))) eqn:Ew.
  { split; [vm_compute; discriminate|]. split; [simpl; tauto|].
    split; [discriminate|]. split; [reflexivity|]. intros _ H. now exfalso. }
  destruct (str_in "pithora" (lower (strip name))) eqn:Ep.
  { split; [vm_compute; discriminate|]. split; [simpl; tauto|].
    split; [discriminate|]. split; [discriminate | reflexivity]. }
  destruct (str_in "pithori" (lower (strip name))) eqn:Ei.
  { split; [vm_compute; discriminate|]. split; [simpl; tauto|].
    split; [discriminate|]. split; [discriminate | reflexivity]. }
  cbn [orb]. split; [rewrite replace_underscores_clean; discriminate|]. split.
  - split.
    + intros [H|[H|[H|[]]]]; symmetry in H;
        apply replace_underscores_inv in H; try reflexivity;
        rewrite H in *; discriminate.
    + intros [H|[H|[H|H]]]; discriminate.
  - split; [discriminate|]. split; [discriminate|]. intros _ _ [H|H]; discriminate.
Qed.

Lemma substring_all (s : string) : substring 0 (String.length s) s = s.
Proof. induction s as [|c s IH]; simpl; [reflexivity | now rewrite IH]. Qed.

Lemma substring_skip (stem s : string) (m : nat) :
  substring (String.length stem) m (stem ++ s) = substring 0 m s.
Proof. induction stem as [|c stem IH]; simpl; [reflexivity | exact IH]. Qed.

Lemma length_append (a b : string) :
  String.length (a ++ b) = String.length a + String.length b.
Proof. induction a as [|c a IH]; simpl; [reflexivity | now rewrite IH]. Qed.

Lemma substring_split (s : string) : forall n m,
  n + m = String.length s -> s = substring 0 n s ++ substring n m s.
Proof.
  induction s as [|c s IH]; intros n m H.
  - simpl in H. assert (n = 0) by lia. assert (m = 0) by lia. subst. reflexivity.
  - destruct n as [|n].
    + simpl in H. subst m. cbn [substring]. simpl. now rewrite substring_all.
    + simpl in H. cbn [substring]. simpl. f_equal. apply IH. lia.
Qed.

Lemma endswith_spec (s suffix : string) :
  endswith s suffix = true <-> exists stem, s = stem ++ suffix.
Proof.
  unfold endswith. rewrite andb_true_iff, Nat.leb_le, String.eqb_eq. split.
  - intros [Hle Hsub].
    exists (substring 0 (String.length s - String.length suffix) s).
    rewrite <- Hsub at 2. apply substring_split. lia.
  - intros [stem ->]. rewrite length_append. split; [lia|].
    replace (String.length stem + String.length suffix - String.length suffix)
      with (String.length stem) by lia.
    now rewrite substring_skip, substring_all.
Qed.

(** X13. The walk yields only files whose lower-cased name ends in .jpg,
    .jpeg, .png or .webp, none from the dataset directory itself nor from a
    directory whose relative path starts with a dot, each with the normalised
    name of its own directory as label; without a dataset directory it yields
    nothing. *)
Theorem iter_dataset_images_sound (dataset_dir : string) (walk : option (list Visit))
        (label path : string) :
  (In (label, path) (_iter_dataset_images dataset_dir walk) <->
   exists visits v f,
     walk = Some visits /\ In v visits /\ In f (files v) /\
     rel v <> "." /\ prefix "." (rel v) = false /\
     (exists suffix stem, In suffix image_suffixes /\ lower f = stem ++ suffix) /\
     label = _normalize_label (basename (rel v)) /\
     path = join dataset_dir (rel v) f) /\
  (In (label, path) (_iter_dataset_images dataset_dir walk) -> ~ Substring "_" label) /\
  _iter_dataset_images dataset_dir None = [].
Proof.
  assert (Hiff :
    In (label, path) (_iter_dataset_images dataset_dir walk) <->
    exists visits v f,
      walk = Some visits /\ In v visits /\ In f (files v) /\
      rel v <> "." /\ prefix "." (rel v) = false /\
      (exists suffix stem, In suffix image_suffixes /\ lower f = stem ++ suffix) /\
      label = _normalize_label (basename (rel v)) /\
      path = join dataset_dir (rel v) f).
  { unfold _iter_dataset_images. destruct walk as [visits|].
    - rewrite in_flat_map. split.
      + intros (v & Hv & Hin).
        destruct (String.eqb_spec (rel v) ".") as [E|Hne]; [destruct Hin|].
        destruct (prefix "." (rel v)) eqn:Hp; [destruct Hin|]. cbn [orb] in Hin.
        apply in_map_iff in Hin as (f & Heq & Hf). injection Heq as <- <-.
        apply filter_In in Hf as [Hf Himg].
        unfold is_image_name in Himg. apply existsb_exists in Himg as (suffix & Hs & He).
        apply endswith_spec in He as (stem & He).
        exists visits, v, f. repeat split; try assumption. now exists suffix, stem.
      + intros (visits' & v & f & E & Hv & Hf & Hne & Hp & (suffix & stem & Hs & He) & -> & ->).
        injection E as <-. exists v. split; [exact Hv|].
        destruct (String.eqb_spec (rel v) ".") as [E|_]; [contradiction|].
        rewrite Hp. cbn [orb]. apply in_map_iff. exists f. split; [reflexivity|].
        apply filter_In. split; [exact Hf|].
        unfold is_image_name. apply existsb_exists. exists suffix. split; [exact Hs|].
        apply endswith_spec. now exists stem.
    - split; [intros [] | intros (visits & _ & _ & E & _); discriminate]. }
  split; [exact Hiff|]. split; [|reflexivity].
  intros H. apply Hiff in H as (visits & v & f & _ & _ & _ & _ & _ & _ & Hl & _).
  rewrite Hl. apply str_in_false, normalize_label_clean.
Qed.

End DatasetWalkSpec.

(** ** [routes/ml.py]: the classification metrics *)

Module MlRouteSpec.
Import MlRoute.
Local Close Scope Q_scope.
Local Open Scope string_scope.

Lemma same_style_eq (a b : option string) : same_style a b = true <-> a = b.
Proof.
  destruct a as [x|], b as [y|]; simpl; try (split; congruence).
  rewrite String.eqb_eq. split; congruence.
Qed.

Lemma same_style_trans (a b c : option string) :
  same_style a b = true -> same_style a c = same_style b c.
Proof. intros H. apply same_style_eq in H. now subst. Qed.

Lemma get_count_up (d : list (option string * nat)) (key k : option string) :
  get_count (count_up d key) k =
  get_count d k + (if same_style k key then 1 else 0).
Proof.
  induction d as [|[k0 n] d IH]; simpl.
  - destruct (same_style k key); reflexivity.
  - destruct (same_style key k0) eqn:E; simpl.
    + apply same_style_eq in E. subst k0.
      destruct (same_style k key); lia.
    + destruct (same_style k k0) eqn:E'.
      * apply same_style_eq in E'. subst k0.
        destruct (same_style k key) eqn:E''; [|lia].
        apply same_style_eq in E''. subst key.
        assert (same_style k k = true) by now apply same_style_eq. congruence.
      * exact IH.
Qed.

Lemma counts_total_up (d : list (option string * nat)) (key : option string) :
  counts_total (count_up d key) = S (counts_total d).
Proof.
  induction d as [|[k0 n] d IH]; simpl; [reflexivity|].
  destruct (same_style key k0); simpl; lia.
Qed.

Lemma count_up_keys (d : list (option string * nat)) (key k : option string) :
  In k (map fst (count_up d key)) <-> k = key \/ In k (map fst d).
Proof.
  induction d as [|[k0 n] d IH]; simpl.
  - intuition.
  - destruct (same_style key k0) eqn:E; simpl.
    + apply same_style_eq in E. subst k0. intuition.
    + rewrite IH. intuition.
Qed.

Lemma count_up_NoDup (d : list (option string * nat)) (key : option string) :
  NoDup (map fst d) -> NoDup (map fst (count_up d key)).
Proof.
  induction d as [|[k0 n] d IH]; simpl; intros H.
  - repeat constructor. intros [].
  - inversion H as [|? ? Hnotin Hnd]; subst.
    destruct (same_style key k0) eqn:E; simpl.
    + now constructor.
    + constructor; [|now apply IH].
      rewrite count_up_keys. intros [<-|Hin]; [|contradiction].
      assert (same_style k0 k0 = true) by now apply same_style_eq. congruence.
Qed.

Lemma distribution_spec (metrics : list Metric) : forall d,
  (forall k, get_count (distribution metrics d) k = get_count d k + occurrences metrics k) /\
  counts_total (distribution metrics d) = counts_total d + List.length metrics /\
  (NoDup (map fst d) -> NoDup (map fst (distribution metrics d))).
Proof.
  unfold occurrences.
  induction metrics as [|m metrics IH]; intros d; cbn [distribution].
  - simpl. repeat split; auto; intros; lia.
  - destruct (IH (count_up d (style m))) as (Hget & Htot & Hnd).
    split; [|split].
    + intros k. rewrite Hget, get_count_up. cbn [filter].
      destruct (same_style k (style m)); simpl; lia.
    + rewrite Htot, counts_total_up. simpl. lia.
    + intros H. now apply Hnd, count_up_NoDup.
Qed.

Lemma report_inv (metrics : list Metric) (report : Report) :
  get_classification_metrics metrics = Some report ->
  metrics <> [] ->
  exists sum,
    sum_confidence metrics 0%Q = Some sum /\
    report = {| total_classifications := List.length metrics;
                average_confidence := (sum / inject_Z (Z.of_nat (List.length metrics)))%Q;
                style_distribution := distribution metrics [];
                recent_classifications :=
                  map recent_of (firstn 10 (newest_first metrics)) |}.
Proof.
  unfold get_classification_metrics. destruct metrics as [|m metrics]; [congruence|].
  destruct (sum_confidence (m :: metrics) 0%Q) as [sum|]; [|discriminate].
  intros H _. injection H as <-. now exists sum.
Qed.

(** X14. In a report, the count of every style is the number of metrics of
    that style, each style is listed once, and the counts add up to the total
    number of classifications, the number of metrics. *)
Theorem style_distribution_counts (metrics : list Metric) (report : Report) :
  get_classification_metrics metrics = Some report ->
  total_classifications report = List.length metrics /\
  counts_total (style_distribution report) = total_classifications report /\
  NoDup (map fst (style_distribution report)) /\
  forall key, get_count (style_distribution report) key = occurrences metrics key.
Proof.
  intros H. destruct metrics as [|m metrics].
  - injection H as <-. simpl. repeat split; auto. constructor.
  - apply report_inv in H as (sum & _ & ->); [|discriminate].
    cbn [total_classifications style_distribution].
    destruct (distribution_spec (m :: metrics) []) as (Hget & Htot & Hnd).
    split; [reflexivity|]. split; [now rewrite Htot|]. split; [apply Hnd; constructor|].
    intros key. now rewrite Hget.
Qed.

(** *** The ten most recent *)


Lemma insert_newest_perm (m : Metric) (l : list Metric) :
  Permutation (insert_newest m l) (m :: l).
Proof.
  induction l as [|x l IH]; simpl; [reflexivity|].
  destruct (timestamp x <=? timestamp m)%Z; [reflexivity|].
  rewrite IH. apply perm_swap.
Qed.

Lemma insert_newest_sorted (m : Metric) (l : list Metric) :
  StronglySorted not_older l -> StronglySorted not_older (insert_newest m l).
Proof.
  induction 1 as [|x l Hs IH Hx]; simpl.
  - repeat constructor.
  - destruct (Z.leb_spec (timestamp x) (timestamp m)) as [Hle|Hgt].
    + constructor; [now constructor|]. constructor; [exact Hle|].
      rewrite Forall_forall in *. intros y Hy. specialize (Hx y Hy).
      unfold not_older in *. lia.
    + constructor; [exact IH|].
      rewrite Forall_forall in *. intros y Hy.
      apply (Permutation_in _ (insert_newest_perm m l)) in Hy as [<-|Hy].
      * unfold not_older. lia.
      * now apply Hx.
Qed.

Lemma newest_first_spec (metrics : list Metric) :
  Permutation (newest_first metrics) metrics /\
  StronglySorted not_older (newest_first metrics).
Proof.
  unfold newest_first. induction metrics as [|m metrics [IHp IHs]]; simpl.
  - split; constructor.
  - split.
    + rewrite insert_newest_perm. now constructor.
    + now apply insert_newest_sorted.
Qed.

Lemma In_firstn {A} (x : A) (n : nat) (l : list A) : In x (firstn n l) -> In x l.
Proof. intros H. rewrite <- (firstn_skipn n l). apply in_or_app. now left. Qed.

Lemma In_skipn {A} (x : A) (n : nat) (l : list A) : In x (skipn n l) -> In x l.
Proof. intros H. rewrite <- (firstn_skipn n l). apply in_or_app. now right. Qed.

Lemma sorted_firstn_skipn (l : list Metric) (n : nat) :
  StronglySorted not_older l ->
  StronglySorted not_older (firstn n l) /\
  forall kept left_out, In kept (firstn n l) -> In left_out (skipn n l) ->
                        not_older kept left_out.
Proof.
  intros H. revert n. induction H as [|x l Hs IH Hx]; intros n.
  - rewrite firstn_nil, skipn_nil. split; [constructor | intros ? ? []].
  - destruct n as [|n]; simpl.
    + split; [constructor | intros ? ? []].
    + destruct (IH n) as [IH1 IH2]. split.
      * constructor; [exact IH1|]. rewrite Forall_forall in *.
        intros y Hy. apply Hx. exact (In_firstn _ _ _ Hy).
      * intros kept left_out [<-|Hk] Hl; [|now apply IH2].
        rewrite Forall_forall in Hx. apply Hx. exact (In_skipn _ _ _ Hl).
Qed.

(** X15. The recent classifications of a report are at most ten, and all
    of them when there are at most ten metrics.  They are the first entries
    of the metrics in an order that goes from the newest to the oldest, so no
    metric left out is newer than a listed one; a missing or empty user is
    shown as N/A. *)
Theorem recent_classifications_newest (metrics : list Metric) (report : Report) :
  get_classification_metrics metrics = Some report ->
  List.length (recent_classifications report) = Nat.min 10 (List.length metrics) /\
  (exists ordered,
     Permutation ordered metrics /\
     StronglySorted not_older ordered /\
     recent_classifications report = map recent_of (firstn 10 ordered) /\
     forall kept left_out,
       In kept (firstn 10 ordered) -> In left_out (skipn 10 ordered) ->
       not_older kept left_out) /\
  Forall (fun r => recent_user_id r <> "") (recent_classifications report).
Proof.
  intros H.
  assert (Hrecent : recent_classifications report
                    = map recent_of (firstn 10 (newest_first metrics))).
  { destruct metrics as [|m metrics].
    - injection H as <-. reflexivity.
    - apply report_inv in H as (sum & _ & ->); [reflexivity | discriminate]. }
  destruct (newest_first_spec metrics) as [Hperm Hsorted].
  destruct (sorted_firstn_skipn 10 Hsorted) as [_ Hcut].
  rewrite Hrecent. split; [|split].
  - rewrite length_map, length_firstn. now rewrite (Permutation_length Hperm).
  - exists (newest_first metrics). repeat split; assumption.
  - apply Forall_forall. intros r Hr. apply in_map_iff in Hr as (m & <- & _).
    unfold recent_of. cbn [recent_user_id].
    destruct (user_id m) as [[|c s]|]; discriminate.
Qed.

(** *** The average *)

Local Open Scope Q_scope.

Lemma sum_confidence_bounds (lo hi : Q) (metrics : list Metric) : forall acc,
  (forall m, In m metrics -> exists c, confidence m = Some c /\ lo <= c /\ c <= hi) ->
  exists sum,
    sum_confidence metrics acc = Some sum /\
    acc + inject_Z (Z.of_nat (List.length metrics)) * lo <= sum /\
    sum <= acc + inject_Z (Z.of_nat (List.length metrics)) * hi.
Proof.
  induction metrics as [|m metrics IH]; intros acc Hall.
  - exists acc. cbn [sum_confidence List.length Z.of_nat]. change (inject_Z 0) with 0.
    split; [reflexivity|]. split; Lqa.lra.
  - destruct (Hall m (or_introl eq_refl)) as (c & Hc & Hlo & Hhi).
    destruct (IH (acc + c)) as (sum & Hsum & H1 & H2);
      [intros x Hx; apply Hall; now right|].
    exists sum. cbn [sum_confidence]. rewrite Hc. split; [exact Hsum|].
    cbn [List.length]. rewrite Nat2Z.inj_succ. unfold Z.succ. rewrite inject_Z_plus.
    change (inject_Z 1) with 1.
    set (n := inject_Z (Z.of_nat (List.length metrics))) in *.
    split; Lqa.lra.
Qed.

Lemma sum_confidence_missing (metrics : list Metric) : forall acc m,
  In m metrics -> confidence m = None -> sum_confidence metrics acc = None.
Proof.
  induction metrics as [|x metrics IH]; intros acc m Hin Hnone; [destruct Hin|].
  cbn [sum_confidence]. destruct Hin as [->|Hin].
  - now rewrite Hnone.
  - destruct (confidence x); [|reflexivity]. now apply (IH _ m).
Qed.

(** X16. With the confidences taken as exact rationals, as the model has
    them: when every metric carries a confidence between two bounds, the
    average confidence of the report lies between them as well.  (A rounded
    sum and quotient can leave the bounds by a rounding error.)  A single
    metric without a confidence turns the report into the answer 500,
    whatever the arithmetic. *)
Theorem average_confidence_bounds (lo hi : Q) (metrics : list Metric) :
  metrics <> [] ->
  ((forall m, In m metrics -> exists c, confidence m = Some c /\ lo <= c /\ c <= hi) ->
   exists report,
     get_classification_metrics metrics = Some report /\
     lo <= average_confidence report /\ average_confidence report <= hi) /\
  ((exists m, In m metrics /\ confidence m = None) ->
   get_classification_metrics metrics = None).
Proof.
  intros Hne. split.
  - intros Hall.
    destruct (@sum_confidence_bounds lo hi metrics 0 Hall) as (sum & Hsum & H1 & H2).
    unfold get_classification_metrics. destruct metrics as [|m metrics]; [congruence|].
    rewrite Hsum. eexists. split; [reflexivity|]. cbn [average_confidence].
    set (n := inject_Z (Z.of_nat (List.length (m :: metrics)))) in *.
    assert (Hn : 0 < n).
    { unfold n. change 0 with (inject_Z 0). rewrite <- Zlt_Qlt. simpl. lia. }
    split.
    + apply Qle_shift_div_l; [exact Hn|]. Lqa.lra.
    + apply Qle_shift_div_r; [exact Hn|]. Lqa.lra.
  - intros (m & Hin & Hnone).
    unfold get_classification_metrics. destruct metrics as [|x metrics]; [congruence|].
    now rewrite (@sum_confidence_missing _ 0 m Hin Hnone).
Qed.

End MlRouteSpec.

(** ** [routes/upload.py] *)

Module UploadRouteSpec.
Import Py PyFacts UploadRoute.
Local Close Scope Q_scope.
Local Open Scope string_scope.
Local Open Scope nat_scope.

Lemma prefix_truthy (ct : option string) :
  prefix "image/" (text ct) = true -> truthy ct = true.
Proof. destruct ct as [[|c s]|]; simpl; congruence. Qed.

(** X17. A file whose size is known and above 10 MiB is never accepted.
    A content type that starts with image/ makes the check of the filename
    void: such a file passes whatever its name, when it is not too large.
    Without a content type, a file with no name passes as well, and a file
    is refused as no image only when it has a name that ends in none of .png,
    .jpg, .jpeg and .webp. *)
Theorem validate_image_file_cases (file : UploadFile) :
  (forall n, size file = Some n -> max_size < n -> validate_image_file file <> None) /\
  ((forall n, size file = Some n -> n <= max_size) ->
   prefix "image/" (text (content_type file)) = true \/ truthy (filename file) = false ->
   validate_image_file file = None) /\
  (validate_image_file file = Some "File must be an image" ->
   prefix "image/" (text (content_type file)) = false /\
   truthy (filename file) = true /\
   forall suffix stem,
     In suffix [".png"; ".jpg"; ".jpeg"; ".webp"] ->
     lower (text (filename file)) <> stem ++ suffix).
Proof.
  unfold validate_image_file. split; [|split].
  - intros n Hn Hbig. rewrite Hn.
    replace (0 <? n) with true by (symmetry; apply Nat.ltb_lt; unfold max_size in *; lia).
    replace (max_size <? n) with true by (symmetry; now apply Nat.ltb_lt).
    destruct (if _ : bool then _ else false); discriminate.
  - intros Hsize [Hct|Hname].
    + rewrite Hct, (prefix_truthy _ Hct). cbn [negb orb].
      destruct (size file) as [n|]; [|reflexivity].
      replace (max_size <? n) with false; [now rewrite andb_false_r|].
      symmetry. apply Nat.ltb_ge. now apply Hsize.
    + rewrite Hname. cbn [andb].
      replace (if negb (truthy (content_type file))
                  || negb (prefix "image/" (text (content_type file)))
               then false else false) with false by now destruct (_ || _).
      destruct (size file) as [n|]; [|reflexivity].
      replace (max_size <? n) with false; [now rewrite andb_false_r|].
      symmetry. apply Nat.ltb_ge. now apply Hsize.
  - destruct (prefix "image/" (text (content_type file))) eqn:Hct.
    + rewrite (prefix_truthy _ Hct). cbn [negb orb].
      destruct (size file) as [n|]; [|discriminate].
      destruct (_ && _); discriminate.
    + rewrite orb_true_r.
      destruct (truthy (filename file)); cbn [andb].
      * destruct (existsb _ _) eqn:Hext; cbn [negb].
        -- destruct (size file) as [n|]; [|discriminate]. destruct (_ && _); discriminate.
        -- intros _. split; [reflexivity|]. split; [reflexivity|].
           intros suffix stem Hin Heq.
           assert (Hex : existsb (DatasetWalk.endswith (lower (text (filename file))))
                                 [".png"; ".jpg"; ".jpeg"; ".webp"] = true).
           { apply existsb_exists. exists suffix. split; [exact Hin|].
             apply DatasetWalkSpec.endswith_spec. now exists stem. }
           congruence.
      * destruct (size file) as [n|]; [|discriminate]. destruct (_ && _); discriminate.
Qed.

(** *** Badges *)

Lemma holds_app (badge other : BadgeType) (user : User) (total : nat) :
  holds badge {| total_uploads := total; badges := (badges user ++ [other])%list |} =
  holds badge user || same_badge badge other.
Proof.
  unfold holds. cbn [badges]. rewrite existsb_app. simpl. now rewrite orb_false_r.
Qed.

(** X18. A user who starts without uploads and badges holds, after [n]
    uploads, no badge below 3, the premium badge from 3, the gold badge as
    well from 5, and all three from 10 on, in the order they were awarded. *)
Theorem badges_of_new_user (n : nat) :
  let user := Nat.iter n count_upload {| total_uploads := 0; badges := [] |} in
  total_uploads user = n /\
  (n < 3 -> badges user = []) /\
  (3 <= n < 5 -> badges user = [PREMIUM]) /\
  (5 <= n < 10 -> badges user = [PREMIUM; GOLD]) /\
  (10 <= n -> badges user = [PREMIUM; GOLD; DIAMOND]).
Proof.
  cbv zeta. induction n as [|n IH].
  - simpl. repeat split; intros; try reflexivity; lia.
  - rewrite Nat.iter_succ.
    destruct (Nat.iter n count_upload {| total_uploads := 0; badges := [] |})
      as [total held]. cbn [total_uploads badges] in IH.
    destruct IH as (-> & H0 & H3 & H5 & H10).
    unfold count_upload, holds. cbn [total_uploads badges].
    destruct (Nat.lt_ge_cases n 3) as [Hlt3|Hge3].
    + rewrite (H0 Hlt3). cbn [existsb negb andb app].
      destruct (Nat.leb_spec 10 (S n)); [lia|].
      destruct (Nat.leb_spec 5 (S n)); [lia|].
      destruct (Nat.leb_spec 3 (S n)); cbn [andb total_uploads badges];
        repeat split; intros; try reflexivity; lia.
    + destruct (Nat.lt_ge_cases n 5) as [Hlt5|Hge5].
      * rewrite (H3 (conj Hge3 Hlt5)). cbn [existsb same_badge orb negb andb app].
        destruct (Nat.leb_spec 10 (S n)); [lia|].
        destruct (Nat.leb_spec 5 (S n)); cbn [andb total_uploads badges].
        -- repeat split; intros; try reflexivity; lia.
        -- rewrite andb_false_r. cbn [total_uploads badges].
           repeat split; intros; try reflexivity; lia.
      * destruct (Nat.lt_ge_cases n 10) as [Hlt10|Hge10].
        -- rewrite (H5 (conj Hge5 Hlt10)). cbn [existsb same_badge orb negb andb app].
           destruct (Nat.leb_spec 10 (S n)); cbn [andb total_uploads badges].
           ++ repeat split; intros; try reflexivity; lia.
           ++ rewrite !andb_false_r. cbn [total_uploads badges].
              repeat split; intros; try reflexivity; lia.
        -- rewrite (H10 Hge10). cbn [existsb same_badge orb negb andb app].
           rewrite !andb_false_r. cbn [total_uploads badges].
           repeat split; intros; try reflexivity; lia.
Qed.

(** From nine uploads on, an upload leaves the user with the diamond
    badge, with the gold badge if diamond was held before, and with the
    premium badge if both were. *)
Lemma count_upload_holds (user : User) :
  9 <= total_uploads user ->
  total_uploads (count_upload user) = S (total_uploads user) /\
  holds DIAMOND (count_upload user) = true /\
  holds GOLD (count_upload user) = holds GOLD user || holds DIAMOND user /\
  holds PREMIUM (count_upload user) =
    holds PREMIUM user || (holds DIAMOND user && holds GOLD user).
Proof.
  intros Hnine. unfold count_upload.
  replace (10 <=? S (total_uploads user)) with true by (symmetry; apply Nat.leb_le; lia).
  replace (5 <=? S (total_uploads user)) with true by (symmetry; apply Nat.leb_le; lia).
  replace (3 <=? S (total_uploads user)) with true by (symmetry; apply Nat.leb_le; lia).
  cbn [andb].
  destruct (holds DIAMOND user) eqn:D, (holds GOLD user) eqn:G,
    (holds PREMIUM user) eqn:P; cbn [negb];
    rewrite ?holds_app, ?D, ?G, ?P; cbn [orb andb same_badge total_uploads];
    repeat split; try reflexivity;
    unfold holds in *; cbn [badges]; assumption.
Qed.

(** X19. An upload is counted once and awards at most one badge: the
    badges held stay, in their order, and none is given twice.  Whoever has
    nine or more uploads holds all three badges three uploads later, whatever
    was held before. *)
Theorem count_upload_awards (user : User) :
  total_uploads (count_upload user) = S (total_uploads user) /\
  (exists awarded,
     badges (count_upload user) = (badges user ++ awarded)%list /\
     List.length awarded <= 1 /\
     forall badge, In badge awarded -> holds badge user = false) /\
  (9 <= total_uploads user ->
   let later := count_upload (count_upload (count_upload user)) in
   holds PREMIUM later = true /\ holds GOLD later = true /\ holds DIAMOND later = true).
Proof.
  split; [|split].
  - unfold count_upload.
    repeat match goal with |- context [if ?b then _ else _] => destruct b end; reflexivity.
  - unfold count_upload.
    destruct ((10 <=? S (total_uploads user)) && negb (holds DIAMOND user)) eqn:E1.
    { exists [DIAMOND]. split; [reflexivity|]. split; [simpl; lia|].
      intros badge [<-|[]]. apply andb_true_iff in E1 as [_ E1]. now apply negb_true_iff. }
    destruct ((5 <=? S (total_uploads user)) && negb (holds GOLD user)) eqn:E2.
    { exists [GOLD]. split; [reflexivity|]. split; [simpl; lia|].
      intros badge [<-|[]]. apply andb_true_iff in E2 as [_ E2]. now apply negb_true_iff. }
    destruct ((3 <=? S (total_uploads user)) && negb (holds PREMIUM user)) eqn:E3.
    { exists [PREMIUM]. split; [reflexivity|]. split; [simpl; lia|].
      intros badge [<-|[]]. apply andb_true_iff in E3 as [_ E3]. now apply negb_true_iff. }
    exists []. split; [now rewrite app_nil_r|]. split; [simpl; lia | intros ? []].
  - intros Hnine. cbv zeta.
    destruct (count_upload_holds user Hnine) as (T1 & D1 & G1 & P1).
    destruct (count_upload_holds (count_upload user)) as (T2 & D2 & G2 & P2); [lia|].
    destruct (count_upload_holds (count_upload (count_upload user)))
      as (T3 & D3 & G3 & P3); [lia|].
    rewrite P3, G3, D3, G2, D2, D1. cbn [orb andb].
    rewrite !orb_true_r. repeat split; reflexivity.
Qed.

Local Open Scope Q_scope.

Section WithRuntime.
Context {RT : DatasetClassifier.Runtime}.
Import DatasetClassifier DatasetClassifierSpec.

(** X20. The style an artwork is stored with is one of the three known
    styles.  When the upload could be read, style and confidence are those
    the classifier returned and the confidence lies between 0.65 and 0.98;
    only a failed read leaves the defaults, warli with confidence 0.  The
    stored price is positive: the given one when that is positive, 500
    otherwise. *)
Theorem stored_classification (classifier : t) (read : option (list Byte.byte))
        (filename : string) (rnd : Draws) (price : option Q) :
  dict_keys (style_counts classifier) = styles ->
  In (fst (classify_upload classifier read filename rnd)) styles /\
  (read = None -> classify_upload classifier read filename rnd = ("warli", 0)) /\
  (forall image_data,
     read = Some image_data ->
     predicted_style (classify_image classifier image_data filename rnd)
       = Some (fst (classify_upload classifier read filename rnd)) /\
     confidence_score (classify_image classifier image_data filename rnd)
       = Some (snd (classify_upload classifier read filename rnd)) /\
     0.65 <= snd (classify_upload classifier read filename rnd) /\
     snd (classify_upload classifier read filename rnd) <= 0.98) /\
  0 < stored_price price /\
  (forall p, price = Some p -> 0 < p -> stored_price price = p) /\
  (forall p, price = Some p -> p <= 0 -> stored_price price = 500).
Proof.
  intros Hkeys.
  assert (Hread : forall image_data,
    exists style c,
      predicted_style (classify_image classifier image_data filename rnd) = Some style /\
      confidence_score (classify_image classifier image_data filename rnd) = Some c /\
      In style styles /\ 0.65 <= c /\ c <= 0.98).
  { intros image_data.
    destruct (classify_image_cases classifier image_data filename rnd)
      as [_ [(style & c & Hp & Hc & Hge & _ & Hin)|[(style & Hp & Hin & Hc & _)|(style & Hp & Hin & Hc & _)]]].
    - exists style, (min2 0.98 (c + 0.15)). repeat split; try assumption.
      + rewrite Hkeys in Hin. tauto.
      + apply min2_glb; [discriminate|].
        apply Qle_trans with (0.5 + 0.15); [discriminate|]. now apply Qplus_le_l.
      + apply min2_le_l.
    - exists style, 0.85. repeat split; try assumption; discriminate.
    - exists style, 0.72. repeat split; try assumption; discriminate. }
  split; [|split; [|split; [|split; [|split]]]].
  - unfold classify_upload. destruct read as [image_data|]; [|simpl; tauto].
    destruct (Hread image_data) as (style & c & -> & -> & Hin & _). exact Hin.
  - intros ->. reflexivity.
  - intros image_data ->. unfold classify_upload.
    destruct (Hread image_data) as (style & c & -> & -> & _ & Hlo & Hhi).
    cbn [fst snd]. repeat split; assumption.
  - unfold stored_price. destruct price as [p|]; [|reflexivity].
    destruct (negb (Qeq_bool p 0) && Qltb 0 p) eqn:E; [|reflexivity].
    apply andb_true_iff in E as [_ E]. now apply Qltb_lt.
  - intros p -> Hp. unfold stored_price.
    replace (Qltb 0 p) with true by (symmetry; now apply Qltb_lt).
    replace (Qeq_bool p 0) with false; [reflexivity|].
    symmetry. apply not_true_is_false. intros H. apply Qeq_bool_iff in H.
    rewrite H in Hp. exact (Qlt_irrefl _ Hp).
  - intros p -> Hp. unfold stored_price.
    replace (Qltb 0 p) with false by (symmetry; now apply Qltb_ge).
    now rewrite andb_false_r.
Qed.

End WithRuntime.

End UploadRouteSpec.

(** ** Concrete runs of the further properties *)

Module MoreRunsSpec.
Import Py PyFacts Runs MoreRuns.
Local Open Scope string_scope.

Section Features.
Import FeatureExtraction FeatureExtractionSpec.

Lemma features_normalised_witness :
  (Qsum (features_of_arrays tiny_image tiny_gray) == 1)%Q /\
  Forall (fun x => 0 <= x /\ x <= 1)%Q (features_of_arrays tiny_image tiny_gray).
Proof.
  apply (proj2 (features_normalised tiny_image tiny_gray)).
  - unfold uint8_image, tiny_image.
    repeat (apply Forall_cons || apply Forall_nil);
      cbn [red green blue fst snd]; repeat split; lia.
  - cbn. lia.
Defined.

End Features.

Section Dataset.
Import DatasetClassifier DatasetClassifierSpec DatasetClassifierMore.

Lemma init_reference_bounds_witness :
  exists refs,
    dict_get (reference_features (@init dataset_runtime corpus (fun _ => 7%nat))) "warli"
      = Some refs /\
    In "warli" styles /\
    (List.length refs <= 10)%nat /\
    exists n,
      dict_get (style_counts (@init dataset_runtime corpus (fun _ => 7%nat))) "warli"
        = Some n /\
      (List.length refs <= n)%nat.
Proof.
  eexists. split; [vm_compute; reflexivity|].
  apply (@init_reference_bounds dataset_runtime corpus (fun _ => 7%nat) "warli").
  vm_compute. reflexivity.
Defined.

Lemma listing_failure_counts_witness :
  style_counts (@init dataset_runtime unlistable_corpus (fun _ => 7%nat))
    = [("warli", 95%nat); ("madhubani", 95%nat); ("pithora", 14%nat)] /\
  max_key Nat.ltb (style_counts (@init dataset_runtime unlistable_corpus (fun _ => 7%nat)))
    = Some "warli".
Proof.
  apply (@listing_failure_counts dataset_runtime unlistable_corpus (fun _ => 7%nat)
           "madhubani painting" "madhubani").
  - unfold folder_mapping. simpl. tauto.
  - reflexivity.
Defined.

Lemma empty_corpus_uses_filename_only_witness :
  model_version
    (classify_image (@init dataset_runtime (fun _ => NoFolder) (fun _ => 7%nat))
                    one_byte "IMG_0001.jpg" draws)
    = Some "dataset-comparison-v1" /\
  predicted_style
    (classify_image (@init dataset_runtime (fun _ => NoFolder) (fun _ => 7%nat))
                    one_byte "IMG_0001.jpg" draws)
    = Some "warli".
Proof.
  pose proof (@empty_corpus_uses_filename_only dataset_runtime (fun _ => 7%nat)
                one_byte "IMG_0001.jpg" draws 1%nat eq_refl) as H.
  cbv zeta in H. destruct H as (_ & Hversion & _ & Hnone).
  split; [exact Hversion|].
  apply Hnone.
  intros style [<-|[<-|[<-|[]]]]; reflexivity.
Defined.

Lemma style_scores_range_witness :
  exists style_scores best_style confidence,
    compare_with_dataset classifier two_bytes "photo.jpg" draws
      = Some (style_scores, best_style, confidence) /\
    forall style score, In (style, score) style_scores -> (score <= 0.985)%Q.
Proof.
  assert (Hsim : forall u v sim,
            @cosine_similarity dataset_runtime u v = Some sim -> (sim <= 1)%Q).
  { intros u v sim H. injection H as <-.
    apply Qle_bool_imp_le.
    destruct u as [|[|[|u]]]; destruct v as [|[|[|[|v]]]]; reflexivity. }
  destruct (compare_with_dataset classifier two_bytes "photo.jpg" draws)
    as [[[style_scores best_style] confidence]|] eqn:Hrun; [|discriminate Hrun].
  exists style_scores, best_style, confidence. split; [reflexivity|].
  exact (proj2 (proj2 (@style_scores_range dataset_runtime classifier two_bytes "photo.jpg"
                         draws style_scores best_style confidence Hrun)) Hsim).
Defined.

End Dataset.

Section Embedding.
Import EmbeddingClassifier EmbeddingClassifierSpec EmbeddingClassifierMore CentroidLogits.
Local Open Scope R_scope.

Lemma class_indices_exact_witness :
  (forall i,
     In i (indices_of (_rebuild_class_indices built) "warli") <->
     nth_error (labels built) i = Some "warli") /\
  indices_of (_rebuild_class_indices built) "warli" <> [].
Proof.
  destruct (class_indices_exact built "warli") as (Hexact & _ & Hsome).
  split; [exact Hexact|].
  apply Hsome. simpl. tauto.
Defined.

Lemma build_respects_cap_witness :
  exists built_object disk',
    @build_index embedding_runtime 400 (@fresh embedding_runtime)
      = Some (built_object, disk') /\
    forall lab,
      (count_occ string_dec (labels built_object) lab <= 400)%nat /\
      (count_occ string_dec (labels built_object) lab
       <= count_occ string_dec (map fst (@_iter_dataset_images embedding_runtime)) lab)%nat.
Proof.
  do 2 eexists. split; [reflexivity|].
  eapply (proj1 (@build_respects_cap embedding_runtime 400 (@fresh embedding_runtime))).
  reflexivity.
Defined.

Lemma loaded_index_is_kept_witness :
  exists result,
    @classify embedding_runtime (@fresh embedding_runtime) stale_disk upload
      = (Some result, built,
         {| index_file := Stored {| npz_embeddings := Some [[1; 0]; [1; 0]; [0; 1]];
                                    npz_labels := None |};
            meta_file := Stored {| meta_label_names := Some ["madhubani"; "warli"];
                                   meta_method := Some "mobilenetv2" |} |}) /\
    loaded built = true /\
    embeddings built <> None /\
    forall later_disk later_bytes,
      @classify embedding_runtime built later_disk later_bytes
        = (@score embedding_runtime built later_bytes, built, later_disk).
Proof.
  destruct (@score_shape embedding_runtime built upload "upload" [0; 1] 2
              built_well_shaped eq_refl eq_refl eq_refl)
    as (logits & predicted & confidence & _ & _ & _ & _ & _ & Hscore).
  assert (Hrun :
    @classify embedding_runtime (@fresh embedding_runtime) stale_disk upload
      = (@score embedding_runtime built upload, built,
         {| index_file := Stored {| npz_embeddings := Some [[1; 0]; [1; 0]; [0; 1]];
                                    npz_labels := None |};
            meta_file := Stored {| meta_label_names := Some ["madhubani"; "warli"];
                                   meta_method := Some "mobilenetv2" |} |}))
    by reflexivity.
  rewrite Hscore in Hrun.
  eexists. split; [exact Hrun|].
  exact (@loaded_index_is_kept embedding_runtime _ _ _ _ _ _ Hrun).
Defined.



Lemma confidence_at_least_uniform_witness :
  exists result confidence,
    @score embedding_runtime built upload = Some result /\
    dict_get result "confidence_score" = Some (VFloat confidence) /\
    1 / INR (List.length (sorted (set_of (labels built)))) <= confidence /\
    confidence <= 1 /\
    (List.length (sorted (set_of (labels built))) = 1%nat -> confidence = 1).
Proof.
  apply (@confidence_at_least_uniform embedding_runtime built upload "upload" [0; 1] 2).
  - exact built_well_shaped.
  - reflexivity.
  - reflexivity.
  - reflexivity.
Defined.

End Embedding.

Section Walk.
Import DatasetWalk DatasetWalkSpec.

Lemma normalize_label_canonical_witness :
  ~ Substring "_" (_normalize_label "  Warli_Painting ") /\
  _normalize_label "  Warli_Painting " = "warli".
Proof.
  pose proof (normalize_label_canonical "  Warli_Painting ") as H.
  cbv zeta in H. destruct H as (Hclean & _ & _ & Hwarli & _).
  split; [exact Hclean|].
  apply Hwarli.
  - apply str_in_false. reflexivity.
  - apply str_in_spec. reflexivity.
Defined.

Lemma iter_dataset_images_sound_witness :
  In ("warli", "data/Warli_Painting/a.JPG") (_iter_dataset_images "data" (Some walk)) /\
  ~ Substring "_" "warli".
Proof.
  destruct (iter_dataset_images_sound "data" (Some walk) "warli" "data/Warli_Painting/a.JPG")
    as (Hiff & Hclean & _).
  assert (Hin : In ("warli", "data/Warli_Painting/a.JPG")
                   (_iter_dataset_images "data" (Some walk))).
  { apply Hiff.
    exists walk, {| rel := "Warli_Painting"; files := ["a.JPG"; "pageInfo.txt"; "b.webp"] |},
      "a.JPG".
    split; [reflexivity|]. split; [simpl; tauto|]. split; [simpl; tauto|].
    split; [discriminate|]. split; [reflexivity|].
    split; [exists ".jpg", "a"; split; [simpl; tauto | reflexivity]|].
    split; reflexivity. }
  split; [exact Hin | exact (Hclean Hin)].
Defined.

End Walk.

Section Routes.
Import MlRoute MlRouteSpec UploadRoute UploadRouteSpec.

Lemma style_distribution_counts_witness :
  exists report,
    get_classification_metrics metrics = Some report /\
    total_classifications report = List.length metrics /\
    counts_total (style_distribution report) = total_classifications report /\
    NoDup (map fst (style_distribution report)) /\
    forall key, get_count (style_distribution report) key = occurrences metrics key.
Proof.
  eexists. split; [reflexivity|].
  apply (@style_distribution_counts metrics). reflexivity.
Defined.

Lemma recent_classifications_newest_witness :
  exists report,
    get_classification_metrics metrics = Some report /\
    List.length (recent_classifications report) = Nat.min 10 (List.length metrics) /\
    Forall (fun r => recent_user_id r <> "") (recent_classifications report).
Proof.
  eexists. split; [reflexivity|].
  destruct (@recent_classifications_newest metrics _ eq_refl) as (Hlen & _ & Hids).
  split; [exact Hlen | exact Hids].
Defined.

Lemma average_confidence_bounds_witness :
  exists report,
    get_classification_metrics metrics = Some report /\
    (0.7 <= average_confidence report)%Q /\ (average_confidence report <= 0.9)%Q.
Proof.
  assert (Hne : metrics <> []) by discriminate.
  apply (proj1 (@average_confidence_bounds 0.7 0.9 metrics Hne)).
  intros m [<-|[<-|[<-|[]]]]; eexists; (split; [reflexivity|]);
    split; apply Qle_bool_imp_le; reflexivity.
Defined.

Lemma validate_image_file_cases_witness : validate_image_file renamed_upload = None.
Proof.
  destruct (validate_image_file_cases renamed_upload) as (_ & Hpass & _).
  apply Hpass.
  - intros n H. injection H as <-. unfold max_size. lia.
  - left. reflexivity.
Defined.

Lemma badges_of_new_user_witness :
  badges (Nat.iter 7 count_upload {| total_uploads := 0; badges := [] |}) = [PREMIUM; GOLD].
Proof.
  pose proof (badges_of_new_user 7) as H. cbv zeta in H.
  destruct H as (_ & _ & _ & Hgold & _).
  apply Hgold. lia.
Defined.

Lemma count_upload_awards_witness :
  holds PREMIUM (count_upload (count_upload (count_upload veteran))) = true /\
  holds GOLD (count_upload (count_upload (count_upload veteran))) = true /\
  holds DIAMOND (count_upload (count_upload (count_upload veteran))) = true.
Proof.
  destruct (count_upload_awards veteran) as (_ & _ & Hall).
  apply Hall. unfold veteran. cbn [total_uploads]. lia.
Defined.

Lemma stored_classification_witness :
  In (fst (@classify_upload dataset_runtime classifier (Some one_byte) "photo.jpg" draws))
     DatasetClassifier.styles /\
  (0 < stored_price (Some 0))%Q.
Proof.
  assert (Hkeys : dict_keys (DatasetClassifier.style_counts classifier)
                  = DatasetClassifier.styles) by reflexivity.
  destruct (@stored_classification dataset_runtime classifier (Some one_byte) "photo.jpg"
              draws (Some 0%Q) Hkeys) as (Hstyle & _ & _ & Hprice & _).
  split; [exact Hstyle | exact Hprice].
Defined.

End Routes.

End MoreRunsSpec.
